(** * contentful.py: decoding, coercion and link resolution

    A shallow embedding of the Content Delivery API client
    ([contentful/cda/fields.py], [resources.py], [serialization.py],
    [client.py], [utils.py] and [errors.py]).  Python objects with
    identity (resources, the sequences held by entry fields) live in an
    explicit store; raw JSON is a tree; the HTTP client is a parameter. *)

From Stdlib Require Import ZArith Ascii String List Bool Lia.
From stdpp Require Import base list option strings pretty.
Import ListNotations.
Set Warnings "-register-all".
Local Open Scope string_scope.
Local Open Scope Z_scope.

(** ** Exceptions and results *)

Inductive pyexn : Type :=
| KeyError | TypeError | ValueError | AttributeError | OverflowError
| SyntaxError | RecursionError | ConfigError.

Inductive outcome (A : Type) : Type :=
| Ok (a : A)
| Raise (e : pyexn).
Arguments Ok {A} a.
Arguments Raise {A} e.

Definition obind {A B} (m : outcome A) (f : A -> outcome B) : outcome B :=
  match m with
  | Ok a => f a
  | Raise e => Raise e
  end.

Definition raises {A} (m : outcome A) : Prop := exists e, m = Raise e.

(** ** JSON documents

    [JFloat neg d x] is the float that Python prints with decimal digits
    [d] and decimal exponent [x] (the value nearest to [d * 10^x]); the
    keys of a [JDict] are distinct, as in a Python dict.  A string is the
    sequence of its characters, one [ascii] per character: the strings
    covered are those of characters below 256. *)

Inductive json : Type :=
| JNull
| JBool (b : bool)
| JInt (z : Z)
| JFloat (neg : bool) (digits : N) (exp10 : Z)
| JStr (s : string)
| JList (l : list json)
| JDict (d : list (string * json)).

(** ** Dictionaries: insertion-ordered association lists *)

Section Dict.
Context {K V : Type} (eqb : K -> K -> bool).

Fixpoint dict_get (d : list (K * V)) (k : K) : option V :=
  match d with
  | [] => None
  | (k', v) :: d' => if eqb k' k then Some v else dict_get d' k
  end.

(* d[k] = v : an existing key keeps its position *)
Fixpoint dict_set (d : list (K * V)) (k : K) (v : V) : list (K * V) :=
  match d with
  | [] => [(k, v)]
  | (k', v') :: d' =>
      if eqb k' k then (k', v) :: d' else (k', v') :: dict_set d' k v
  end.

Definition dict_values (d : list (K * V)) : list V := map snd d.
Definition dict_keys (d : list (K * V)) : list K := map fst d.
End Dict.

Definition sget {V} (d : list (string * V)) (k : string) : option V :=
  dict_get String.eqb d k.
Definition sset {V} (d : list (string * V)) (k : string) (v : V) :=
  dict_set String.eqb d k v.

(** ** Python built-ins on JSON values *)

(* j[k] for a string key *)
Definition subscript (j : json) (k : string) : outcome json :=
  match j with
  | JDict d => match sget d k with Some v => Ok v | None => Raise KeyError end
  | _ => Raise TypeError
  end.

(* j.get(k) *)
Definition json_get (j : json) (k : string) : outcome json :=
  match j with
  | JDict d => Ok (default JNull (sget d k))
  | _ => Raise AttributeError
  end.

(* j == 'literal' *)
Definition eq_str (j : json) (s : string) : bool :=
  match j with
  | JStr s' => String.eqb s' s
  | _ => false
  end.

Definition is_none (j : json) : bool :=
  match j with JNull => true | _ => false end.

(** *** Floats *)

(* round-half-even quotient of two positive integers *)
Definition div_half_even (num den : Z) : Z :=
  let q := num / den in
  let r := num mod den in
  if 2 * r <? den then q
  else if den <? 2 * r then q + 1
  else if Z.even q then q else q + 1.

(* d * 10^x * 2^(-e) as a fraction *)
Definition scaled (d x e : Z) : Z * Z :=
  let num := (if 0 <=? x then d * 10 ^ x else d) * (if e <? 0 then 2 ^ (- e) else 1) in
  let den := (if 0 <=? x then 1 else 10 ^ (- x)) * (if e <? 0 then 1 else 2 ^ e) in
  (num, den).

(* The binary64 value nearest to d * 10^x, as (m, e) standing for m * 2^e;
   None when the value overflows the format. *)
Definition binary64 (d : N) (x : Z) : option (Z * Z) :=
  let d := Z.of_N d in
  if d =? 0 then Some (0, 0) else
  let p := if 0 <=? x then d * 10 ^ x else d in
  let q := if 0 <=? x then 1 else 10 ^ (- x) in
  let e0 := Z.log2 p - Z.log2 q - 53 in
  let fits e := let '(n, m) := scaled d x e in n <? m * 2 ^ 53 in
  let e1 := if fits e0 then e0 else if fits (e0 + 1) then e0 + 1 else e0 + 2 in
  let e := Z.max e1 (-1074) in
  let '(n, m) := scaled d x e in
  let r := div_half_even n m in
  if 971 <? e + Z.log2 r - 52 then None else Some (r, e).

(* int(f): truncation towards zero *)
Definition float_trunc (neg : bool) (d : N) (x : Z) : outcome Z :=
  match binary64 d x with
  | None => Raise OverflowError
  | Some (m, e) =>
      let a := if 0 <=? e then m * 2 ^ e else m / 2 ^ (- e) in
      Ok (if neg then - a else a)
  end.

Definition float_is_zero (d : N) (x : Z) : bool :=
  match binary64 d x with
  | Some (m, _) => m =? 0
  | None => false
  end.

Fixpoint strip_zeros (fuel : nat) (d x : Z) : Z * Z :=
  match fuel with
  | O => (d, x)
  | S n => if (d mod 10 =? 0) && negb (d =? 0) then strip_zeros n (d / 10) (x + 1) else (d, x)
  end.

Fixpoint zeros (n : nat) : string :=
  match n with O => "" | S n' => "0" ++ zeros n' end.

Definition take_str (n : nat) (s : string) : string := String.substring 0 n s.
Definition drop_str (n : nat) (s : string) : string :=
  String.substring n (String.length s - n) s.

(* repr(f); a literal that overflows the format was read as infinity *)
Definition float_repr (neg : bool) (d : N) (x : Z) : string :=
  let sign := if neg then "-" else "" in
  if (d =? 0)%N then sign ++ "0.0" else
  match binary64 d x with
  | None => sign ++ "inf"
  | Some _ =>
      let '(d', x') := strip_zeros (N.to_nat (N.size d)) (Z.of_N d) x in
      let ds := pretty d' in
      let n := Z.of_nat (String.length ds) in
      let decpt := n + x' in
      if (decpt <=? -4) || (16 <? decpt) then
        let e10 := decpt - 1 in
        let es := pretty (Z.abs e10) in
        sign ++ take_str 1 ds ++ (if n =? 1 then "" else "." ++ drop_str 1 ds)
             ++ "e" ++ (if e10 <? 0 then "-" else "+")
             ++ (if Z.abs e10 <? 10 then "0" else "") ++ es
      else if decpt <=? 0 then sign ++ "0." ++ zeros (Z.to_nat (- decpt)) ++ ds
      else if n <=? decpt then sign ++ ds ++ zeros (Z.to_nat (decpt - n)) ++ ".0"
      else sign ++ take_str (Z.to_nat decpt) ds ++ "." ++ drop_str (Z.to_nat decpt) ds
  end.

(** *** Integers and strings *)

(* The white space that int() skips around a literal (CPython 3): the
   C white space of an ASCII string, 9 to 13 and 32, and the two white
   space characters from 128 to 255, NEL and NBSP, which are turned into
   spaces first.  The separators 28 to 31 are not skipped. *)
Definition is_space (c : ascii) : bool :=
  let n := nat_of_ascii c in
  ((9 <=? n) && (n <=? 13) || (n =? 32) || (n =? 133) || (n =? 160))%nat.

Definition digit_of (c : ascii) : option Z :=
  let n := nat_of_ascii c in
  if ((48 <=? n) && (n <=? 57))%nat then Some (Z.of_nat n - 48) else None.

Fixpoint lstrip (s : string) : string :=
  match s with
  | String c s' => if is_space c then lstrip s' else s
  | EmptyString => s
  end.

Definition strip (s : string) : string :=
  String.rev (lstrip (String.rev (lstrip s))).

(* decimal digits, single underscores allowed between digits *)
Fixpoint digits_val (s : string) (acc : Z) (after_digit : bool) : option Z :=
  match s with
  | EmptyString => if after_digit then Some acc else None
  | String c s' =>
      match digit_of c with
      | Some n => digits_val s' (10 * acc + n) true
      | None =>
          if Ascii.eqb c "_" && after_digit then digits_val s' acc false else None
      end
  end.

(* int(s) for a string s *)
Definition parse_int (s : string) : option Z :=
  match strip s with
  | String "-" s' => Z.opp <$> digits_val s' 0 false
  | String "+" s' => digits_val s' 0 false
  | s' => digits_val s' 0 false
  end.

(* str(j) and bool(j) for a JSON scalar; containers are printed by
   [str_other] below. *)
Definition str_scalar (j : json) : option string :=
  match j with
  | JNull => Some "None"
  | JBool b => Some (if b then "True" else "False")
  | JInt z => Some (pretty z)
  | JFloat neg d x => Some (float_repr neg d x)
  | JStr s => Some s
  | JList _ | JDict _ => None
  end.

Definition json_truth (j : json) : bool :=
  match j with
  | JNull => false
  | JBool b => b
  | JInt z => negb (z =? 0)
  | JFloat _ d x => negb (float_is_zero d x)
  | JStr s => negb (String.eqb s "")
  | JList l => match l with [] => false | _ => true end
  | JDict d => match d with [] => false | _ => true end
  end.

(** *** Hashable values as dictionary keys

    Numbers that compare equal in Python (1, 1.0, True) are the same key:
    [KNum m e] is the dyadic [m * 2^e] with [m] odd, or [KNum 0 0]. *)

Inductive pykey : Type :=
| KNone
| KNum (m e : Z)
| KInf (neg : bool)
| KStr (s : string).

Fixpoint odd_part (fuel : nat) (m e : Z) : Z * Z :=
  match fuel with
  | O => (m, e)
  | S n => if Z.even m && negb (m =? 0) then odd_part n (m / 2) (e + 1) else (m, e)
  end.

Definition knum (m e : Z) : pykey :=
  if m =? 0 then KNum 0 0
  else let '(m', e') := odd_part (Z.to_nat (Z.log2 (Z.abs m)) + 1) m e in KNum m' e'.

(* hash(j): lists and dicts are unhashable *)
Definition to_key (j : json) : outcome pykey :=
  match j with
  | JNull => Ok KNone
  | JBool b => Ok (knum (if b then 1 else 0) 0)
  | JInt z => Ok (knum z 0)
  | JFloat neg d x =>
      match binary64 d x with
      | Some (m, e) => Ok (knum (if neg then - m else m) e)
      | None => Ok (KInf neg)
      end
  | JStr s => Ok (KStr s)
  | JList _ | JDict _ => Raise TypeError
  end.

Definition key_eqb (a b : pykey) : bool :=
  match a, b with
  | KNone, KNone => true
  | KNum m e, KNum m' e' => (m =? m') && (e =? e')
  | KInf n, KInf n' => Bool.eqb n n'
  | KStr s, KStr s' => String.eqb s s'
  | _, _ => false
  end.

Definition kget {V} (d : list (pykey * V)) (k : pykey) : option V := dict_get key_eqb d k.
Definition kset {V} (d : list (pykey * V)) (k : pykey) (v : V) := dict_set key_eqb d k v.

(** ** fields.py *)

Inductive FieldType : Type :=
| Boolean | Date | Link | Location | Number | Object | Symbol | Text
| List | MultipleAssets | MultipleEntries.

Record Field : Type := mkField {
  field_type : FieldType;
  field_id : option string
}.

(** ** resources.py: values, resources and the store *)

Abbreviation loc := nat.

Record datetime : Type := mkDatetime {
  year : Z; month : Z; day : Z;
  hour : Z; minute : Z; second : Z; microsecond : Z;
  utcoffset : option Z
}.

(* A Python value held by a field: raw JSON, a ResourceLink, a reference
   to a resource, a reference to a (mutable) list object, or a datetime. *)
Inductive pyvalue : Type :=
| VJson (j : json)
| VLink (link_type resource_id : json)
| VRes (r : loc)
| VList (l : loc)
| VDate (d : datetime).

Definition VNone : pyvalue := VJson JNull.

Record Entry : Type := mkEntry {
  entry_class : option string;            (* None: the generic Entry class *)
  entry_sys : json;
  _cf_cda : option (list (string * pyvalue));  (* absent until a Field is set *)
  fields : list (string * pyvalue);
  raw_fields : list (string * pyvalue)
}.

Record Array : Type := mkArray {
  array_sys : json;
  limit : json;
  skip : json;
  total : json;
  items : list pyvalue;
  items_mapped : list (string * list (pykey * loc))
}.

Inductive resource : Type :=
| RArray (a : Array)
| RAsset (sys url mimeType : json)
| RContentType (sys : json) (ct_fields : list (pykey * json)) (name display_field : json)
| REntry (e : Entry)
| RSpace (sys name : json).

Record store : Type := mkStore {
  objs : list resource;
  lists : list (list pyvalue)
}.

Definition empty_store : store := mkStore [] [].

(** ** Stateful computations that may raise *)

Definition M (A : Type) : Type := store -> outcome (A * store).

Definition ret {A} (a : A) : M A := fun st => Ok (a, st).
Definition bind {A B} (m : M A) (f : A -> M B) : M B :=
  fun st => match m st with
            | Ok (a, st') => f a st'
            | Raise e => Raise e
            end.
Definition lift {A} (o : outcome A) : M A :=
  fun st => match o with Ok a => Ok (a, st) | Raise e => Raise e end.
Definition throw {A} (e : pyexn) : M A := fun _ => Raise e.

Notation "'let*' x ':=' m 'in' k" := (bind m (fun x => k))
  (at level 10, x pattern, m at level 100, k at level 200).
Notation "'let?' x ':=' m 'in' k" := (obind m (fun x => k))
  (at level 10, x pattern, m at level 100, k at level 200).

Definition new_list (vs : list pyvalue) : M pyvalue :=
  fun st => Ok (VList (length (lists st)), mkStore (objs st) (lists st ++ [vs])).
Definition new_obj (r : resource) : M pyvalue :=
  fun st => Ok (VRes (length (objs st)), mkStore (objs st ++ [r]) (lists st)).
Definition read_list (l : loc) : M (list pyvalue) :=
  fun st => Ok (default [] (lists st !! l), st).
(* v[idx] = x *)
Definition write_list (l : loc) (idx : nat) (x : pyvalue) : M unit :=
  fun st => Ok (tt, mkStore (objs st) (alter (fun vs => <[idx := x]> vs) l (lists st))).
Definition write_obj (r : loc) (o : resource) : M unit :=
  fun st => Ok (tt, mkStore (<[r := o]> (objs st)) (lists st)).

(** ** fields.py: custom Entry classes

    A class body is a list of attributes; [FieldOwner.__new__] runs when a
    class deriving from [Entry] is defined. *)

Inductive attr : Type :=
| AField (f : Field)
| AValue (v : json).

Inductive pyclass : Type :=
| EntryClass                       (* resources.Entry *)
| CustomClass (name : string) (base : pyclass)
    (attrs : list (string * attr)) (__entry_fields__ : list (string * Field))
| OtherClass (name : string).      (* a class that does not derive from Entry *)

(* the loop of FieldOwner.__new__ over attrs.items() *)
Fixpoint collect_fields (is_custom : bool) (attrs : list (string * attr))
    (fields : list (string * Field)) (content_type_id : json)
    : list (string * Field) * json :=
  match attrs with
  | [] => (fields, content_type_id)
  | (n, AField v) :: rest =>
      let v' := match field_id v with
                | None => mkField (field_type v) (Some n)
                | Some _ => v
                end in
      collect_fields is_custom rest (sset fields n v') content_type_id
  | (n, AValue v) :: rest =>
      if is_custom && String.eqb n "__content_type__"
      then collect_fields is_custom rest fields v
      else collect_fields is_custom rest fields content_type_id
  end.

Definition set_field_ids (attrs : list (string * attr)) : list (string * attr) :=
  map (fun '(n, a) =>
         match a with
         | AField v => (n, AField (match field_id v with
                                   | None => mkField (field_type v) (Some n)
                                   | Some _ => v
                                   end))
         | AValue _ => (n, a)
         end) attrs.

Definition FieldOwner_new (name : string) (base : pyclass)
    (attrs : list (string * attr)) : outcome pyclass :=
  let is_custom := negb (String.eqb name "Entry") in
  let '(fields, content_type_id) := collect_fields is_custom attrs [] JNull in
  if is_custom && is_none content_type_id then Raise AttributeError
  else Ok (CustomClass name base (set_field_ids attrs) fields).

(* getattr(c, n): own attributes first, then the base class *)
Fixpoint class_getattr (c : pyclass) (n : string) : option attr :=
  match c with
  | EntryClass | OtherClass _ => None
  | CustomClass _ base attrs _ =>
      match sget attrs n with
      | Some a => Some a
      | None => class_getattr base n
      end
  end.

(* c.__content_type__ ; a Field read on the class itself yields None *)
Definition get_content_type (c : pyclass) : outcome json :=
  match class_getattr c "__content_type__" with
  | Some (AValue v) => Ok v
  | Some (AField _) => Ok JNull
  | None => Raise AttributeError
  end.

Fixpoint issubclass_Entry (c : pyclass) : bool :=
  match c with
  | EntryClass => true
  | CustomClass _ base _ _ => issubclass_Entry base
  | OtherClass _ => false
  end.

Definition is_Entry (c : pyclass) : bool :=
  match c with EntryClass => true | _ => false end.

Definition class_name (c : pyclass) : string :=
  match c with
  | EntryClass => "Entry"
  | CustomClass n _ _ _ | OtherClass n => n
  end.

(** ** client.py: configuration and registration *)

Record Config : Type := mkConfig {
  space_id : json;
  access_token : json;
  custom_entries : list pyclass
}.

Fixpoint validate_custom_entries (cs : list pyclass) : outcome unit :=
  match cs with
  | [] => Ok tt
  | clazz :: rest =>
      if negb (issubclass_Entry clazz) then Raise ConfigError
      else if is_Entry clazz then Raise ConfigError
      else validate_custom_entries rest
  end.

Definition validate_config (config : Config) : outcome unit :=
  if is_none (space_id config) then Raise ConfigError
  else if is_none (access_token config) then Raise ConfigError
  else validate_custom_entries (custom_entries config).

(* ResourceFactory.__init__ : entries_mapping[c.__content_type__] = c *)
Fixpoint ResourceFactory_init (custom_entries : list pyclass)
    (entries_mapping : list (pykey * pyclass)) : outcome (list (pykey * pyclass)) :=
  match custom_entries with
  | [] => Ok entries_mapping
  | c :: rest =>
      let? ct := get_content_type c in
      let? k := to_key ct in
      ResourceFactory_init rest (kset entries_mapping k c)
  end.

(* Client(space_id, access_token, custom_entries): the configuration is
   validated, then the Dispatcher builds the factory. *)
Definition Client_init (space_id access_token : json)
    (custom_entries : list pyclass) : outcome (list (pykey * pyclass)) :=
  let config := mkConfig space_id access_token custom_entries in
  let? _ := validate_config config in
  ResourceFactory_init custom_entries [].

(* ct in self.entries_mapping *)
Definition lookup_class (entries_mapping : list (pykey * pyclass)) (ct : json)
    : outcome (option pyclass) :=
  let? k := to_key ct in Ok (kget entries_mapping k).

(** ** serialization.py: the coercion engine

    [parse_date] stands for dateutil's [parser.parse], [literal_eval] for
    [ast.literal_eval] on a string, and [str_other] for [str] of a value
    that is not a JSON scalar (containers print their elements, a
    ResourceLink prints its address). *)

Definition isinstance_bool (v : pyvalue) : bool :=
  match v with VJson (JBool _) => true | _ => false end.
Definition isinstance_int (v : pyvalue) : bool :=
  match v with VJson (JInt _) | VJson (JBool _) => true | _ => false end.
Definition isinstance_str (v : pyvalue) : bool :=
  match v with VJson (JStr _) => true | _ => false end.
Definition isinstance_dict (v : pyvalue) : bool :=
  match v with VJson (JDict _) => true | _ => false end.
Definition isinstance_list (v : pyvalue) : bool :=
  match v with VJson (JList _) | VList _ => true | _ => false end.
Definition isinstance_ResourceLink (v : pyvalue) : bool :=
  match v with VLink _ _ => true | _ => false end.

(* bool(v) *)
Definition py_bool (v : pyvalue) : M bool :=
  match v with
  | VJson j => ret (json_truth j)
  | VList l => let* vs := read_list l in ret (match vs with [] => false | _ => true end)
  | VLink _ _ | VRes _ | VDate _ => ret true
  end.

(* int(v) *)
Definition py_int (v : pyvalue) : outcome Z :=
  match v with
  | VJson (JInt z) => Ok z
  | VJson (JBool b) => Ok (if b then 1 else 0)
  | VJson (JFloat neg d x) => float_trunc neg d x
  | VJson (JStr s) =>
      match parse_int s with Some z => Ok z | None => Raise ValueError end
  | _ => Raise TypeError
  end.

Section ResourceFactory.
Variable entries_mapping : list (pykey * pyclass).
Variable parse_date : string -> outcome datetime.
Variable literal_eval : string -> outcome json.
Variable str_other : store -> pyvalue -> string.

(* str(v) *)
Definition py_str (v : pyvalue) : M string :=
  fun st =>
    Ok (match v with
        | VJson j => default (str_other st v) (str_scalar j)
        | _ => str_other st v
        end, st).

Definition convert_value (value : pyvalue) (field : Field) : M pyvalue :=
  match field_type field with
  | Boolean =>
      if isinstance_bool value then ret value
      else let* b := py_bool value in ret (VJson (JBool b))
  | Date =>
      let* s := (match value with
                 | VJson (JStr s) => ret s
                 | _ => py_str value
                 end) in
      let* d := lift (parse_date s) in ret (VDate d)
  | Number =>
      if isinstance_int value then ret value
      else let* z := lift (py_int value) in ret (VJson (JInt z))
  | Object =>
      if isinstance_dict value then ret value
      else match value with
           | VJson (JStr s) => let* j := lift (literal_eval s) in ret (VJson j)
           | _ => throw ValueError
           end
  | Text | Symbol =>
      if isinstance_str value then ret value
      else let* s := py_str value in ret (VJson (JStr s))
  | List | MultipleAssets | MultipleEntries =>
      if isinstance_list value then ret value
      else new_list [value]
  | Link | Location => ret value
  end.

(** *** The graph builder *)

Definition _extract_link (obj : pyvalue) : outcome (option pyvalue) :=
  match obj with
  | VJson (JDict d) =>
      match sget d "sys" with
      | Some (JDict sys) =>
          if eq_str (default JNull (sget sys "type")) "Link" then
            (* ResourceLink(sys) *)
            let? resource_id := subscript (JDict sys) "id" in
            let? link_type := subscript (JDict sys) "linkType" in
            Ok (Some (VLink link_type resource_id))
          else Ok None
      | _ => Ok None
      end
  | _ => Ok None
  end.

(* The dict object [json['fields']], built key by key as the JSON decoder
   does: every sequence-valued field is a list object of the store
   holding its elements. *)
Fixpoint dict_object (d : list (string * json)) (acc : list (string * pyvalue))
    : M (list (string * pyvalue)) :=
  match d with
  | [] => ret acc
  | (k, j) :: d' =>
      let* v := (match j with
                 | JList l => new_list (map VJson l)
                 | _ => ret (VJson j)
                 end) in
      dict_object d' (sset acc k v)
  end.

(* copy.deepcopy(fields): the same mapping over fresh list objects *)
Definition deepcopy (d : list (string * json)) : M (list (string * pyvalue)) :=
  dict_object d [].

(* for idx, ele in enumerate(v): ... v[idx] = link *)
Fixpoint replace_links_in_list (l : loc) (idx : nat) (eles : list pyvalue) : M unit :=
  match eles with
  | [] => ret tt
  | ele :: rest =>
      let* link := lift (_extract_link ele) in
      let* _ := (match link with
                 | Some lk => write_list l idx lk
                 | None => ret tt
                 end) in
      replace_links_in_list l (S idx) rest
  end.

(* for k, v in fields.items(): ... fields[k] = link *)
Fixpoint replace_links (its : list (string * pyvalue))
    (fields : list (string * pyvalue)) : M (list (string * pyvalue)) :=
  match its with
  | [] => ret fields
  | (k, v) :: rest =>
      let* link := lift (_extract_link v) in
      match link with
      | Some lk => replace_links rest (sset fields k lk)
      | None =>
          match v with
          | VList l =>
              let* eles := read_list l in
              let* _ := replace_links_in_list l 0 eles in
              replace_links rest fields
          | _ => replace_links rest fields
          end
      end
  end.

(* setattr(result, k, value) through Field.__set__ *)
Definition Field_set (field : Field) (cf_cda : option (list (string * pyvalue)))
    (value : pyvalue) : option (list (string * pyvalue)) :=
  match field_id field with
  | Some fid => Some (sset (default [] cf_cda) fid value)
  | None => cf_cda
  end.

(* for k, v in clazz.__entry_fields__.items(): ... *)
Fixpoint set_entry_fields (efs : list (string * Field))
    (fields : list (string * pyvalue)) (cf_cda : option (list (string * pyvalue)))
    : M (option (list (string * pyvalue))) :=
  match efs with
  | [] => ret cf_cda
  | (k, v) :: rest =>
      let field_value :=
        match field_id v with
        | Some fid => default VNone (sget fields fid)
        | None => VNone
        end in
      match field_value with
      | VJson JNull => set_entry_fields rest fields cf_cda
      | _ =>
          let* value := convert_value field_value v in
          set_entry_fields rest fields (Field_set v cf_cda value)
      end
  end.

Definition create_entry (json : json) : M pyvalue :=
  let* sys := lift (subscript json "sys") in
  let* ct := lift (let? c := subscript sys "contentType" in
                   let? s := subscript c "sys" in
                   subscript s "id") in
  let* fields_json := lift (subscript json "fields") in
  match fields_json with
  | JDict d =>
      let* fields := dict_object d [] in
      let* raw_fields := deepcopy d in
      let* fields := replace_links fields fields in
      let* clazz := lift (lookup_class entries_mapping ct) in
      match clazz with
      | Some (CustomClass name _ _ efs) =>
          let* cf_cda := set_entry_fields efs fields None in
          new_obj (REntry (mkEntry (Some name) sys cf_cda fields raw_fields))
      | Some EntryClass | None =>
          new_obj (REntry (mkEntry None sys None fields raw_fields))
      | Some (OtherClass _) => throw AttributeError
      end
  | _ => throw AttributeError
  end.

(* Resource.__init__ : self.sys = sys or {} *)
Definition Resource_init (sys : json) : json :=
  if json_truth sys then sys else JDict [].

Definition create_asset (json : json) : M pyvalue :=
  let* sys := lift (subscript json "sys") in
  let* file_dict := lift (let? f := subscript json "fields" in subscript f "file") in
  let* url := lift (subscript file_dict "url") in
  let* mimeType := lift (subscript file_dict "contentType") in
  new_obj (RAsset (Resource_init sys) url mimeType).

Definition del_key (d : list (string * json)) (k : string) : list (string * json) :=
  filter (fun '(k', _) => negb (String.eqb k' k)) d.

(* iteration over a JSON value: a dict yields its keys, a string its
   characters *)
Definition iterate (j : json) : outcome (list json) :=
  match j with
  | JList l => Ok l
  | JDict d => Ok (map (fun '(k, _) => JStr k) d)
  | JStr s => Ok (map (fun c => JStr (String c EmptyString)) (list_ascii_of_string s))
  | _ => Raise TypeError
  end.

Fixpoint content_type_fields (fs : list json) (acc : list (pykey * json))
    : outcome (list (pykey * json)) :=
  match fs with
  | [] => Ok acc
  | field :: rest =>
      let? field_id := subscript field "id" in
      match field with
      | JDict d =>
          let? k := to_key field_id in
          content_type_fields rest (kset acc k (JDict (del_key d "id")))
      | _ => Raise TypeError
      end
  end.

Definition create_content_type (json : json) : M pyvalue :=
  let* sys := lift (subscript json "sys") in
  let* fs := lift (let? f := subscript json "fields" in iterate f) in
  let* fields := lift (content_type_fields fs []) in
  let* name := lift (subscript json "name") in
  let* display_field := lift (json_get json "displayField") in
  new_obj (RContentType (Resource_init sys) fields name display_field).

Definition create_space (json : json) : M pyvalue :=
  let* sys := lift (subscript json "sys") in
  let* name := lift (subscript json "name") in
  new_obj (RSpace (Resource_init sys) name).

(* processed.sys['id'] as a dictionary key *)
Definition sys_id (processed : pyvalue) : M pykey :=
  fun st =>
    match processed with
    | VRes r =>
        match objs st !! r with
        | Some o =>
            let sys := match o with
                       | RArray a => array_sys a
                       | RAsset sys _ _ | RContentType sys _ _ _ | RSpace sys _ => sys
                       | REntry e => entry_sys e
                       end in
            lift (let? i := subscript sys "id" in to_key i) st
        | None => Raise AttributeError
        end
    | _ => Raise AttributeError
    end.

(* 'Asset' / 'Entry' / None, by isinstance *)
Definition kind_of (processed : pyvalue) : M (option string) :=
  fun st =>
    Ok (match processed with
        | VRes r =>
            match objs st !! r with
            | Some (RAsset _ _ _) => Some "Asset"
            | Some (REntry _) => Some "Entry"
            | _ => None
            end
        | _ => None
        end, st).

(* array.items_mapped[key][id] = processed *)
Definition map_item (array : Array) (key : string) (id : pykey) (processed : pyvalue)
    : outcome Array :=
  match sget (items_mapped array) key, processed with
  | Some bucket, VRes r =>
      Ok (mkArray (array_sys array) (limit array) (skip array) (total array)
            (items array) (sset (items_mapped array) key (kset bucket id r)))
  | None, _ => Raise KeyError
  | _, _ => Raise AttributeError
  end.

Definition append_item (array : Array) (processed : pyvalue) : Array :=
  mkArray (array_sys array) (limit array) (skip array) (total array)
    (items array ++ [processed]) (items_mapped array).

Section Array.
Variable from_json : json -> M pyvalue.

(* for item in json['items']: ... *)
Fixpoint process_items (its : list json) (array : Array) : M Array :=
  match its with
  | [] => ret array
  | item :: rest =>
      let* processed := from_json item in
      let* key := kind_of processed in
      let* array := (match key with
                     | Some key =>
                         let* id := sys_id processed in
                         lift (map_item array key id processed)
                     | None => ret array
                     end) in
      process_items rest (append_item array processed)
  end.

Definition process_array_items (array : Array) (json : json) : M Array :=
  let* its := lift (let? i := subscript json "items" in iterate i) in
  process_items its array.

(* for resource in includes[key]: ... *)
Fixpoint process_includes (key : string) (rs : list json) (array : Array) : M Array :=
  match rs with
  | [] => ret array
  | resource :: rest =>
      let* processed := from_json resource in
      let* id := sys_id processed in
      let* array := lift (map_item array key id processed) in
      process_includes key rest array
  end.

(* key in includes *)
Definition contains (includes : json) (key : string) : outcome bool :=
  match includes with
  | JDict d => Ok (match sget d key with Some _ => true | None => false end)
  | JList l => Ok (existsb (fun j => eq_str j key) l)
  | JStr s => Ok (match String.index 0 key s with Some _ => true | None => false end)
  | _ => Raise TypeError
  end.

(* for key in array.items_mapped.keys(): ... *)
Fixpoint process_include_keys (keys : list string) (includes : json) (array : Array)
    : M Array :=
  match keys with
  | [] => ret array
  | key :: rest =>
      let* present := lift (contains includes key) in
      let* array := (if present : bool then
                       let* rs := lift (let? i := subscript includes key in iterate i) in
                       process_includes key rs array
                     else ret array) in
      process_include_keys rest includes array
  end.

Definition process_array_includes (array : Array) (json : json) : M Array :=
  let* inc := lift (json_get json "includes") in
  let includes := if json_truth inc then inc else JDict [] in
  process_include_keys (dict_keys (items_mapped array)) includes array.

(* The Array enters the store once it is filled: a location is the name
   of an object, and the order of the locations carries no meaning. *)
Definition create_array (json : json) : M pyvalue :=
  let* sys := lift (subscript json "sys") in
  let* total := lift (subscript json "total") in
  let* skip := lift (subscript json "skip") in
  let* limit := lift (subscript json "limit") in
  let result := mkArray (Resource_init sys) limit skip total []
                  [("Asset", []); ("Entry", [])] in
  let* result := process_array_items result json in
  let* result := process_array_includes result json in
  new_obj (RArray result).
End Array.

(* [depth] bounds the nesting of arrays inside arrays. *)
Fixpoint from_json (depth : nat) (json : json) : M pyvalue :=
  match depth with
  | O => throw RecursionError
  | S depth' =>
      let* res_type := lift (let? sys := subscript json "sys" in subscript sys "type") in
      if eq_str res_type "Array" then create_array (from_json depth') json
      else if eq_str res_type "Entry" then create_entry json
      else if eq_str res_type "Asset" then create_asset json
      else if eq_str res_type "ContentType" then create_content_type json
      else if eq_str res_type "Space" then create_space json
      else ret VNone
  end.
End ResourceFactory.

(** ** resources.py: local link resolution *)

(* self.items_mapped[link.link_type].get(link.resource_id) *)
Definition _resolve_resource_link (self : Array) (link_type resource_id : json)
    : outcome (option loc) :=
  let? kind := to_key link_type in
  match kind with
  | KStr s =>
      match sget (items_mapped self) s with
      | Some bucket => let? id := to_key resource_id in Ok (kget bucket id)
      | None => Raise KeyError
      end
  | _ => Raise KeyError
  end.

(* for idx, ele in enumerate(v): stop at the first element that is not a
   ResourceLink *)
Fixpoint resolve_list (self : Array) (l : loc) (idx : nat) (eles : list pyvalue) : M unit :=
  match eles with
  | VLink link_type resource_id :: rest =>
      let* resolved := lift (_resolve_resource_link self link_type resource_id) in
      let* _ := (match resolved with
                 | Some r => write_list l idx (VRes r)
                 | None => ret tt
                 end) in
      resolve_list self l (S idx) rest
  | _ => ret tt
  end.

(* for k, v in dct.items(): ... dct[k] = resolved *)
Fixpoint resolve_dict (self : Array) (its : list (string * pyvalue))
    (dct : list (string * pyvalue)) : M (list (string * pyvalue)) :=
  match its with
  | [] => ret dct
  | (k, v) :: rest =>
      match v with
      | VLink link_type resource_id =>
          let* resolved := lift (_resolve_resource_link self link_type resource_id) in
          resolve_dict self rest (match resolved with
                                  | Some r => sset dct k (VRes r)
                                  | None => dct
                                  end)
      | VList l =>
          let* eles := read_list l in
          let* _ := resolve_list self l 0 eles in
          resolve_dict self rest dct
      | VJson _ | VRes _ | VDate _ => resolve_dict self rest dct
      end
  end.

(* for dct in [getattr(resource, '_cf_cda', {}), resource.fields]: ... *)
Definition resolve_resource (self : Array) (r : loc) : M unit :=
  fun st =>
    match objs st !! r with
    | Some (REntry e) =>
        (let* cf_cda := resolve_dict self (default [] (_cf_cda e)) (default [] (_cf_cda e)) in
         let* fields := resolve_dict self (fields e) (fields e) in
         write_obj r (REntry (mkEntry (entry_class e) (entry_sys e)
                                (match _cf_cda e with Some _ => Some cf_cda | None => None end)
                                fields (raw_fields e)))) st
    | Some (RAsset _ _ _) | Some (RContentType _ _ _ _) => Ok (tt, st)
    | Some (RSpace _ _) | Some (RArray _) | None => Raise AttributeError
    end.

Fixpoint resolve_resources (self : Array) (rs : list loc) : M unit :=
  match rs with
  | [] => ret tt
  | r :: rest => let* _ := resolve_resource self r in resolve_resources self rest
  end.

(* array.resolve_links() for the Array object at [a] *)
Definition resolve_links (a : loc) : M unit :=
  fun st =>
    match objs st !! a with
    | Some (RArray self) =>
        match sget (items_mapped self) "Entry" with
        | Some bucket => resolve_resources self (dict_values bucket) st
        | None => Raise KeyError
        end
    | _ => Raise AttributeError
    end.

(** ** The third-party parsers

    Modelled from the spec: [dateutil]'s [parser.parse] is not part of the
    repository.  The spec describes a permissive date-time parser that
    accepts calendar dates and times with fractional seconds and a UTC
    "Z" suffix, and reads eight digits as YYYYMMDD.  [dateutil_parse]
    covers the ISO forms ([YYYY-MM-DD], optionally followed by [T] or a
    space and [HH:MM:SS[.ffffff]] and a zone) and the compact form. *)

Fixpoint read_digits (n : nat) (s : string) (acc : Z) : option (Z * string) :=
  match n with
  | O => Some (acc, s)
  | S n' =>
      match s with
      | String c s' =>
          match digit_of c with
          | Some d => read_digits n' s' (10 * acc + d)
          | None => None
          end
      | EmptyString => None
      end
  end.

Definition expect (c : ascii) (s : string) : option string :=
  match s with
  | String c' s' => if Ascii.eqb c c' then Some s' else None
  | EmptyString => None
  end.

(* up to [n] fractional digits, scaled to [n] places *)
Fixpoint read_fraction (n : nat) (s : string) (acc : Z) : Z * string :=
  match n with
  | O => (acc, s)
  | S n' =>
      match s with
      | String c s' =>
          match digit_of c with
          | Some d => read_fraction n' s' (10 * acc + d)
          | None => (acc * 10 ^ Z.of_nat n, s)
          end
      | EmptyString => (acc * 10 ^ Z.of_nat n, s)
      end
  end.

Definition is_leap (y : Z) : bool :=
  ((y mod 4 =? 0) && negb (y mod 100 =? 0)) || (y mod 400 =? 0).

Definition days_in_month (y m : Z) : Z :=
  if m =? 2 then (if is_leap y then 29 else 28)
  else if (m =? 4) || (m =? 6) || (m =? 9) || (m =? 11) then 30 else 31.

Definition valid_datetime (d : datetime) : bool :=
  (1 <=? year d) && (year d <=? 9999) && (1 <=? month d) && (month d <=? 12)
  && (1 <=? day d) && (day d <=? days_in_month (year d) (month d))
  && (0 <=? hour d) && (hour d <? 24) && (0 <=? minute d) && (minute d <? 60)
  && (0 <=? second d) && (second d <? 60)
  && (0 <=? microsecond d) && (microsecond d <? 1000000).

Definition parse_zone (s : string) : option (option Z) :=
  match s with
  | EmptyString => Some None
  | String "Z" EmptyString => Some (Some 0)
  | String sg s' =>
      if Ascii.eqb sg "+" || Ascii.eqb sg "-" then
        '(h, s1) ← read_digits 2 s' 0;
        s2 ← expect ":" s1;
        '(m, s3) ← read_digits 2 s2 0;
        match s3 with
        | EmptyString => Some (Some ((if Ascii.eqb sg "-" then -1 else 1) * (60 * h + m)))
        | _ => None
        end
      else None
  end.

Definition parse_time (s : string) : option (Z * Z * Z * Z * option Z) :=
  '(h, s1) ← read_digits 2 s 0;
  s2 ← expect ":" s1;
  '(mi, s3) ← read_digits 2 s2 0;
  s4 ← expect ":" s3;
  '(sec, s5) ← read_digits 2 s4 0;
  let '(us, s6) := match s5 with
                   | String "." s' => read_fraction 6 s' 0
                   | _ => (0, s5)
                   end in
  z ← parse_zone s6;
  Some (h, mi, sec, us, z).

Definition parse_iso (s : string) : option datetime :=
  '(y, s1) ← read_digits 4 s 0;
  '(m, d, s2) ← match s1 with
                | String "-" s' =>
                    '(m, s2) ← read_digits 2 s' 0;
                    s3 ← expect "-" s2;
                    '(d, s4) ← read_digits 2 s3 0;
                    Some (m, d, s4)
                | _ =>
                    '(m, s2) ← read_digits 2 s1 0;
                    '(d, s3) ← read_digits 2 s2 0;
                    Some (m, d, s3)
                end;
  match s2 with
  | EmptyString => Some (mkDatetime y m d 0 0 0 0 None)
  | String c s' =>
      if Ascii.eqb c "T" || Ascii.eqb c " " then
        '(h, mi, sec, us, z) ← parse_time s';
        Some (mkDatetime y m d h mi sec us z)
      else None
  end.

Definition dateutil_parse (s : string) : outcome datetime :=
  match parse_iso (strip s) with
  | Some d => if valid_datetime d then Ok d else Raise ValueError
  | None => Raise ValueError
  end.

(** Modelled: [str] of a datetime is its ISO form with a space separator
    ([datetime.__str__]); the text printed for containers and objects
    depends on object addresses and is left as a marker. *)

Definition digit_char (n : Z) : ascii := ascii_of_nat (48 + Z.to_nat (n mod 10)).

Fixpoint pad (width : nat) (z : Z) (acc : string) : string :=
  match width with
  | O => acc
  | S w => pad w (z / 10) (String (digit_char z) acc)
  end.

Definition datetime_str (d : datetime) : string :=
  pad 4 (year d) "" ++ "-" ++ pad 2 (month d) "" ++ "-" ++ pad 2 (day d) ""
  ++ " " ++ pad 2 (hour d) "" ++ ":" ++ pad 2 (minute d) "" ++ ":" ++ pad 2 (second d) ""
  ++ (if microsecond d =? 0 then "" else "." ++ pad 6 (microsecond d) "")
  ++ match utcoffset d with
     | None => ""
     | Some off =>
         (if off <? 0 then "-" else "+")
         ++ pad 2 (Z.abs off / 60) "" ++ ":" ++ pad 2 (Z.abs off mod 60) ""
     end.

Definition str_model (st : store) (v : pyvalue) : string :=
  match v with
  | VDate d => datetime_str d
  | _ => "<object>"
  end.

(* No literal reaches [ast.literal_eval] in the examples below. *)
Definition literal_eval_unused (s : string) : outcome json := Raise SyntaxError.

(** ** Specification-level notions *)

(* the string that [convert_value] hands to the date parser *)
Definition string_form (str_other : store -> pyvalue -> string) (st : store)
    (v : pyvalue) : string :=
  match v with
  | VJson j => default (str_other st v) (str_scalar j)
  | _ => str_other st v
  end.

(* "v is already in T's target representation" *)
Definition target_representation (T : FieldType) (v : pyvalue) : Prop :=
  match T with
  | Boolean => isinstance_bool v = true
  | Date => exists d, v = VDate d
  | Number => isinstance_int v = true
  | Object => isinstance_dict v = true
  | Text | Symbol => isinstance_str v = true
  | List | MultipleAssets | MultipleEntries => isinstance_list v = true
  | Link => isinstance_ResourceLink v = true
  | Location => True
  end.

(* a custom class whose content-type identifier is the empty string *)
Definition blank_class : pyclass :=
  CustomClass "Blank" EntryClass [("__content_type__", AValue (JStr ""))] [].

(** *** What a resolution pass does, as pure functions *)

(* the target of a link, when the lookup finds one *)
Definition link_target (self : Array) (link_type resource_id : json) : option loc :=
  match _resolve_resource_link self link_type resource_id with
  | Ok (Some r) => Some r
  | _ => None
  end.

Definition resolved_value (self : Array) (v : pyvalue) : pyvalue :=
  match v with
  | VLink link_type resource_id =>
      match link_target self link_type resource_id with
      | Some r => VRes r
      | None => v
      end
  | _ => v
  end.

(* the leading run of links is resolved; everything from the first
   element that is not a link on is kept *)
Fixpoint resolved_list (self : Array) (vs : list pyvalue) : list pyvalue :=
  match vs with
  | VLink link_type resource_id :: rest =>
      resolved_value self (VLink link_type resource_id) :: resolved_list self rest
  | _ => vs
  end.

Definition resolved_dict (self : Array) (d : list (string * pyvalue))
    : list (string * pyvalue) :=
  map (fun '(k, v) => (k, resolved_value self v)) d.

Definition resolved_resource (self : Array) (o : resource) : resource :=
  match o with
  | REntry e =>
      REntry (mkEntry (entry_class e) (entry_sys e)
                (option_map (resolved_dict self) (_cf_cda e))
                (resolved_dict self (fields e)) (raw_fields e))
  | _ => o
  end.

(* the list objects held directly by the slots of a dict *)
Definition list_refs (d : list (string * pyvalue)) : list loc :=
  omap (fun '(_, v) => match v with VList l => Some l | _ => None end) d.

Definition field_refs (o : resource) : list loc :=
  match o with
  | REntry e => list_refs (default [] (_cf_cda e)) ++ list_refs (fields e)
  | _ => []
  end.

Definition refs_of (os : list resource) (rs : list loc) : list loc :=
  flat_map (fun r => match os !! r with Some o => field_refs o | None => [] end) rs.

Definition alter_all {A} (f : A -> A) (ixs : list nat) (l : list A) : list A :=
  fold_left (fun l i => alter f i l) ixs l.

(* the number of leading links of a sequence *)
Fixpoint leading_links (vs : list pyvalue) : nat :=
  match vs with
  | VLink _ _ :: rest => S (leading_links rest)
  | _ => O
  end.

(* every dict of every entry has distinct keys, as Python dicts do *)
Definition dicts_wf (os : list resource) : Prop :=
  forall r e, os !! r = Some (REntry e) ->
    NoDup (dict_keys (fields e)) /\ NoDup (dict_keys (default [] (_cf_cda e))).

(** *** Decoding a whole document *)

Fixpoint json_depth (j : json) : nat :=
  match j with
  | JList l => S (fold_right (fun x n => Nat.max (json_depth x) n) O l)
  | JDict d => S (fold_right (fun kv n => Nat.max (json_depth (snd kv)) n) O d)
  | _ => O
  end.

(* from_json with a recursion budget that the document cannot exhaust *)
Definition decode (entries_mapping : list (pykey * pyclass))
    (parse_date : string -> outcome datetime)
    (literal_eval : string -> outcome json)
    (str_other : store -> pyvalue -> string) (json : json) : M pyvalue :=
  from_json entries_mapping parse_date literal_eval str_other (S (json_depth json)) json.

(* RequestArray.all() with resolve_links set: decode the response, then
   resolve its links *)
Definition RequestArray_all (entries_mapping : list (pykey * pyclass))
    (parse_date : string -> outcome datetime)
    (literal_eval : string -> outcome json)
    (str_other : store -> pyvalue -> string) (json : json)
    : outcome (loc * store) :=
  match decode entries_mapping parse_date literal_eval str_other json empty_store with
  | Ok (VRes a, st) =>
      match resolve_links a st with
      | Ok (_, st') => Ok (a, st')
      | Raise e => Raise e
      end
  | Ok (_, _) => Raise AttributeError
  | Raise e => Raise e
  end.

(* reading the state of an entry *)
Definition entry_at (st : store) (r : loc) : option Entry :=
  match objs st !! r with
  | Some (REntry e) => Some e
  | _ => None
  end.

Definition array_at (st : store) (a : loc) : option Array :=
  match objs st !! a with
  | Some (RArray arr) => Some arr
  | _ => None
  end.

Definition field_of (st : store) (r : loc) (k : string) : option pyvalue :=
  e ← entry_at st r; sget (fields e) k.


Definition bucket_of (arr : Array) (kind : string) : list (pykey * loc) :=
  default [] (sget (items_mapped arr) kind).

(** *** Sample documents *)

Definition link_json (kind id : string) : json :=
  JDict [("sys", JDict [("type", JStr "Link"); ("linkType", JStr kind); ("id", JStr id)])].

Definition entry_json (id content_type : string) (fs : list (string * json)) : json :=
  JDict [("sys", JDict [("id", JStr id); ("type", JStr "Entry");
                        ("contentType", JDict [("sys", JDict [("id", JStr content_type)])])]);
         ("fields", JDict fs)].

Definition asset_json (id url : string) : json :=
  JDict [("sys", JDict [("id", JStr id); ("type", JStr "Asset")]);
         ("fields", JDict [("file", JDict [("url", JStr url);
                                           ("contentType", JStr "image/png")])])].

Definition array_json (its : list json) (includes : list (string * json)) : json :=
  JDict [("sys", JDict [("type", JStr "Array")]);
         ("total", JInt (Z.of_nat (length its))); ("skip", JInt 0); ("limit", JInt 100);
         ("items", JList its); ("includes", JDict includes)].

(* the Cat model of the test suite *)
Definition cat_attrs : list (string * attr) :=
  [("__content_type__", AValue (JStr "cat"));
   ("name", AField (mkField Text None));
   ("color", AField (mkField Text None));
   ("lives", AField (mkField Number None));
   ("likes", AField (mkField List None));
   ("birthday", AField (mkField Date None));
   ("best_friend", AField (mkField Link (Some "bestFriend")))].

Definition Cat : pyclass :=
  match FieldOwner_new "Cat" EntryClass cat_attrs with
  | Ok c => c
  | Raise _ => EntryClass
  end.

Definition cat_registry : list (pykey * pyclass) :=
  match Client_init (JStr "cfexampleapi") (JStr "b4c0n73n7fu1") [Cat] with
  | Ok m => m
  | Raise _ => []
  end.

(* two cats that are each other's best friend *)
Definition cats_doc : json :=
  array_json
    [entry_json "happycat" "cat"
       [("name", JStr "Happy Cat"); ("lives", JStr "1");
        ("bestFriend", link_json "Entry" "nyancat")];
     entry_json "nyancat" "cat"
       [("name", JStr "Nyan Cat"); ("lives", JInt 1337);
        ("bestFriend", link_json "Entry" "happycat")]]
    [].

(* a sequence whose links are separated by a plain value *)
Definition mixed_doc : json :=
  array_json
    [entry_json "a" "dog"
       [("friends", JList [link_json "Entry" "b"; JStr "x"; link_json "Entry" "b"]);
        ("others", JList [JStr "x"; link_json "Entry" "b"])];
     entry_json "b" "dog" []]
    [].

(* a link whose kind has no bucket in items_mapped *)
Definition space_link_doc : json :=
  array_json [entry_json "a" "dog" [("home", link_json "Space" "s1")]] [].

(* two entries and one included asset *)
Definition mapped_doc : json :=
  array_json
    [entry_json "e1" "dog" [("image", link_json "Asset" "pic")];
     entry_json "e2" "dog" []]
    [("Asset", JList [asset_json "pic" "//images/pic.png"])].

(** *** Invariants of the stores that decoding builds *)

Definition raw_refs (o : resource) : list loc :=
  match o with
  | REntry e => list_refs (raw_fields e)
  | _ => []
  end.

(* reading a value back as JSON: defined when it holds no placeholder and
   no reference to a resource *)
Definition view_element (v : pyvalue) : option json :=
  match v with VJson j => Some j | _ => None end.

Definition view_value (st : store) (v : pyvalue) : option json :=
  match v with
  | VJson j => Some j
  | VList l => vs ← lists st !! l; js ← mapM view_element vs; Some (JList js)
  | _ => None
  end.

Definition view_dict (st : store) (d : list (string * pyvalue))
    : option (list (string * json)) :=
  mapM (fun '(k, v) => j ← view_value st v; Some (k, j)) d.

(* the later store has every object and list of the earlier one, unchanged *)
Definition extends (st st' : store) : Prop :=
  objs st `prefix_of` objs st' /\ lists st `prefix_of` lists st'.

Record store_ok (st : store) : Prop := mkStoreOk {
  ok_dicts : dicts_wf (objs st);
  ok_bounded : forall r o l, objs st !! r = Some o ->
                 l ∈ (field_refs o ++ raw_refs o)%list -> (l < length (lists st))%nat;
  ok_separate : forall r o r' o' l, objs st !! r = Some o -> objs st !! r' = Some o' ->
                 l ∈ raw_refs o -> l ∉ field_refs o';
  ok_raw : forall r e, objs st !! r = Some (REntry e) ->
             is_Some (view_dict st (raw_fields e));
  ok_apart : forall r o r' o' l, objs st !! r = Some o -> objs st !! r' = Some o' ->
               l ∈ field_refs o -> l ∈ field_refs o' -> r = r'
}.

(** *** Array assembly, as the specification words it *)

(* decoding the elements of a JSON sequence, first to last *)
Fixpoint decode_each (from_json : json -> M pyvalue) (js : list json)
    : M (list pyvalue) :=
  match js with
  | [] => ret []
  | j :: rest =>
      let* v := from_json j in
      let* vs := decode_each from_json rest in
      ret (v :: vs)
  end.

Definition resource_sys (o : resource) : json :=
  match o with
  | RArray a => array_sys a
  | RAsset sys _ _ | RContentType sys _ _ _ | RSpace sys _ => sys
  | REntry e => entry_sys e
  end.

(* the kind under which a decoded resource is mapped, and its remote id *)
Definition kind_at (st : store) (v : pyvalue) : option string :=
  match v with
  | VRes r =>
      match objs st !! r with
      | Some (RAsset _ _ _) => Some "Asset"
      | Some (REntry _) => Some "Entry"
      | _ => None
      end
  | _ => None
  end.

Definition id_at (st : store) (v : pyvalue) : option pykey :=
  match v with
  | VRes r =>
      match objs st !! r with
      | Some o =>
          match (let? i := subscript (resource_sys o) "id" in to_key i) with
          | Ok k => Some k
          | Raise _ => None
          end
      | None => None
      end
  | _ => None
  end.

Definition of_kind (st : store) (kind : string) (vs : list pyvalue) : list pyvalue :=
  List.filter (fun v => match kind_at st v with
                        | Some k => String.eqb k kind
                        | None => false
                        end) vs.

(* inserting resources into a bucket by remote id, first to last: a later
   one replaces an earlier one with the same id *)
Definition insert_one (st : store) (bucket : list (pykey * loc)) (v : pyvalue)
    : list (pykey * loc) :=
  match v, id_at st v with
  | VRes r, Some k => kset bucket k r
  | _, _ => bucket
  end.

Definition insert_all (st : store) (vs : list pyvalue) (bucket : list (pykey * loc))
    : list (pykey * loc) :=
  fold_left (insert_one st) vs bucket.

(* the elements of includes.<key>, none when the response has no such
   section *)
Definition included (response : json) (key : string) : list json :=
  match json_get response "includes" with
  | Ok (JDict d) =>
      match sget d key with
      | Some j => match iterate j with Ok l => l | Raise _ => [] end
      | None => []
      end
  | _ => []
  end.

Definition buckets (assets entries : list (pykey * loc))
    : list (string * list (pykey * loc)) :=
  [("Asset", assets); ("Entry", entries)].

(** *** Stores while decoding and resolving *)

(* a store grows: everything it held is kept, and so are the invariants *)
Definition grows (st st' : store) : Prop :=
  extends st st' /\ (store_ok st -> store_ok st').

(* the value is None or an object of the store *)
Definition valid (st : store) (v : pyvalue) : Prop :=
  v = VNone \/ exists r, v = VRes r /\ (r < length (objs st))%nat.

(* an entry after a resolution pass that visits it *)
Definition resolved_entry (self : Array) (e : Entry) : Entry :=
  mkEntry (entry_class e) (entry_sys e)
    (option_map (resolved_dict self) (_cf_cda e))
    (resolved_dict self (fields e)) (raw_fields e).

(* the entries a resolution pass visits *)
Definition visited (self : Array) : list loc := dict_values (bucket_of self "Entry").

(* the dict that the JSON decoder builds from the members of an object: a
   repeated name keeps its first position and its last value *)
Definition dict_of_members (d : list (string * json)) : list (string * json) :=
  fold_left (fun acc '(k, j) => sset acc k j) d [].

(* a value just loaded from JSON: raw data, or a fresh list of raw data *)
Definition loaded (n : nat) (st : store) (v : pyvalue) : Prop :=
  match v with
  | VJson _ => True
  | VList l => (n <= l)%nat /\ exists js, lists st !! l = Some (map VJson js)
  | _ => False
  end.

(* what an entry just built looks like, relative to the store before *)
Definition fresh_entry (st st' : store) (e : Entry) : Prop :=
  NoDup (dict_keys (fields e))
  /\ NoDup (dict_keys (default [] (_cf_cda e)))
  /\ (forall l, l ∈ field_refs (REntry e) ->
        (length (lists st) <= l < length (lists st'))%nat)
  /\ (forall l, l ∈ raw_refs (REntry e) ->
        (length (lists st) <= l < length (lists st'))%nat /\ l ∉ field_refs (REntry e))
  /\ is_Some (view_dict st' (raw_fields e)).

(* what one decoding step does to the store *)
Definition decoded (st : store) (v : pyvalue) (st' : store) : Prop :=
  grows st st' /\ valid st' v.

(** *** When a resolution pass goes through *)

(* the lookup of a link's target does not raise *)
Definition link_resolvable (self : Array) (v : pyvalue) : bool :=
  match v with
  | VLink link_type resource_id =>
      match _resolve_resource_link self link_type resource_id with
      | Ok _ => true
      | Raise _ => false
      end
  | _ => true
  end.

(* so for every link of the leading run of links of a sequence *)
Fixpoint run_resolvable (self : Array) (vs : list pyvalue) : bool :=
  match vs with
  | VLink link_type resource_id :: rest =>
      link_resolvable self (VLink link_type resource_id) && run_resolvable self rest
  | _ => true
  end.

Definition dict_resolvable (self : Array) (ls : list (list pyvalue))
    (d : list (string * pyvalue)) : Prop :=
  forall k v, (k, v) ∈ d ->
    link_resolvable self v = true
    /\ forall l, v = VList l -> run_resolvable self (default [] (ls !! l)) = true.

(* the object at [r] has field containers, and their links are resolvable *)
Definition resolvable (self : Array) (st : store) (r : loc) : Prop :=
  match objs st !! r with
  | Some (REntry e) =>
      dict_resolvable self (lists st) (default [] (_cf_cda e))
      /\ dict_resolvable self (lists st) (fields e)
  | Some (RAsset _ _ _) | Some (RContentType _ _ _ _) => True
  | _ => False
  end.

(* the same conditions, as checks that can be run *)
Definition dict_resolvableb (self : Array) (ls : list (list pyvalue))
    (d : list (string * pyvalue)) : bool :=
  forallb (fun '(_, v) =>
             link_resolvable self v
             && match v with
                | VList l => run_resolvable self (default [] (ls !! l))
                | _ => true
                end) d.

Definition resolvableb (self : Array) (st : store) (r : loc) : bool :=
  match objs st !! r with
  | Some (REntry e) =>
      dict_resolvableb self (lists st) (default [] (_cf_cda e))
      && dict_resolvableb self (lists st) (fields e)
  | Some (RAsset _ _ _) | Some (RContentType _ _ _ _) => true
  | _ => false
  end.

(* a value that a resolution pass has no reason to replace: anything but
   a link, and a link whose target is not found *)
Definition stays (self : Array) (v : pyvalue) : Prop :=
  match v with
  | VLink link_type resource_id => link_target self link_type resource_id = None
  | _ => True
  end.

(** *** fields.py: reading a typed attribute *)



Definition present (fields : list (string * pyvalue)) (fid : string) : Prop :=
  exists v, sget fields fid = Some v /\ v <> VNone.

(* the registry key of a class: its content type, hashed *)
Definition content_key (c : pyclass) : outcome pykey :=
  let? ct := get_content_type c in to_key ct.

(** *** The class bodies that the typed storage is stated for

    A Field is a data descriptor: declared under the name of an
    attribute that the construction of an entry assigns ([sys], [fields],
    [raw_fields], [_cf_cda]) it captures the assignment, and an
    attribute under a special name ([__init__] and the like) changes the
    construction itself.  The statements about the typed storage are for
    classes without such attributes, in the class and in its bases. *)

Definition special_name (n : string) : bool := String.prefix "__" n.

Definition reserved_name (n : string) : bool :=
  special_name n || existsb (String.eqb n) ["sys"; "fields"; "raw_fields"; "_cf_cda"].

Definition plain_attr (na : string * attr) : bool :=
  match na with
  | (n, AField _) => negb (reserved_name n)
  | (n, AValue _) => negb (special_name n) || String.eqb n "__content_type__"
  end.

Fixpoint plain_class (c : pyclass) : bool :=
  match c with
  | CustomClass _ base attrs _ => forallb plain_attr attrs && plain_class base
  | EntryClass | OtherClass _ => true
  end.

(* every class of the registry is plain *)
Definition plain_registry (entries_mapping : list (pykey * pyclass)) : bool :=
  forallb (fun kc => plain_class (snd kc)) entries_mapping.

(** *** What the decoder makes of a JSON document *)

(* the placeholder that stands for a link object; any other value as it
   is *)
Definition linked_value (v : pyvalue) : pyvalue :=
  match _extract_link v with
  | Ok (Some lk) => lk
  | _ => v
  end.

(* a field value of the response, as the entry holds it once the links
   are replaced: a sequence is a list object of the store *)
Definition held (st : store) (v : pyvalue) (j : json) : Prop :=
  match j with
  | JList js =>
      exists l, v = VList l
                /\ lists st !! l = Some (map (fun x => linked_value (VJson x)) js)
  | _ => v = linked_value (VJson j)
  end.

(* the same before the links are replaced: the value as the JSON decoder
   built it *)
Definition decoded_as (st : store) (v : pyvalue) (j : json) : Prop :=
  match j with
  | JList js => exists l, v = VList l /\ lists st !! l = Some (map VJson js)
  | _ => v = VJson j
  end.


(** ** errors.py: the exception classes of the API *)

Inductive api_class : Type :=
| ApiError | BadRequest | Unauthorized | AccessDenied | NotFound
| ServerError | ServiceUnavailable.

(* @api_exception(http_code) on a class:
   ErrorMapping.mapping[http_code] = code *)
Definition api_exception (http_code : Z) (code : api_class)
    (mapping : list (Z * api_class)) : list (Z * api_class) :=
  dict_set Z.eqb mapping http_code code.

(* ErrorMapping.mapping once the module is imported: the decorated
   classes, in the order of the file *)
Definition ErrorMapping_mapping : list (Z * api_class) :=
  api_exception 503 ServiceUnavailable
    (api_exception 500 ServerError
       (api_exception 404 NotFound
          (api_exception 403 AccessDenied
             (api_exception 401 Unauthorized
                (api_exception 400 BadRequest []))))).

(** ** client.py and utils.py: requests

    The HTTP client is outside the program: a call of its [get] takes the
    state of the world [W] to a response, or to an exception of its own,
    and a new state.  Of a response the code reads the status code and
    the decoded body.  The paths of [const.py] are parameters.  A request
    made by [Client.fetch] owns its dictionary of parameters, so the
    requests are values here and a method that changes its request
    returns the changed request. *)

Record Response : Type := mkResponse {
  status_code : Z;
  body : outcome json          (* r.json() *)
}.

Inductive client_exn : Type :=
| Builtin (e : pyexn)
| IndexError
| InvalidResourceType          (* Exception('Invalid resource type ...') *)
| HttpError (cls : api_class) (r : Response)
| RequestException.            (* raised by the HTTP client *)

Inductive reply (A : Type) : Type :=
| Done (a : A)
| Fail (e : client_exn).
Arguments Done {A} a.
Arguments Fail {A} e.

(* base_url and the headers are the strings that Dispatcher.__init__ and
   get_headers format from the configuration *)
Record Dispatcher : Type := mkDispatcher {
  resource_factory : list (pykey * pyclass);
  base_url : string;
  get_headers : list (string * string)
}.

Record Request : Type := mkRequest {
  request_dispatcher : Dispatcher;
  remote_path : option string;
  params : list (string * json)
}.

Record RequestArray : Type := mkRequestArray {
  request : Request;
  resolve_links_flag : bool      (* self.resolve_links *)
}.

Record Client : Type := mkClient {
  dispatcher : Dispatcher;
  config_resolve_links : bool    (* self.config.resolve_links *)
}.

(* the classes a request can be made for: the resource classes of the
   library, and Entry with the classes of the class model *)
Inductive resource_class : Type :=
| AssetClass
| ContentTypeClass
| SpaceClass
| ClassOf (c : pyclass).

(* Request.__init__ : self.params = params or {} *)
Definition Request_init (dispatcher : Dispatcher) (remote_path : option string)
    (params : option (list (string * json))) : Request :=
  mkRequest dispatcher remote_path (default [] params).

Definition RequestArray_init (dispatcher : Dispatcher) (remote_path : option string)
    (resolve_links : bool) (params : option (list (string * json))) : RequestArray :=
  mkRequestArray (Request_init dispatcher remote_path params) resolve_links.

(* dict(d, **kw) *)
Definition dict_update {V} (d kw : list (string * V)) : list (string * V) :=
  fold_left (fun acc '(k, v) => sset acc k v) kw d.

(* self.params = dict(self.params, **params); return self *)
Definition RequestArray_where (self : RequestArray) (params' : list (string * json))
    : RequestArray :=
  mkRequestArray
    (mkRequest (request_dispatcher (request self)) (remote_path (request self))
       (dict_update (params (request self)) params'))
    (resolve_links_flag self).

(* '{0}'.format(remote_path) *)
Definition format_path (remote_path : option string) : string :=
  default "None" remote_path.

(* issubclass(clz, Entry) *)
Definition issubclass_of_Entry (clz : resource_class) : bool :=
  match clz with
  | ClassOf c => issubclass_Entry c
  | _ => false
  end.

(* getattr(resource_class, '__content_type__', None) *)
Definition getattr_content_type (clz : resource_class) : json :=
  match clz with
  | ClassOf c =>
      match get_content_type c with
      | Ok v => v
      | Raise _ => JNull
      end
  | _ => JNull
  end.

(* utils.class_for_type *)
Definition class_for_type (resource_type : json) : option resource_class :=
  if eq_str resource_type "Asset" then Some AssetClass
  else if eq_str resource_type "ContentType" then Some ContentTypeClass
  else if eq_str resource_type "Entry" then Some (ClassOf EntryClass)
  else if eq_str resource_type "Space" then Some SpaceClass
  else None.

Section Requests.
Variable W : Type.
Variable httpclient_get :
  string -> list (string * json) -> list (string * string) -> W -> option Response * W.
Variable parse_date : string -> outcome datetime.
Variable literal_eval : string -> outcome json.
Variable str_other : store -> pyvalue -> string.
Variables PATH_ASSETS PATH_CONTENT_TYPES PATH_ENTRIES : string.
(* x > 0 for an x that is not a number: TypeError in Python 3, an order
   by type in Python 2 *)
Variable gt_other : json -> outcome bool.

(* utils.path_for_class *)
Definition path_for_class (clz : resource_class) : option string :=
  match clz with
  | AssetClass => Some PATH_ASSETS
  | ContentTypeClass => Some PATH_CONTENT_TYPES
  | ClassOf c => if issubclass_Entry c then Some PATH_ENTRIES else None
  | SpaceClass => None
  end.

(* Dispatcher.invoke *)
Definition Dispatcher_invoke (self : Dispatcher) (request : Request)
    (st : store) (w : W) : reply pyvalue * store * W :=
  let url := base_url self ++ "/" ++ format_path (remote_path request) in
  match httpclient_get url (params request) (get_headers self) w with
  | (None, w') => (Fail RequestException, st, w')
  | (Some r, w') =>
      if (200 <=? status_code r) && (status_code r <? 300) then
        match body r with
        | Ok json =>
            match decode (resource_factory self) parse_date literal_eval str_other
                    json st with
            | Ok (v, st') => (Done v, st', w')
            | Raise e => (Fail (Builtin e), st, w')
            end
        | Raise e => (Fail (Builtin e), st, w')
        end
      else
        match dict_get Z.eqb ErrorMapping_mapping (status_code r) with
        | Some cls => (Fail (HttpError cls r), st, w')
        | None => (Fail (HttpError ApiError r), st, w')
        end
  end.

(* Request.invoke *)
Definition Request_invoke (self : Request) (st : store) (w : W)
    : reply pyvalue * store * W :=
  Dispatcher_invoke (request_dispatcher self) self st w.

(* x > 0 *)
Definition gt_zero (x : json) : outcome bool :=
  match x with
  | JInt z => Ok (0 <? z)
  | JBool b => Ok b
  | JFloat neg d e => Ok (negb neg && negb (float_is_zero d e))
  | _ => gt_other x
  end.

(* result.items[0] if result.total > 0 else None *)
Definition first_item (st : store) (result : pyvalue) : reply pyvalue :=
  match result with
  | VRes a =>
      match objs st !! a with
      | Some (RArray arr) =>
          match gt_zero (total arr) with
          | Ok true =>
              match items arr with
              | x :: _ => Done x
              | [] => Fail IndexError
              end
          | Ok false => Done VNone
          | Raise e => Fail (Builtin e)
          end
      | _ => Fail (Builtin AttributeError)
      end
  | _ => Fail (Builtin AttributeError)
  end.

(* RequestArray.first; the request is returned as the call leaves it *)
Definition RequestArray_first (self : RequestArray) (st : store) (w : W)
    : reply pyvalue * RequestArray * store * W :=
  let self :=
    mkRequestArray
      (mkRequest (request_dispatcher (request self)) (remote_path (request self))
         (sset (params (request self)) "limit" (JInt 1)))
      (resolve_links_flag self) in
  match Request_invoke (request self) st w with
  | (Done result, st', w') => (first_item st' result, self, st', w')
  | (Fail e, st', w') => (Fail e, self, st', w')
  end.

(* Client.fetch; None stands for a resource_class that is None *)
Definition Client_fetch (self : Client) (resource_class : option resource_class)
    : reply RequestArray :=
  match resource_class with
  | None => Fail (Builtin TypeError)
  | Some clz =>
      if issubclass_of_Entry clz then
        let content_type := getattr_content_type clz in
        let params :=
          if is_none content_type then None
          else Some [("content_type", content_type)] in
        Done (RequestArray_init (dispatcher self) (path_for_class clz)
                (config_resolve_links self) params)
      else
        match path_for_class clz with
        | None => Fail InvalidResourceType
        | Some remote_path =>
            Done (RequestArray_init (dispatcher self) (Some remote_path)
                    (config_resolve_links self) None)
        end
  end.

(* Client.fetch_space *)
Definition Client_fetch_space (self : Client) (st : store) (w : W)
    : reply pyvalue * store * W :=
  Request_invoke (Request_init (dispatcher self) (Some "") None) st w.

(* container = array.items_mapped.get(link_resource_type);
   result = container.get(resource_id) *)
Definition lookup_in_array (st : store) (array : loc)
    (link_resource_type resource_id : json) : outcome (option loc) :=
  match objs st !! array with
  | Some (RArray arr) =>
      let? kind := to_key link_resource_type in
      match (match kind with
             | KStr s => sget (items_mapped arr) s
             | _ => None
             end) with
      | Some container => let? id := to_key resource_id in Ok (kget container id)
      | None => Raise AttributeError
      end
  | _ => Raise AttributeError
  end.

(* Client.resolve *)
Definition Client_resolve (self : Client) (link_resource_type resource_id : json)
    (array : option loc) (st : store) (w : W) : reply pyvalue * store * W :=
  match (match array with
         | Some a => lookup_in_array st a link_resource_type resource_id
         | None => Ok None
         end) with
  | Raise e => (Fail (Builtin e), st, w)
  | Ok (Some r) => (Done (VRes r), st, w)
  | Ok None =>
      let clz := class_for_type link_resource_type in
      match Client_fetch self clz with
      | Fail e => (Fail e, st, w)
      | Done req =>
          let '(result, _, st', w') :=
            RequestArray_first (RequestArray_where req [("sys.id", resource_id)]) st w in
          (result, st', w')
      end
  end.

(* Client.resolve_resource_link *)
Definition Client_resolve_resource_link (self : Client) (resource_link : pyvalue)
    (array : option loc) (st : store) (w : W) : reply pyvalue * store * W :=
  match resource_link with
  | VLink link_type resource_id => Client_resolve self link_type resource_id array st w
  | _ => (Fail (Builtin AttributeError), st, w)
  end.

(* Client.resolve_dict_link *)
Definition Client_resolve_dict_link (self : Client) (dct : json)
    (array : option loc) (st : store) (w : W) : reply pyvalue * store * W :=
  match json_get dct "sys" with
  | Raise e => (Fail (Builtin e), st, w)
  | Ok sys =>
      if is_none sys then (Done VNone, st, w)
      else
        match (let? t := subscript sys "linkType" in
               let? i := subscript sys "id" in Ok (t, i)) with
        | Raise e => (Fail (Builtin e), st, w)
        | Ok (t, i) => Client_resolve self t i array st w
        end
  end.
End Requests.

(** *** The class of the exception for a status code *)

Definition error_class (status : Z) : api_class :=
  if status =? 400 then BadRequest
  else if status =? 401 then Unauthorized
  else if status =? 403 then AccessDenied
  else if status =? 404 then NotFound
  else if status =? 500 then ServerError
  else if status =? 503 then ServiceUnavailable
  else ApiError.

(** *** A canned HTTP client: the world is the list of the responses to
    come, and of the calls made so far *)

Record call : Type := mkCall {
  call_url : string;
  call_params : list (string * json);
  call_headers : list (string * string)
}.

Definition canned : Type := list Response * list call.

Definition canned_get (url : string) (ps : list (string * json))
    (hs : list (string * string)) (w : canned) : option Response * canned :=
  match fst w with
  | r :: rest => (Some r, (rest, (snd w ++ [mkCall url ps hs])%list))
  | [] => (None, ([], (snd w ++ [mkCall url ps hs])%list))
  end.

Definition test_dispatcher : Dispatcher :=
  mkDispatcher cat_registry "https://cdn.contentful.com/spaces/cfexampleapi"
    [("Authorization", "Bearer b4c0n73n7fu1"); ("User-Agent", "contentful.py")].

Definition test_client : Client := mkClient test_dispatcher true.

(** * Properties *)

(** ** Field coercion *)

Section CoercionFacts.
Variable entries_mapping : list (pykey * pyclass).
Variable parse_date : string -> outcome datetime.
Variable literal_eval : string -> outcome json.
Variable str_other : store -> pyvalue -> string.

Let convert := convert_value parse_date literal_eval str_other.

Lemma convert_number_int z fid st :
  convert (VJson (JInt z)) (mkField Number fid) st = Ok (VJson (JInt z), st).
Proof. reflexivity. Qed.

Lemma convert_number_str s fid st :
  convert (VJson (JStr s)) (mkField Number fid) st =
  match parse_int s with
  | Some z => Ok (VJson (JInt z), st)
  | None => Raise ValueError
  end.
Proof.
  unfold convert, convert_value; simpl. unfold bind, lift, py_int.
  destruct (parse_int s); reflexivity.
Qed.

Lemma convert_date_string_form v fid st :
  convert v (mkField Date fid) st =
  match parse_date (string_form str_other st v) with
  | Ok d => Ok (VDate d, st)
  | Raise e => Raise e
  end.
Proof.
  unfold convert, convert_value; simpl.
  destruct v as [j| | | |]; try (unfold bind, py_str, lift, string_form, ret;
    destruct (parse_date _); reflexivity).
  destruct j; unfold bind, py_str, lift, string_form, ret; simpl;
    destruct (parse_date _); reflexivity.
Qed.
End CoercionFacts.

(** C6 (as stated, refuted): a float is not integral and its string form
    "3.5" is not an integer literal, yet the conversion does not fail: it
    truncates. *)
Lemma convert_number_float_truncates :
  convert_value dateutil_parse literal_eval_unused str_model
    (VJson (JFloat false 35 (-1))) (mkField Number None) empty_store
    = Ok (VJson (JInt 3), empty_store)
  /\ isinstance_int (VJson (JFloat false 35 (-1))) = false
  /\ str_scalar (JFloat false 35 (-1)) = Some "3.5"
  /\ parse_int "3.5" = None.
Proof. vm_compute. repeat split; reflexivity. Qed.

(** C6 (amended): [convert(v, Number)] returns an int (or bool) [v]
    unchanged; a string is parsed as a base-10 integer literal and the
    conversion raises when it is not one; a float is truncated towards
    zero instead of going through its string form; any other value
    raises; and [convert("1234567890", Number) == 1234567890]. *)
Theorem convert_number_spec :
  forall parse_date literal_eval str_other (v : pyvalue) fid st,
    convert_value parse_date literal_eval str_other v (mkField Number fid) st =
    match v with
    | VJson (JInt _) | VJson (JBool _) => Ok (v, st)
    | VJson (JStr s) =>
        match parse_int s with
        | Some z => Ok (VJson (JInt z), st)
        | None => Raise ValueError
        end
    | VJson (JFloat neg d x) =>
        match float_trunc neg d x with
        | Ok z => Ok (VJson (JInt z), st)
        | Raise e => Raise e
        end
    | _ => Raise TypeError
    end
  /\ convert_value parse_date literal_eval str_other
       (VJson (JStr "1234567890")) (mkField Number fid) st
     = Ok (VJson (JInt 1234567890), st).
Proof.
  intros. split.
  - destruct v as [j| | | |]; try reflexivity.
    destruct j; try reflexivity.
    + unfold convert_value; simpl. unfold bind, lift, py_int.
      destruct (float_trunc neg digits exp10); reflexivity.
    + apply convert_number_str.
  - rewrite convert_number_str. reflexivity.
Qed.



(** C9: [convert(v, Date)] parses the string form of [v] (the string
    itself, or [str(v)] when [v] is not a string) with the date parser;
    with the modelled parser the ISO timestamp and the eight-digit integer
    give the stated components. *)
Theorem convert_date_spec :
  (forall parse_date literal_eval str_other (v : pyvalue) fid st,
      convert_value parse_date literal_eval str_other v (mkField Date fid) st =
      match parse_date (string_form str_other st v) with
      | Ok d => Ok (VDate d, st)
      | Raise e => Raise e
      end)
  /\ (forall str_other st,
         string_form str_other st (VJson (JInt 20130101)) = "20130101"
         /\ string_form str_other st (VJson (JStr "2013-11-18T09:13:37.808Z"))
            = "2013-11-18T09:13:37.808Z")
  /\ (forall literal_eval str_other fid st,
         convert_value dateutil_parse literal_eval str_other
           (VJson (JStr "2013-11-18T09:13:37.808Z")) (mkField Date fid) st
         = Ok (VDate (mkDatetime 2013 11 18 9 13 37 808000 (Some 0)), st)
         /\ convert_value dateutil_parse literal_eval str_other
              (VJson (JInt 20130101)) (mkField Date fid) st
            = Ok (VDate (mkDatetime 2013 1 1 0 0 0 0 None), st)).
Proof.
  split; [| split].
  - intros. apply convert_date_string_form.
  - intros. split; vm_compute; reflexivity.
  - intros. rewrite !convert_date_string_form. split; vm_compute; reflexivity.
Qed.


(** ** Registration of custom Entry classes *)

Lemma collect_fields_no_content_type attrs fields :
  (forall v, In ("__content_type__", AValue v) attrs -> v = JNull) ->
  snd (collect_fields true attrs fields JNull) = JNull.
Proof.
  revert fields. induction attrs as [|[n a] attrs IH]; intros fields H; simpl.
  - reflexivity.
  - destruct a as [f|v].
    + apply IH. intros v Hv. apply H. right. exact Hv.
    + destruct (String.eqb n "__content_type__") eqn:E.
      * apply String.eqb_eq in E. subst n.
        rewrite (H v (or_introl eq_refl)).
        apply IH. intros v' Hv'. apply H. right. exact Hv'.
      * apply IH. intros v' Hv'. apply H. right. exact Hv'.
Qed.

Lemma collect_fields_content_type attrs fields ct0 :
  (forall v, In ("__content_type__", AValue v) attrs -> v <> JNull) ->
  ct0 <> JNull \/ (exists v, In ("__content_type__", AValue v) attrs) ->
  snd (collect_fields true attrs fields ct0) <> JNull.
Proof.
  revert fields ct0. induction attrs as [|[n a] attrs IH]; intros fields ct0 H H0; simpl.
  - destruct H0 as [H0|[v []]]. exact H0.
  - destruct a as [f|v].
    + apply IH.
      * intros v Hv. apply H. right. exact Hv.
      * destruct H0 as [H0|[v [Hv|Hv]]]; [left; exact H0 | discriminate | right; eauto].
    + destruct (String.eqb n "__content_type__") eqn:E.
      * apply String.eqb_eq in E. subst n. apply IH.
        -- intros v' Hv'. apply H. right. exact Hv'.
        -- left. apply H. left. reflexivity.
      * apply IH.
        -- intros v' Hv'. apply H. right. exact Hv'.
        -- destruct H0 as [H0|[v' [Hv'|Hv']]]; [left; exact H0 | | right; eauto].
           injection Hv' as -> _. rewrite String.eqb_refl in E. discriminate.
Qed.

Lemma validate_custom_entries_Entry cs :
  In EntryClass cs -> validate_custom_entries cs = Raise ConfigError.
Proof.
  induction cs as [|c cs IH]; intros H; simpl.
  - destruct H.
  - destruct (issubclass_Entry c) eqn:Es; simpl; [|reflexivity].
    destruct (is_Entry c) eqn:Ee; [reflexivity|].
    destruct H as [->|H]; [discriminate|]. apply IH, H.
Qed.

(** C5 (as stated, refuted): a class whose content-type identifier is the
    empty string passes the metaclass and is registered by the client under
    the empty identifier. *)
Lemma empty_content_type_registers :
  FieldOwner_new "Blank" EntryClass [("__content_type__", AValue (JStr ""))]
  = Ok blank_class
  /\ Client_init (JStr "space") (JStr "token") [blank_class]
     = Ok [(KStr "", blank_class)].
Proof. split; reflexivity. Qed.


Local Open Scope list_scope.

(** ** Dictionaries *)

Section DictFacts.
Context {K V : Type} (eqb : K -> K -> bool).
Hypothesis eqb_eq : forall a b, eqb a b = true <-> a = b.

Lemma eqb_refl' a : eqb a a = true.
Proof. apply eqb_eq. reflexivity. Qed.

Lemma eqb_neq' a b : a <> b -> eqb a b = false.
Proof. intros H. destruct (eqb a b) eqn:E; [|reflexivity]. apply eqb_eq in E. contradiction. Qed.

Lemma dict_get_set_eq (d : list (K * V)) k v :
  dict_get eqb (dict_set eqb d k v) k = Some v.
Proof.
  induction d as [|[k' v'] d IH]; simpl.
  - rewrite eqb_refl'. reflexivity.
  - destruct (eqb k' k) eqn:E; simpl; rewrite E; [reflexivity | exact IH].
Qed.

Lemma dict_get_set_ne (d : list (K * V)) k k' v :
  k <> k' -> dict_get eqb (dict_set eqb d k v) k' = dict_get eqb d k'.
Proof.
  intros Hne. induction d as [|[k0 v0] d IH]; simpl.
  - rewrite eqb_neq' by exact Hne. reflexivity.
  - destruct (eqb k0 k) eqn:E; simpl.
    + apply eqb_eq in E. subst k0. rewrite eqb_neq' by exact Hne. reflexivity.
    + rewrite IH. reflexivity.
Qed.

Lemma dict_keys_set (d : list (K * V)) k v :
  dict_keys (dict_set eqb d k v) = dict_keys d ++ match dict_get eqb d k with Some _ => [] | None => [k] end.
Proof.
  unfold dict_keys. induction d as [|[k0 v0] d IH]; simpl.
  - reflexivity.
  - destruct (eqb k0 k) eqn:E; simpl.
    + rewrite app_nil_r. reflexivity.
    + rewrite IH. reflexivity.
Qed.

Lemma dict_get_None (d : list (K * V)) k :
  dict_get eqb d k = None <-> k ∉ dict_keys d.
Proof.
  unfold dict_keys. induction d as [|[k0 v0] d IH]; simpl.
  - split; [intros _; apply not_elem_of_nil | reflexivity].
  - rewrite not_elem_of_cons. destruct (eqb k0 k) eqn:E.
    + apply eqb_eq in E. subst. split; [discriminate | intros [H _]; contradiction].
    + rewrite IH. split; [intros H; split; [|exact H] | intros [_ H]; exact H].
      intros ->. rewrite eqb_refl' in E. discriminate.
Qed.

Lemma dict_set_NoDup (d : list (K * V)) k v :
  NoDup (dict_keys d) -> NoDup (dict_keys (dict_set eqb d k v)).
Proof.
  intros H. rewrite dict_keys_set.
  destruct (dict_get eqb d k) eqn:E.
  - rewrite app_nil_r. exact H.
  - apply NoDup_app. split; [exact H|]. split.
    + intros x Hx Hk. apply list_elem_of_singleton in Hk. subst x.
      apply dict_get_None in E. contradiction.
    + apply NoDup_singleton.
Qed.

Lemma dict_set_app_fresh (pre rest : list (K * V)) k v x :
  k ∉ dict_keys pre ->
  dict_set eqb (pre ++ (k, v) :: rest) k x = pre ++ (k, x) :: rest.
Proof.
  unfold dict_keys. induction pre as [|[k0 v0] pre IH]; simpl; intros H.
  - rewrite eqb_refl'. reflexivity.
  - apply not_elem_of_cons in H as [Hne H].
    rewrite eqb_neq' by (intros ->; contradiction).
    rewrite IH by exact H. reflexivity.
Qed.

Lemma dict_get_map (f : V -> V) (d : list (K * V)) k :
  dict_get eqb (map (fun '(k, v) => (k, f v)) d) k = f <$> dict_get eqb d k.
Proof.
  induction d as [|[k0 v0] d IH]; simpl; [reflexivity|].
  destruct (eqb k0 k); [reflexivity | exact IH].
Qed.

Lemma dict_get_In (d : list (K * V)) k v :
  dict_get eqb d k = Some v -> (k, v) ∈ d.
Proof.
  induction d as [|[k0 v0] d IH]; simpl; [discriminate|].
  destruct (eqb k0 k) eqn:E.
  - apply eqb_eq in E. intros [= ->]. subst. apply list_elem_of_here.
  - intros H. apply list_elem_of_further, IH, H.
Qed.
End DictFacts.

Lemma key_eqb_eq a b : key_eqb a b = true <-> a = b.
Proof.
  destruct a, b; simpl; split; intros H; try discriminate; try reflexivity.
  - apply andb_true_iff in H as [H1 H2].
    apply Z.eqb_eq in H1, H2. subst. reflexivity.
  - injection H as -> ->. rewrite !Z.eqb_refl. reflexivity.
  - apply Bool.eqb_prop in H. subst. reflexivity.
  - injection H as ->. apply Bool.eqb_reflx.
  - apply String.eqb_eq in H. subst. reflexivity.
  - injection H as ->. apply String.eqb_refl.
Qed.

Lemma sget_sset_eq {V} (d : list (string * V)) k v : sget (sset d k v) k = Some v.
Proof. apply dict_get_set_eq, String.eqb_eq. Qed.

Lemma sget_sset_ne {V} (d : list (string * V)) k k' v :
  k <> k' -> sget (sset d k v) k' = sget d k'.
Proof. apply dict_get_set_ne, String.eqb_eq. Qed.

Lemma sset_NoDup {V} (d : list (string * V)) k v :
  NoDup (dict_keys d) -> NoDup (dict_keys (sset d k v)).
Proof. apply dict_set_NoDup, String.eqb_eq. Qed.

Lemma sget_resolved_dict self d k :
  sget (resolved_dict self d) k = resolved_value self <$> sget d k.
Proof. apply dict_get_map. Qed.

Lemma dict_keys_resolved_dict self d :
  dict_keys (resolved_dict self d) = dict_keys d.
Proof.
  unfold dict_keys, resolved_dict. rewrite map_map.
  apply map_ext. intros [k v]. reflexivity.
Qed.

(** ** Reasoning about computations *)

Lemma bind_Ok {A B} (m : M A) (f : A -> M B) st b st' :
  bind m f st = Ok (b, st') <->
  exists a st1, m st = Ok (a, st1) /\ f a st1 = Ok (b, st').
Proof.
  unfold bind. destruct (m st) as [[a st1]|e].
  - split; [intros H; exists a, st1; auto | intros (a' & st1' & [= <- <-] & H); exact H].
  - split; [discriminate | intros (a' & st1' & H & _); discriminate].
Qed.

Lemma lift_Ok {A} (o : outcome A) st a st' :
  lift o st = Ok (a, st') <-> o = Ok a /\ st' = st.
Proof.
  unfold lift. destruct o as [x|e].
  - split; [intros [= -> ->]; auto | intros [[= ->] ->]; reflexivity].
  - split; [discriminate | intros [H _]; discriminate].
Qed.

Lemma ret_Ok {A} (x : A) st a st' :
  ret x st = Ok (a, st') <-> a = x /\ st' = st.
Proof. unfold ret. split; [intros [= -> ->]; auto | intros [-> ->]; reflexivity]. Qed.

Lemma obind_Ok {A B} (o : outcome A) (f : A -> outcome B) b :
  obind o f = Ok b <-> exists a, o = Ok a /\ f a = Ok b.
Proof.
  destruct o as [a|e]; simpl.
  - split; [intros H; exists a; auto | intros (a' & [= <-] & H); exact H].
  - split; [discriminate | intros (a' & H & _); discriminate].
Qed.

Lemma throw_Ok {A} e st (a : A) st' : throw e st = Ok (a, st') <-> False.
Proof. unfold throw. split; [discriminate | intros []]. Qed.

Ltac minv :=
  repeat match goal with
    | H : bind _ _ _ = Ok _ |- _ =>
        apply bind_Ok in H; destruct H as (? & ? & ? & H)
    | H : lift _ _ = Ok _ |- _ => apply lift_Ok in H; destruct H as [H ?]; subst
    | H : ret _ _ = Ok _ |- _ => apply ret_Ok in H; destruct H as [? ?]; subst
    | H : throw _ _ = Ok _ |- _ => apply throw_Ok in H; destruct H
    | H : obind _ _ = Ok _ |- _ => apply obind_Ok in H; destruct H as (? & ? & H)
    | H : Raise _ = Ok _ |- _ => discriminate H
    | H : Ok _ = Ok _ |- _ => injection H as H; subst
    end.

(** ** Link resolution *)

Lemma resolved_value_idemp self v :
  resolved_value self (resolved_value self v) = resolved_value self v.
Proof.
  destruct v; try reflexivity. simpl.
  destruct (link_target self link_type resource_id) eqn:E; simpl; [reflexivity|].
  rewrite E. reflexivity.
Qed.

Lemma resolved_list_idemp self vs :
  resolved_list self (resolved_list self vs) = resolved_list self vs.
Proof.
  induction vs as [|v vs IH]; [reflexivity|].
  destruct v; try reflexivity. simpl.
  destruct (link_target self link_type resource_id) eqn:E; simpl; [reflexivity|].
  rewrite E, IH. reflexivity.
Qed.

Lemma resolved_list_length self vs : length (resolved_list self vs) = length vs.
Proof.
  induction vs as [|v vs IH]; [reflexivity|].
  destruct v; try reflexivity. simpl. rewrite IH. reflexivity.
Qed.

Lemma resolved_list_lookup self vs i :
  resolved_list self vs !! i =
  (if decide (i < leading_links vs)%nat then resolved_value self <$> vs !! i else vs !! i).
Proof.
  revert i. induction vs as [|v vs IH]; intros i.
  - reflexivity.
  - destruct v; try reflexivity.
    destruct i as [|i].
    + reflexivity.
    + change (resolved_list self (VLink link_type resource_id :: vs) !! S i)
        with (resolved_list self vs !! i).
      rewrite IH. simpl leading_links.
      destruct (decide (i < leading_links vs)%nat), (decide (S i < S (leading_links vs))%nat);
        try lia; reflexivity.
Qed.

Lemma resolved_dict_idemp self d :
  resolved_dict self (resolved_dict self d) = resolved_dict self d.
Proof.
  unfold resolved_dict. rewrite map_map. apply map_ext.
  intros [k v]. rewrite resolved_value_idemp. reflexivity.
Qed.

Lemma resolved_resource_idemp self o :
  resolved_resource self (resolved_resource self o) = resolved_resource self o.
Proof.
  destruct o; try reflexivity. destruct e as [c s cf f r]. simpl.
  rewrite resolved_dict_idemp. destruct cf; simpl; [rewrite resolved_dict_idemp|]; reflexivity.
Qed.

Lemma list_refs_cons k v d :
  list_refs ((k, v) :: d) =
  match v with VList l => l :: list_refs d | _ => list_refs d end.
Proof. destruct v; reflexivity. Qed.

Lemma list_refs_resolved_dict self d :
  list_refs (resolved_dict self d) = list_refs d.
Proof.
  induction d as [|[k v] d IH]; [reflexivity|].
  change (resolved_dict self ((k, v) :: d))
    with ((k, resolved_value self v) :: resolved_dict self d).
  rewrite !list_refs_cons, IH.
  destruct v; try reflexivity. simpl.
  destruct (link_target self link_type resource_id); reflexivity.
Qed.

Lemma field_refs_resolved_resource self o :
  field_refs (resolved_resource self o) = field_refs o.
Proof.
  destruct o; try reflexivity. destruct e as [c s cf f r]. simpl.
  rewrite list_refs_resolved_dict. destruct cf; simpl; [rewrite list_refs_resolved_dict|]; reflexivity.
Qed.

Lemma alter_all_length {A} (f : A -> A) ixs (l : list A) :
  length (alter_all f ixs l) = length l.
Proof.
  revert l. induction ixs as [|i ixs IH]; intros l; simpl; [reflexivity|].
  rewrite IH. apply length_alter.
Qed.

Lemma alter_all_app {A} (f : A -> A) ixs ixs' (l : list A) :
  alter_all f (ixs ++ ixs') l = alter_all f ixs' (alter_all f ixs l).
Proof. apply fold_left_app. Qed.

Lemma alter_all_lookup {A} (f : A -> A) ixs (l : list A) i :
  (forall x, f (f x) = f x) ->
  alter_all f ixs l !! i = if decide (i ∈ ixs) then f <$> l !! i else l !! i.
Proof.
  intros Hf. revert l. induction ixs as [|j ixs IH]; intros l.
  - reflexivity.
  - change (alter_all f (j :: ixs) l) with (alter_all f ixs (alter f j l)).
    rewrite IH, list_lookup_alter.
    destruct (decide (i ∈ ixs)) as [Hin|Hnin]; destruct (decide (j = i)) as [->|Hne].
    + rewrite decide_True by apply list_elem_of_here.
      destruct (l !! i); simpl; [rewrite Hf|]; reflexivity.
    + rewrite decide_True by (apply list_elem_of_further; exact Hin). reflexivity.
    + rewrite decide_True by apply list_elem_of_here. reflexivity.
    + rewrite decide_False; [reflexivity|].
      intros [->|H]%elem_of_cons; [apply Hne; reflexivity | contradiction].
Qed.

Lemma resolve_list_spec self l eles : forall idx pre st st',
  lists st !! l = Some (pre ++ eles) ->
  length pre = idx ->
  resolve_list self l idx eles st = Ok (tt, st') ->
  st' = mkStore (objs st) (<[l := pre ++ resolved_list self eles]> (lists st)).
Proof.
  induction eles as [|v eles IH]; intros idx pre st st' Hl Hlen H.
  - simpl in H. minv. destruct st as [os ls]; simpl in *.
    rewrite list_insert_id by exact Hl. reflexivity.
  - destruct v;
      try (simpl in H; minv; destruct st as [os ls]; simpl in *;
           rewrite list_insert_id by exact Hl; reflexivity).
    simpl in H. minv. simpl resolved_list. unfold link_target.
    match goal with H0 : _resolve_resource_link _ _ _ = Ok _ |- _ => rewrite H0 end.
    destruct x as [r|].
    + match goal with
      | Hw : write_list _ _ _ _ = Ok _ |- _ => unfold write_list in Hw; injection Hw as <- <-
      end.
      apply (IH (S (length pre)) (pre ++ [VRes r])) in H.
      * subst st'. simpl. f_equal.
        rewrite !list_insert_alter, list_alter_alter_eq, <- (app_assoc pre [VRes r]).
        reflexivity.
      * cbn [lists]. rewrite list_lookup_alter, decide_True by reflexivity.
        rewrite Hl. cbn [fmap option_fmap option_map]. f_equal.
        rewrite <- (Nat.add_0_r (length pre)), insert_app_r.
        simpl. rewrite <- app_assoc. reflexivity.
      * rewrite length_app; simpl. lia.
    + minv. apply (IH (S (length pre)) (pre ++ [VLink link_type resource_id])) in H.
      * subst st'. rewrite <- (app_assoc pre [_]). reflexivity.
      * rewrite <- app_assoc. exact Hl.
      * rewrite length_app; simpl. lia.
Qed.

Lemma insert_as_alter {A} (f : A -> A) (ls : list A) l x :
  ls !! l = Some x -> <[l := f x]> ls = alter f l ls.
Proof.
  intros H. apply list_eq. intros i.
  rewrite list_lookup_alter, list_lookup_insert.
  destruct (decide (l = i)) as [->|Hne].
  - rewrite H. rewrite decide_True; [reflexivity|].
    split; [reflexivity | eapply lookup_lt_Some; exact H].
  - rewrite decide_False; [reflexivity | intros [? _]; contradiction].
Qed.

Lemma alter_out_of_range {A} (f : A -> A) (ls : list A) l :
  ls !! l = None -> alter f l ls = ls.
Proof.
  intros H. apply list_eq. intros i. rewrite list_lookup_alter.
  destruct (decide (l = i)) as [->|Hne]; [rewrite H|]; reflexivity.
Qed.

Lemma resolve_list_alter self l st st' :
  resolve_list self l 0 (default [] (lists st !! l)) st = Ok (tt, st') ->
  st' = mkStore (objs st) (alter (resolved_list self) l (lists st)).
Proof.
  destruct (lists st !! l) as [vs|] eqn:E; simpl; intros H.
  - apply (resolve_list_spec self l vs 0%nat []) in H; [|exact E|reflexivity].
    subst st'. simpl. rewrite (insert_as_alter (resolved_list self)) by exact E. reflexivity.
  - minv. rewrite alter_out_of_range by exact E. destruct st; reflexivity.
Qed.

Lemma resolve_dict_spec self its : forall done st dct' st',
  NoDup (dict_keys (done ++ its)) ->
  resolve_dict self its (done ++ its) st = Ok (dct', st') ->
  dct' = done ++ resolved_dict self its
  /\ st' = mkStore (objs st) (alter_all (resolved_list self) (list_refs its) (lists st)).
Proof.
  induction its as [|[k v] its IH]; intros done st dct' st' Hnd H.
  - simpl in H. minv. destruct st. split; reflexivity.
  - assert (Hk : k ∉ dict_keys done).
    { unfold dict_keys in *. rewrite map_app in Hnd. apply NoDup_app in Hnd as (_ & Hd & _).
      intros Hin. apply (Hd k Hin). apply list_elem_of_here. }
    assert (Hnd' : forall x, NoDup (dict_keys ((done ++ [(k, x)]) ++ its))).
    { intros x. rewrite <- app_assoc. unfold dict_keys in *.
      rewrite map_app in *. exact Hnd. }
    rewrite list_refs_cons.
    change (resolved_dict self ((k, v) :: its))
      with ((k, resolved_value self v) :: resolved_dict self its).
    destruct v; simpl in H.
    + replace (done ++ (k, VJson j) :: its) with ((done ++ [(k, VJson j)]) ++ its) in H
        by (rewrite <- app_assoc; reflexivity).
      apply IH in H; [|apply Hnd']. rewrite <- app_assoc in H. exact H.
    + minv. cbn [resolved_value]. unfold link_target.
      match goal with H0 : _resolve_resource_link _ _ _ = Ok _ |- _ => rewrite H0 end.
      destruct x as [r|].
      * unfold sset in H. rewrite (dict_set_app_fresh String.eqb String.eqb_eq) in H by exact Hk.
        replace (done ++ (k, VRes r) :: its) with ((done ++ [(k, VRes r)]) ++ its) in H
          by (rewrite <- app_assoc; reflexivity).
        apply IH in H; [|apply Hnd']. rewrite <- app_assoc in H. exact H.
      * replace (done ++ (k, VLink link_type resource_id) :: its)
          with ((done ++ [(k, VLink link_type resource_id)]) ++ its) in H
          by (rewrite <- app_assoc; reflexivity).
        apply IH in H; [|apply Hnd']. rewrite <- app_assoc in H. exact H.
    + replace (done ++ (k, VRes r) :: its) with ((done ++ [(k, VRes r)]) ++ its) in H
        by (rewrite <- app_assoc; reflexivity).
      apply IH in H; [|apply Hnd']. rewrite <- app_assoc in H. exact H.
    + minv.
      match goal with
      | Hr : read_list _ _ = Ok _ |- _ => unfold read_list in Hr; injection Hr as <- <-
      end.
      match goal with
      | Hr : resolve_list _ _ _ _ _ = Ok _ |- _ => destruct x1; apply resolve_list_alter in Hr; subst
      end.
      replace (done ++ (k, VList l) :: its) with ((done ++ [(k, VList l)]) ++ its) in H
        by (rewrite <- app_assoc; reflexivity).
      apply IH in H; [|apply Hnd']. rewrite <- app_assoc in H.
      destruct H as [-> ->]. split; reflexivity.
    + replace (done ++ (k, VDate d) :: its) with ((done ++ [(k, VDate d)]) ++ its) in H
        by (rewrite <- app_assoc; reflexivity).
      apply IH in H; [|apply Hnd']. rewrite <- app_assoc in H. exact H.
Qed.

Lemma alter_fixed {A} (f : A -> A) (ls : list A) l :
  (forall x, ls !! l = Some x -> f x = x) -> alter f l ls = ls.
Proof.
  intros H. apply list_eq. intros i. rewrite list_lookup_alter.
  destruct (decide (l = i)) as [->|Hne]; [|reflexivity].
  destruct (ls !! i) as [x|] eqn:E; simpl; [rewrite (H x eq_refl)|]; reflexivity.
Qed.

Lemma dicts_wf_alter_resolved self os r :
  dicts_wf os -> dicts_wf (alter (resolved_resource self) r os).
Proof.
  intros Hwf r' e'. rewrite list_lookup_alter.
  destruct (decide (r = r')) as [->|Hne]; [|apply Hwf].
  destruct (os !! r') as [o|] eqn:E; simpl; [|discriminate].
  destruct o; simpl; try discriminate; try (intros [= <-]; apply (Hwf r'), E).
  intros [= <-]. simpl. destruct (Hwf r' e E) as [H1 H2].
  rewrite dict_keys_resolved_dict. split; [exact H1|].
  destruct (_cf_cda e); simpl in *; [rewrite dict_keys_resolved_dict|]; exact H2.
Qed.

Lemma refs_of_alter_resolved self os r rs :
  refs_of (alter (resolved_resource self) r os) rs = refs_of os rs.
Proof.
  unfold refs_of. induction rs as [|r' rs IH]; simpl; [reflexivity|].
  rewrite IH. f_equal. rewrite list_lookup_alter.
  destruct (decide (r = r')) as [->|Hne]; [|reflexivity].
  destruct (os !! r'); simpl; [apply field_refs_resolved_resource | reflexivity].
Qed.

Lemma resolve_resource_spec self r st st' :
  dicts_wf (objs st) ->
  resolve_resource self r st = Ok (tt, st') ->
  st' = mkStore (alter (resolved_resource self) r (objs st))
          (alter_all (resolved_list self) (refs_of (objs st) [r]) (lists st)).
Proof.
  intros Hwf H. unfold resolve_resource in H. unfold refs_of. simpl flat_map.
  rewrite app_nil_r.
  destruct (objs st !! r) as [o|] eqn:E; [|discriminate].
  destruct o as [a| | |e|]; try discriminate.
  - injection H as <-. rewrite alter_fixed; [destruct st; reflexivity|].
    intros x Hx. rewrite E in Hx. injection Hx as <-. reflexivity.
  - injection H as <-. rewrite alter_fixed; [destruct st; reflexivity|].
    intros x Hx. rewrite E in Hx. injection Hx as <-. reflexivity.
  - destruct (Hwf r e E) as [Hf Hc]. minv.
    match goal with
    | H1 : resolve_dict _ (default [] _) _ _ = Ok _ |- _ =>
        apply (resolve_dict_spec self _ []) in H1; [destruct H1 as [-> ->] | exact Hc]
    end.
    match goal with
    | H1 : resolve_dict _ (fields e) _ _ = Ok _ |- _ =>
        apply (resolve_dict_spec self _ []) in H1; [destruct H1 as [-> ->] | exact Hf]
    end.
    unfold write_obj in H. injection H as <-. simpl. f_equal.
    + rewrite <- (insert_as_alter (resolved_resource self) _ _ _ E). simpl.
      destruct (_cf_cda e); reflexivity.
    + rewrite alter_all_app. reflexivity.
Qed.

Lemma resolve_resources_spec self rs : forall st st',
  dicts_wf (objs st) ->
  resolve_resources self rs st = Ok (tt, st') ->
  st' = mkStore (alter_all (resolved_resource self) rs (objs st))
          (alter_all (resolved_list self) (refs_of (objs st) rs) (lists st)).
Proof.
  induction rs as [|r rs IH]; intros st st' Hwf H; simpl in H.
  - minv. destruct st; reflexivity.
  - minv.
    match goal with
    | H1 : resolve_resource _ _ _ = Ok _ |- _ =>
        destruct x; apply resolve_resource_spec in H1; [subst | exact Hwf]
    end.
    apply IH in H; [|apply dicts_wf_alter_resolved, Hwf].
    subst st'. cbn [objs lists]. rewrite refs_of_alter_resolved.
    replace (refs_of (objs st) (r :: rs))
      with (refs_of (objs st) [r] ++ refs_of (objs st) rs)
      by (unfold refs_of; simpl; rewrite app_nil_r; reflexivity).
    rewrite alter_all_app. reflexivity.
Qed.

Lemma resolve_links_spec a st st' :
  dicts_wf (objs st) ->
  resolve_links a st = Ok (tt, st') ->
  exists self,
    array_at st a = Some self
    /\ is_Some (sget (items_mapped self) "Entry")
    /\ st' = mkStore
               (alter_all (resolved_resource self) (dict_values (bucket_of self "Entry")) (objs st))
               (alter_all (resolved_list self)
                  (refs_of (objs st) (dict_values (bucket_of self "Entry"))) (lists st)).
Proof.
  intros Hwf H. unfold resolve_links in H. unfold array_at, bucket_of.
  destruct (objs st !! a) as [o|]; [|discriminate].
  destruct o as [self| | | |]; try discriminate.
  exists self. destruct (sget (items_mapped self) "Entry") as [bucket|]; [|discriminate].
  split; [reflexivity|]. split; [eexists; reflexivity|].
  apply resolve_resources_spec; assumption.
Qed.

(* the objects after a pass: the entries of the Entry bucket are resolved,
   everything else is as before *)
Lemma resolve_links_objs a st st' self r :
  dicts_wf (objs st) ->
  resolve_links a st = Ok (tt, st') ->
  array_at st a = Some self ->
  objs st' !! r =
  if decide (r ∈ dict_values (bucket_of self "Entry"))
  then resolved_resource self <$> objs st !! r
  else objs st !! r.
Proof.
  intros Hwf H Ha. destruct (resolve_links_spec a st st' Hwf H) as (self' & Ha' & _ & ->).
  rewrite Ha in Ha'. injection Ha' as <-. cbn [objs].
  apply alter_all_lookup. apply resolved_resource_idemp.
Qed.

Lemma resolve_links_lists a st st' self l :
  dicts_wf (objs st) ->
  resolve_links a st = Ok (tt, st') ->
  array_at st a = Some self ->
  lists st' !! l =
  if decide (l ∈ refs_of (objs st) (dict_values (bucket_of self "Entry")))
  then resolved_list self <$> lists st !! l
  else lists st !! l.
Proof.
  intros Hwf H Ha. destruct (resolve_links_spec a st st' Hwf H) as (self' & Ha' & _ & ->).
  rewrite Ha in Ha'. injection Ha' as <-. cbn [lists].
  apply alter_all_lookup. apply resolved_list_idemp.
Qed.

Lemma resolve_links_array a st st' self :
  dicts_wf (objs st) ->
  resolve_links a st = Ok (tt, st') ->
  array_at st a = Some self ->
  array_at st' a = Some self.
Proof.
  intros Hwf H Ha. unfold array_at in *.
  rewrite (resolve_links_objs a st st' self a Hwf H Ha).
  destruct (objs st !! a) as [o|]; [|discriminate].
  destruct o; try discriminate. case_decide; exact Ha.
Qed.

Lemma elem_of_refs_of os rs l :
  l ∈ refs_of os rs <-> exists r o, r ∈ rs /\ os !! r = Some o /\ l ∈ field_refs o.
Proof.
  unfold refs_of. rewrite list_elem_of_In, in_flat_map. split.
  - intros (r & Hr & Hl). destruct (os !! r) as [o|] eqn:E; [|destruct Hl].
    exists r, o. rewrite !list_elem_of_In. auto.
  - intros (r & o & Hr & E & Hl). exists r. rewrite E, <- !list_elem_of_In. auto.
Qed.

Lemma elem_of_list_refs d l :
  l ∈ list_refs d <-> exists k, (k, VList l) ∈ d.
Proof.
  unfold list_refs. rewrite list_elem_of_omap. split.
  - intros ([k v] & Hin & Hv). destruct v; try discriminate.
    injection Hv as ->. exists k. exact Hin.
  - intros (k & Hin). exists (k, VList l). auto.
Qed.

(** ** Decoding: what each step does to the store *)

Lemma new_list_Ok vs st v st' :
  new_list vs st = Ok (v, st') <->
  v = VList (length (lists st)) /\ st' = mkStore (objs st) (lists st ++ [vs]).
Proof. unfold new_list. split; [intros [= <- <-]; auto | intros [-> ->]; reflexivity]. Qed.

Lemma new_obj_Ok o st v st' :
  new_obj o st = Ok (v, st') <->
  v = VRes (length (objs st)) /\ st' = mkStore (objs st ++ [o]) (lists st).
Proof. unfold new_obj. split; [intros [= <- <-]; auto | intros [-> ->]; reflexivity]. Qed.

Lemma extends_refl st : extends st st.
Proof. split; reflexivity. Qed.

Lemma extends_trans st1 st2 st3 : extends st1 st2 -> extends st2 st3 -> extends st1 st3.
Proof. intros [H1 H2] [H3 H4]. split; etrans; eassumption. Qed.

Lemma elem_of_sset {V} (d : list (string * V)) k v kv :
  kv ∈ sset d k v -> kv ∈ d \/ kv = (k, v).
Proof.
  unfold sset. induction d as [|[k0 v0] d IH]; simpl.
  - intros H%list_elem_of_singleton. right. exact H.
  - destruct (String.eqb k0 k) eqn:E.
    + apply String.eqb_eq in E. subst k0. intros [->|H]%elem_of_cons.
      * right. reflexivity.
      * left. apply list_elem_of_further, H.
    + intros [->|H]%elem_of_cons.
      * left. apply list_elem_of_here.
      * destruct (IH H) as [H'|H']; [left; apply list_elem_of_further, H' | right; exact H'].
Qed.

Lemma sset_fresh {V} (d : list (string * V)) k v :
  k ∉ dict_keys d -> sset d k v = d ++ [(k, v)].
Proof.
  unfold sset, dict_keys. induction d as [|[k0 v0] d IH]; simpl; intros H.
  - reflexivity.
  - apply not_elem_of_cons in H as [Hne H].
    rewrite (proj2 (String.eqb_neq k0 k)) by (intros ->; contradiction).
    rewrite IH by exact H. reflexivity.
Qed.

Lemma dict_keys_sset_subset {V} (d : list (string * V)) k v k' :
  k' ∈ dict_keys (sset d k v) <-> k' ∈ dict_keys d \/ k' = k.
Proof.
  unfold sset. rewrite (dict_keys_set String.eqb).
  rewrite elem_of_app. destruct (dict_get String.eqb d k) eqn:E.
  - rewrite elem_of_nil. split; [intros [H|[]]; auto | intros [H| ->]; [auto|]].
    left. apply dict_get_In in E; [|apply String.eqb_eq].
    unfold dict_keys. apply list_elem_of_fmap. exists (k, v0). auto.
  - rewrite list_elem_of_singleton. reflexivity.
Qed.

Lemma loaded_prefix n st st' v :
  lists st `prefix_of` lists st' -> loaded n st v -> loaded n st' v.
Proof.
  intros Hp. destruct v; simpl; try tauto.
  intros [Hn [js Hl]]. split; [exact Hn|]. exists js.
  eapply prefix_lookup_Some; eassumption.
Qed.

Lemma dict_object_spec d : forall acc st res st',
  dict_object d acc st = Ok (res, st') ->
  objs st' = objs st
  /\ lists st `prefix_of` lists st'
  /\ (NoDup (dict_keys acc) -> NoDup (dict_keys res))
  /\ (forall kv, kv ∈ res -> kv ∈ acc \/ loaded (length (lists st)) st' (snd kv)).
Proof.
  induction d as [|[k j] d IH]; intros acc st res st' H; simpl in H.
  - minv. repeat split; auto.
  - minv.
    match goal with
    | Hv : _ = Ok (?v, ?st1) |- _ =>
        assert (Hst : objs st1 = objs st /\ lists st `prefix_of` lists st1
                      /\ loaded (length (lists st)) st1 v)
    end.
    { destruct j; minv; try (repeat split; auto; reflexivity).
      match goal with Hn : new_list _ _ = Ok _ |- _ => apply new_list_Ok in Hn as [-> ->] end.
      simpl. repeat split; [apply prefix_app_r; reflexivity | lia |].
      exists l. rewrite lookup_app_r by lia. rewrite Nat.sub_diag. reflexivity. }
    destruct Hst as (Ho & Hp & Hv).
    apply IH in H as (Ho' & Hp' & Hnd & Hin).
    split; [congruence|]. split; [etrans; eassumption|].
    split; [intros Hacc; apply Hnd, sset_NoDup, Hacc|].
    intros kv Hkv. destruct (Hin kv Hkv) as [Hs|Hl].
    + apply elem_of_sset in Hs as [Hs| ->]; [left; exact Hs|]. right. simpl.
      eapply loaded_prefix; eassumption.
    + right. destruct (snd kv); simpl in *; try tauto.
      destruct Hl as [Hn Hjs]. split; [|exact Hjs].
      apply prefix_length in Hp. lia.
Qed.

Lemma dict_keys_sset_present {V} (d : list (string * V)) k v :
  k ∈ dict_keys d -> dict_keys (sset d k v) = dict_keys d.
Proof.
  intros Hk. unfold sset. rewrite (dict_keys_set String.eqb).
  destruct (dict_get String.eqb d k) eqn:E; [apply app_nil_r|].
  apply (dict_get_None String.eqb String.eqb_eq) in E. contradiction.
Qed.

Section DecodeFacts.
Variable entries_mapping : list (pykey * pyclass).
Variable parse_date : string -> outcome datetime.
Variable literal_eval : string -> outcome json.
Variable str_other : store -> pyvalue -> string.

Lemma replace_links_in_list_spec l eles : forall idx st st',
  replace_links_in_list l idx eles st = Ok (tt, st') ->
  objs st' = objs st /\ exists f, lists st' = alter f l (lists st).
Proof.
  induction eles as [|ele eles IH]; intros idx st st' H; simpl in H.
  - minv. split; [reflexivity|]. exists id. symmetry. apply list_alter_id. reflexivity.
  - minv.
    match goal with
    | Hw : match ?x with Some _ => _ | None => _ end _ = Ok _ |- _ =>
        destruct x; [unfold write_list in Hw; injection Hw as <- <- | minv]
    end.
    + apply IH in H as [Ho [f Hf]]. simpl in *. split; [exact Ho|].
      rewrite Hf, list_alter_alter_eq. eexists; reflexivity.
    + apply IH in H. exact H.
Qed.

Lemma replace_links_spec its : forall fields st fields' st',
  replace_links its fields st = Ok (fields', st') ->
  objs st' = objs st
  /\ length (lists st') = length (lists st)
  /\ (forall l, l ∉ list_refs its -> lists st' !! l = lists st !! l)
  /\ ((forall k, k ∈ dict_keys its -> k ∈ dict_keys fields) ->
      dict_keys fields' = dict_keys fields)
  /\ (forall l, l ∈ list_refs fields' -> l ∈ list_refs fields).
Proof.
  induction its as [|[k v] its IH]; intros fields st fields' st' H; simpl in H.
  - minv. repeat split; auto.
  - minv. rewrite list_refs_cons.
    assert (Hsub : forall k', k' ∈ dict_keys its -> k' ∈ dict_keys ((k, v) :: its))
      by (intros k' Hk'; apply list_elem_of_further, Hk').
    match goal with
    | Hx : _extract_link _ = Ok ?x |- _ => destruct x as [lk|]
    end.
    + apply IH in H as (Ho & Hlen & Hl & Hk & Hr).
      split; [exact Ho|]. split; [exact Hlen|]. split.
      { intros l Hnl. apply Hl. destruct v; auto. intros Hin. apply Hnl. right. exact Hin. }
      split.
      { intros Hkeys. rewrite Hk.
        - apply dict_keys_sset_present, Hkeys, list_elem_of_here.
        - intros k' Hk'. apply dict_keys_sset_subset. left. auto. }
      intros l Hin. apply Hr in Hin. apply elem_of_list_refs in Hin as [k' Hin].
      apply elem_of_sset in Hin as [Hin|Heq].
      * apply elem_of_list_refs. eauto.
      * injection Heq as -> Heq.
        match goal with Hx : _extract_link _ = Ok (Some _) |- _ =>
          unfold _extract_link in Hx; repeat (case_match; minv; try discriminate) end.
    + destruct v; try (apply IH in H as (Ho & Hlen & Hl & Hk & Hr);
                       repeat split; auto; fail).
      minv.
      match goal with
      | Hr : read_list _ _ = Ok _ |- _ => unfold read_list in Hr; injection Hr as <- <-
      end.
      match goal with
      | Hr : replace_links_in_list _ _ _ _ = Ok (?u, _) |- _ =>
          destruct u; apply replace_links_in_list_spec in Hr as [Ho1 [f Hf]]
      end.
      apply IH in H as (Ho & Hlen & Hl & Hk & Hr).
      split; [congruence|]. split; [rewrite Hlen, Hf; apply length_alter|]. split.
      { intros l' Hnl. apply not_elem_of_cons in Hnl as [Hne Hnl].
        rewrite Hl by exact Hnl. rewrite Hf. apply list_lookup_alter_ne. congruence. }
      split; [intros Hkeys; apply Hk; auto | exact Hr].
Qed.

Lemma py_bool_store v st b st' : py_bool v st = Ok (b, st') -> st' = st.
Proof.
  destruct v; simpl; intros H; minv; try reflexivity.
  match goal with Hr : read_list _ _ = Ok _ |- _ => unfold read_list in Hr; injection Hr as <- <- end.
  reflexivity.
Qed.

Lemma py_str_store v st s st' :
  py_str str_other v st = Ok (s, st') -> st' = st.
Proof. unfold py_str. intros [= _ <-]. reflexivity. Qed.

Lemma convert_value_store v f st v' st' :
  convert_value parse_date literal_eval str_other v f st = Ok (v', st') ->
  objs st' = objs st
  /\ lists st `prefix_of` lists st'
  /\ (forall l, v' = VList l ->
        v = VList l \/ (length (lists st) <= l < length (lists st'))%nat).
Proof.
  unfold convert_value. intros H.
  assert (Hsame : forall x, st' = st -> x = v' ->
            (forall l, x = VList l -> v = VList l) ->
            objs st' = objs st /\ lists st `prefix_of` lists st'
            /\ (forall l, v' = VList l ->
                  v = VList l \/ (length (lists st) <= l < length (lists st'))%nat)).
  { intros x -> <- Hx. repeat split; auto. }
  destruct (field_type f).
  - destruct (isinstance_bool v); minv; [apply (Hsame v); auto|].
    match goal with Hb : py_bool _ _ = Ok _ |- _ => apply py_bool_store in Hb as -> end.
    eapply Hsame; [reflexivity..|discriminate].
  - minv.
    assert (x0 = st) as ->.
    { destruct v as [[]| | | |]; minv; try reflexivity;
        match goal with Hs : py_str _ _ _ = Ok _ |- _ => apply py_str_store in Hs; exact Hs end. }
    eapply Hsame; [reflexivity..|discriminate].
  - minv. apply (Hsame v); auto.
  - minv. apply (Hsame v); auto.
  - destruct (isinstance_int v); minv; [apply (Hsame v); auto|].
    eapply Hsame; [reflexivity..|discriminate].
  - destruct (isinstance_dict v); minv; [apply (Hsame v); auto|].
    destruct v as [[]| | | |]; minv.
    eapply Hsame; [reflexivity..|discriminate].
  - destruct (isinstance_str v); minv; [apply (Hsame v); auto|].
    match goal with Hs : py_str _ _ _ = Ok _ |- _ => apply py_str_store in Hs as -> end.
    eapply Hsame; [reflexivity..|discriminate].
  - destruct (isinstance_str v); minv; [apply (Hsame v); auto|].
    match goal with Hs : py_str _ _ _ = Ok _ |- _ => apply py_str_store in Hs as -> end.
    eapply Hsame; [reflexivity..|discriminate].
  - destruct (isinstance_list v); minv; [apply (Hsame v); auto|].
    apply new_list_Ok in H as [-> ->]. simpl.
    repeat split; [apply prefix_app_r; reflexivity|].
    intros l [= <-]. right. rewrite length_app. simpl. lia.
  - destruct (isinstance_list v); minv; [apply (Hsame v); auto|].
    apply new_list_Ok in H as [-> ->]. simpl.
    repeat split; [apply prefix_app_r; reflexivity|].
    intros l [= <-]. right. rewrite length_app. simpl. lia.
  - destruct (isinstance_list v); minv; [apply (Hsame v); auto|].
    apply new_list_Ok in H as [-> ->]. simpl.
    repeat split; [apply prefix_app_r; reflexivity|].
    intros l [= <-]. right. rewrite length_app. simpl. lia.
Qed.

Lemma sget_list_refs (d : list (string * pyvalue)) k l :
  sget d k = Some (VList l) -> l ∈ list_refs d.
Proof.
  intros H. apply elem_of_list_refs. exists k.
  apply (dict_get_In String.eqb String.eqb_eq), H.
Qed.

Lemma set_entry_fields_spec efs : forall fields cf st cf' st',
  set_entry_fields parse_date literal_eval str_other efs fields cf st = Ok (cf', st') ->
  objs st' = objs st
  /\ lists st `prefix_of` lists st'
  /\ (NoDup (dict_keys (default [] cf)) -> NoDup (dict_keys (default [] cf')))
  /\ (forall l, l ∈ list_refs (default [] cf') ->
        l ∈ list_refs (default [] cf) \/ l ∈ list_refs fields
        \/ (length (lists st) <= l < length (lists st'))%nat).
Proof.
  induction efs as [|[k f] efs IH]; intros fields cf st cf' st' H; simpl in H.
  - minv. repeat split; auto.
  - destruct f as [T [fid|]]; simpl in H.
    2:{ apply IH in H. exact H. }
    destruct (default VNone (sget fields fid)) as [j| | | |] eqn:Ev.
    1: destruct j.
    1: { apply IH in H. exact H. }
    all: minv;
      match goal with
      | Hc : convert_value _ _ _ _ _ _ = Ok _ |- _ =>
          apply convert_value_store in Hc as (Ho1 & Hp1 & Hl1)
      end;
      apply IH in H as (Ho & Hp & Hnd & Hl);
      (split; [congruence|]); (split; [etrans; eassumption|]);
      (split; [intros Hcf; apply Hnd; simpl; apply sset_NoDup, Hcf|]);
      intros l' Hin; apply Hl in Hin as [Hin|[Hin|Hin]];
      [ | right; left; exact Hin
        | right; right; apply prefix_length in Hp1; lia ];
      simpl in Hin; apply elem_of_list_refs in Hin as [k' Hin];
      apply elem_of_sset in Hin as [Hin|Heq];
      [ left; apply elem_of_list_refs; eauto | ];
      injection Heq as -> Heq; symmetry in Heq; apply Hl1 in Heq as [Heq|Heq];
      [ right; left; rewrite Heq in Ev;
        destruct (sget fields fid) eqn:Es; simpl in Ev; [|discriminate];
        subst; eapply sget_list_refs; eassumption
      | right; right; apply prefix_length in Hp; lia ].
Qed.

Lemma prefix_from_lookup {A} (l1 l2 : list A) :
  (length l1 <= length l2)%nat ->
  (forall i, (i < length l1)%nat -> l2 !! i = l1 !! i) ->
  l1 `prefix_of` l2.
Proof.
  intros Hlen H. exists (drop (length l1) l2).
  rewrite <- (take_drop (length l1) l2) at 1. f_equal.
  apply list_eq. intros i. destruct (decide (i < length l1)%nat) as [Hi|Hi].
  - rewrite lookup_take_lt by exact Hi. apply H, Hi.
  - rewrite lookup_take_ge by lia. symmetry. apply lookup_ge_None. lia.
Qed.

Lemma loaded_view n st v : loaded n st v -> is_Some (view_value st v).
Proof.
  destruct v; simpl; try tauto; [eexists; reflexivity|].
  intros [_ [js ->]]. change (map VJson js) with (VJson <$> js).
  unfold view_value. cbn [mbind option_bind]. unfold mbind at 1, option_bind at 1.
  rewrite (mapM_fmap_Some view_element VJson js) by reflexivity.
  eexists; reflexivity.
Qed.

Lemma loaded_refs n st d l :
  (forall kv, kv ∈ d -> loaded n st (snd kv)) ->
  l ∈ list_refs d -> (n <= l < length (lists st))%nat.
Proof.
  intros H [k Hin]%elem_of_list_refs. apply H in Hin. simpl in Hin.
  destruct Hin as [Hn [js Hl]]. split; [exact Hn|].
  eapply lookup_lt_Some; exact Hl.
Qed.

Lemma loaded_view_dict n st d :
  (forall kv, kv ∈ d -> loaded n st (snd kv)) -> is_Some (view_dict st d).
Proof.
  intros H. unfold view_dict. apply mapM_is_Some, Forall_forall.
  intros [k v] Hin. simpl. apply H in Hin. simpl in Hin.
  destruct (loaded_view n st v Hin) as [j ->]. eexists; reflexivity.
Qed.

Lemma create_entry_spec json st v st' :
  create_entry entries_mapping parse_date literal_eval str_other json st = Ok (v, st') ->
  exists e,
    v = VRes (length (objs st))
    /\ objs st' = objs st ++ [REntry e]
    /\ lists st `prefix_of` lists st'
    /\ fresh_entry st st' e.
Proof.
  unfold create_entry. intros H.
  apply bind_Ok in H as (sys & s0 & Hsys & H). apply lift_Ok in Hsys as [Hsys ->].
  apply bind_Ok in H as (ct & s0 & Hct & H). apply lift_Ok in Hct as [Hct ->].
  apply bind_Ok in H as (fj & s0 & Hfj & H). apply lift_Ok in Hfj as [Hfj ->].
  destruct fj as [| | | | | |d]; try (apply throw_Ok in H; destruct H).
  apply bind_Ok in H as (f0 & s1 & Hd1 & H).
  apply bind_Ok in H as (raw & s2 & Hd2 & H).
  apply bind_Ok in H as (f & s3 & Hd3 & H).
  apply bind_Ok in H as (clazz & s3' & Hcl & H). apply lift_Ok in Hcl as [Hcl ->].
  apply dict_object_spec in Hd1 as (Ho1 & Hp1 & Hnd1 & Hin1).
  apply dict_object_spec in Hd2 as (Ho2 & Hp2 & _ & Hin2).
  apply replace_links_spec in Hd3 as (Ho3 & Hlen3 & Hl3 & Hk3 & Hr3).
  assert (Hf0 : forall kv, kv ∈ f0 -> loaded (length (lists st)) s1 (snd kv)).
  { intros kv Hkv. destruct (Hin1 kv Hkv) as [Hn|Hl]; [apply elem_of_nil in Hn; destruct Hn | exact Hl]. }
  assert (Hraw : forall kv, kv ∈ raw -> loaded (length (lists s1)) s2 (snd kv)).
  { intros kv Hkv. destruct (Hin2 kv Hkv) as [Hn|Hl]; [apply elem_of_nil in Hn; destruct Hn | exact Hl]. }
  assert (Hrf0 : forall l, l ∈ list_refs f0 -> (length (lists st) <= l < length (lists s1))%nat)
    by (intros l; apply loaded_refs, Hf0).
  assert (Hrraw : forall l, l ∈ list_refs raw -> (length (lists s1) <= l < length (lists s2))%nat)
    by (intros l; apply loaded_refs, Hraw).
  assert (Hp3 : lists st `prefix_of` lists s3).
  { apply prefix_from_lookup.
    - rewrite Hlen3. apply prefix_length. etrans; eassumption.
    - intros i Hi. rewrite Hl3.
      + symmetry. apply prefix_lookup_lt; [exact Hi | etrans; eassumption].
      + intros Hin. apply Hrf0 in Hin. lia. }
  assert (Hraw3 : forall kv, kv ∈ raw -> loaded (length (lists s1)) s3 (snd kv)).
  { intros kv Hkv. specialize (Hraw kv Hkv). destruct (snd kv); simpl in *; try tauto.
    destruct Hraw as [Hn [js Hjs]]. split; [exact Hn|]. exists js.
    rewrite Hl3; [exact Hjs|]. intros Hin. apply Hrf0 in Hin. lia. }
  assert (Hk : dict_keys f = dict_keys f0) by (apply Hk3; auto).
  assert (Hndf : NoDup (dict_keys f)) by (rewrite Hk; apply Hnd1, NoDup_nil_2).
  assert (Hrf : forall l, l ∈ list_refs f -> (length (lists st) <= l < length (lists s1))%nat)
    by (intros l Hl; apply Hrf0, Hr3, Hl).
  pose proof (prefix_length _ _ Hp1) as Hlen1.
  pose proof (prefix_length _ _ Hp2) as Hlen2.
  assert (Hbuild : forall cls cf s4,
            objs s4 = objs s3 -> lists s3 `prefix_of` lists s4 ->
            NoDup (dict_keys (default [] cf)) ->
            (forall l, l ∈ list_refs (default [] cf) ->
               l ∈ list_refs f \/ (length (lists s3) <= l < length (lists s4))%nat) ->
            new_obj (REntry (mkEntry cls sys cf f raw)) s4 = Ok (v, st') ->
            exists e,
              v = VRes (length (objs st))
              /\ objs st' = objs st ++ [REntry e]
              /\ lists st `prefix_of` lists st'
              /\ fresh_entry st st' e).
  { intros cls cf s4 Ho4 Hp4 Hndc Hrc Hnew.
    apply new_obj_Ok in Hnew as [-> ->].
    pose proof (prefix_length _ _ Hp4) as Hlen4.
    exists (mkEntry cls sys cf f raw). simpl.
    rewrite Ho4, Ho3, Ho2, Ho1.
    split; [reflexivity|]. split; [reflexivity|].
    split; [etrans; eassumption|].
    unfold fresh_entry; simpl. split; [exact Hndf|]. split; [exact Hndc|].
    assert (Hfr : forall l, l ∈ list_refs (default [] cf) ++ list_refs f ->
              (length (lists st) <= l < length (lists s1))%nat
              \/ (length (lists s3) <= l < length (lists s4))%nat).
    { intros l [Hl|Hl]%elem_of_app; [apply Hrc in Hl as [Hl|Hl]|]; auto. }
    split; [intros l Hl; apply Hfr in Hl; lia|].
    split.
    - intros l Hl. apply Hrraw in Hl. split; [lia|].
      intros Hin. apply Hfr in Hin. lia.
    - apply (loaded_view_dict (length (lists s1))).
      intros kv Hkv. eapply loaded_prefix; [exact Hp4|]. apply Hraw3, Hkv. }
  destruct clazz as [[|name base attrs efs|other]|].
  - apply (Hbuild None None s3);
      [reflexivity | reflexivity | apply NoDup_nil_2
      | intros l Hl; apply elem_of_nil in Hl; destruct Hl | exact H].
  - apply bind_Ok in H as (cf & s4 & Hs & H).
    apply set_entry_fields_spec in Hs as (Ho4 & Hp4 & Hnd4 & Hl4).
    apply (Hbuild (Some name) cf s4); [exact Ho4 | exact Hp4 | | | exact H].
    + apply Hnd4, NoDup_nil_2.
    + intros l Hl. apply Hl4 in Hl as [Hl|[Hl|Hl]]; auto.
      apply elem_of_nil in Hl. destruct Hl.
  - apply throw_Ok in H. destruct H.
  - apply (Hbuild None None s3);
      [reflexivity | reflexivity | apply NoDup_nil_2
      | intros l Hl; apply elem_of_nil in Hl; destruct Hl | exact H].
Qed.
End DecodeFacts.

(** ** Decoding preserves the store invariants *)

Lemma view_dict_prefix st st' d :
  lists st `prefix_of` lists st' ->
  is_Some (view_dict st d) -> is_Some (view_dict st' d).
Proof.
  intros Hp. unfold view_dict. rewrite !mapM_is_Some, !Forall_forall.
  intros H [k v] Hin. specialize (H _ Hin). simpl in *.
  destruct v; simpl in *; try exact H.
  destruct (lists st !! l) as [vs|] eqn:E; simpl in H; [|destruct H; discriminate].
  rewrite (prefix_lookup_Some _ _ _ _ E Hp). exact H.
Qed.

Lemma extends_objs st st' r o :
  extends st st' -> objs st !! r = Some o -> objs st' !! r = Some o.
Proof. intros [Hp _] H. eapply prefix_lookup_Some; eassumption. Qed.

Lemma store_ok_add_entry st st' e :
  store_ok st ->
  lists st `prefix_of` lists st' ->
  objs st' = objs st ++ [REntry e] ->
  fresh_entry st st' e ->
  store_ok st'.
Proof.
  intros [Hd Hb Hs Hr Hap] Hp Ho (Hn1 & Hn2 & Hf & Hraw & Hv).
  pose proof (prefix_length _ _ Hp) as Hlen.
  assert (Hold : forall r o, objs st !! r = Some o -> forall l,
            l ∈ (field_refs o ++ raw_refs o)%list -> (l < length (lists st))%nat)
    by (intros; eapply Hb; eassumption).
  split.
  - intros r e'. rewrite Ho, lookup_snoc_Some.
    intros [[_ H]|[_ H]]; [apply (Hd r), H|]. injection H as <-. auto.
  - intros r o l. rewrite Ho, lookup_snoc_Some.
    intros [[_ H]|[_ <-]] Hl.
    + specialize (Hold r o H l Hl). lia.
    + apply elem_of_app in Hl as [Hl|Hl]; [apply Hf in Hl | apply Hraw in Hl]; lia.
  - intros r o r' o' l. rewrite Ho, !lookup_snoc_Some.
    intros [[_ H]|[_ <-]] [[_ H']|[_ <-]] Hl Hl'.
    + exact (Hs r o r' o' l H H' Hl Hl').
    + apply Hf in Hl'. assert (l < length (lists st))%nat; [|lia].
      eapply Hold; [exact H|]. apply elem_of_app. right. exact Hl.
    + apply Hraw in Hl as [Hl _]. assert (l < length (lists st))%nat; [|lia].
      eapply Hold; [exact H'|]. apply elem_of_app. left. exact Hl'.
    + apply Hraw in Hl as [_ Hl]. contradiction.
  - intros r e'. rewrite Ho, lookup_snoc_Some.
    intros [[_ H]|[_ H]].
    + eapply view_dict_prefix; [exact Hp|]. eapply Hr; exact H.
    + injection H as <-. exact Hv.
  - intros r o r' o' l. rewrite Ho, !lookup_snoc_Some.
    intros [[_ H]|[-> <-]] [[_ H']|[-> <-]] Hl Hl'.
    + exact (Hap r o r' o' l H H' Hl Hl').
    + apply Hf in Hl'. assert (l < length (lists st))%nat; [|lia].
      eapply Hold; [exact H|]. apply elem_of_app. left. exact Hl.
    + apply Hf in Hl. assert (l < length (lists st))%nat; [|lia].
      eapply Hold; [exact H'|]. apply elem_of_app. left. exact Hl'.
    + reflexivity.
Qed.

Lemma store_ok_add_other st st' o :
  store_ok st ->
  lists st `prefix_of` lists st' ->
  objs st' = objs st ++ [o] ->
  (forall e, o <> REntry e) ->
  store_ok st'.
Proof.
  intros [Hd Hb Hs Hr Hap] Hp Ho Hne.
  pose proof (prefix_length _ _ Hp) as Hlen.
  assert (Hrefs : field_refs o = [] /\ raw_refs o = []).
  { destruct o; try (split; reflexivity). destruct (Hne e eq_refl). }
  destruct Hrefs as [Hfo Hro].
  split.
  - intros r e'. rewrite Ho, lookup_snoc_Some.
    intros [[_ H]|[_ H]]; [apply (Hd r), H | destruct (Hne e' H)].
  - intros r o' l. rewrite Ho, lookup_snoc_Some.
    intros [[_ H]|[_ <-]] Hl.
    + specialize (Hb r o' l H Hl). lia.
    + rewrite Hfo, Hro in Hl. apply elem_of_nil in Hl. destruct Hl.
  - intros r o1 r' o2 l. rewrite Ho, !lookup_snoc_Some.
    intros [[_ H]|[_ <-]] [[_ H']|[_ <-]] Hl.
    + exact (Hs r o1 r' o2 l H H' Hl).
    + rewrite Hfo. apply not_elem_of_nil.
    + rewrite Hro in Hl. apply elem_of_nil in Hl. destruct Hl.
    + rewrite Hfo. apply not_elem_of_nil.
  - intros r e'. rewrite Ho, lookup_snoc_Some.
    intros [[_ H]|[_ H]]; [|destruct (Hne e' H)].
    eapply view_dict_prefix; [exact Hp|]. eapply Hr; exact H.
  - intros r o1 r' o2 l. rewrite Ho, !lookup_snoc_Some.
    intros [[_ H]|[_ <-]] [[_ H']|[_ <-]] Hl Hl'.
    + exact (Hap r o1 r' o2 l H H' Hl Hl').
    + rewrite Hfo in Hl'. apply elem_of_nil in Hl'. destruct Hl'.
    + rewrite Hfo in Hl. apply elem_of_nil in Hl. destruct Hl.
    + rewrite Hfo in Hl. apply elem_of_nil in Hl. destruct Hl.
Qed.

Lemma grows_refl st : grows st st.
Proof. split; [apply extends_refl | auto]. Qed.

Lemma grows_trans st1 st2 st3 : grows st1 st2 -> grows st2 st3 -> grows st1 st3.
Proof. intros [H1 H2] [H3 H4]. split; [eapply extends_trans; eassumption | auto]. Qed.

Lemma decoded_new_other o st v st' :
  (forall e, o <> REntry e) ->
  new_obj o st = Ok (v, st') -> decoded st v st'.
Proof.
  intros Hne [-> ->]%new_obj_Ok. split; [split|].
  - split; simpl; [apply prefix_app_r|]; reflexivity.
  - intros Hok. eapply store_ok_add_other; [exact Hok | | | exact Hne]; reflexivity.
  - right. eexists. split; [reflexivity|]. simpl. rewrite length_app. simpl. lia.
Qed.

Lemma create_asset_decoded json st v st' :
  create_asset json st = Ok (v, st') -> decoded st v st'.
Proof.
  unfold create_asset. intros H.
  apply bind_Ok in H as (sys & s1 & H1 & H). apply lift_Ok in H1 as [_ ->].
  apply bind_Ok in H as (fd & s2 & H2 & H). apply lift_Ok in H2 as [_ ->].
  apply bind_Ok in H as (url & s3 & H3 & H). apply lift_Ok in H3 as [_ ->].
  apply bind_Ok in H as (mt & s4 & H4 & H). apply lift_Ok in H4 as [_ ->].
  eapply decoded_new_other; [|exact H]. discriminate.
Qed.

Lemma create_content_type_decoded json st v st' :
  create_content_type json st = Ok (v, st') -> decoded st v st'.
Proof.
  unfold create_content_type. intros H.
  apply bind_Ok in H as (sys & s1 & H1 & H). apply lift_Ok in H1 as [_ ->].
  apply bind_Ok in H as (fs & s2 & H2 & H). apply lift_Ok in H2 as [_ ->].
  apply bind_Ok in H as (fds & s3 & H3 & H). apply lift_Ok in H3 as [_ ->].
  apply bind_Ok in H as (nm & s4 & H4 & H). apply lift_Ok in H4 as [_ ->].
  apply bind_Ok in H as (df & s5 & H5 & H). apply lift_Ok in H5 as [_ ->].
  eapply decoded_new_other; [|exact H]. discriminate.
Qed.

Lemma create_space_decoded json st v st' :
  create_space json st = Ok (v, st') -> decoded st v st'.
Proof.
  unfold create_space. intros H.
  apply bind_Ok in H as (sys & s1 & H1 & H). apply lift_Ok in H1 as [_ ->].
  apply bind_Ok in H as (nm & s2 & H2 & H). apply lift_Ok in H2 as [_ ->].
  eapply decoded_new_other; [|exact H]. discriminate.
Qed.

Lemma kind_of_Ok v st k st' : kind_of v st = Ok (k, st') -> st' = st.
Proof. unfold kind_of. intros [= _ <-]. reflexivity. Qed.

Lemma sys_id_Ok v st k st' :
  sys_id v st = Ok (k, st') ->
  st' = st /\ exists r o, v = VRes r /\ objs st !! r = Some o.
Proof.
  unfold sys_id. destruct v as [| |r| |]; try discriminate.
  destruct (objs st !! r) as [o|] eqn:E; [|discriminate].
  intros H. apply lift_Ok in H as [_ ->]. split; [reflexivity|]. eauto.
Qed.

Lemma valid_extends st st' v : extends st st' -> valid st v -> valid st' v.
Proof.
  intros [Hp _] [->|(r & -> & Hr)]; [left; reflexivity|].
  right. exists r. split; [reflexivity|]. apply prefix_length in Hp. lia.
Qed.

Lemma kind_at_extends st st' v :
  extends st st' -> valid st v -> kind_at st' v = kind_at st v.
Proof.
  intros [Hp _] [->|(r & -> & Hr)]; [reflexivity|]. simpl.
  destruct (lookup_lt_is_Some_2 _ _ Hr) as [o Ho].
  rewrite (prefix_lookup_Some _ _ _ _ Ho Hp), Ho. reflexivity.
Qed.

Lemma id_at_extends st st' v :
  extends st st' -> valid st v -> id_at st' v = id_at st v.
Proof.
  intros [Hp _] [->|(r & -> & Hr)]; [reflexivity|]. simpl.
  destruct (lookup_lt_is_Some_2 _ _ Hr) as [o Ho].
  rewrite (prefix_lookup_Some _ _ _ _ Ho Hp), Ho. reflexivity.
Qed.

Lemma kind_of_kind_at v st k st' :
  kind_of v st = Ok (k, st') -> st' = st /\ k = kind_at st v.
Proof.
  unfold kind_of, kind_at. intros [= <- <-]. split; reflexivity.
Qed.

Lemma sys_id_id_at v st k st' :
  sys_id v st = Ok (k, st') ->
  st' = st /\ id_at st v = Some k /\ exists r, v = VRes r.
Proof.
  unfold sys_id, id_at. destruct v as [| |r| |]; try discriminate.
  destruct (objs st !! r) as [o|] eqn:E; [|discriminate].
  intros H. apply lift_Ok in H as [H ->]. split; [reflexivity|]. split; [|eauto].
  replace (resource_sys o) with
    (match o with
     | RArray a => array_sys a
     | RAsset sys _ _ | RContentType sys _ _ _ | RSpace sys _ => sys
     | REntry e => entry_sys e
     end) by reflexivity.
  rewrite H. reflexivity.
Qed.

Lemma of_kind_cons st kind v vs :
  of_kind st kind (v :: vs) =
  (if match kind_at st v with Some k => String.eqb k kind | None => false end
   then [v] else []) ++ of_kind st kind vs.
Proof.
  unfold of_kind. simpl.
  destruct (kind_at st v) as [k|]; [destruct (String.eqb k kind)|]; reflexivity.
Qed.

Section ArrayFacts.
Variable f : json -> M pyvalue.
Hypothesis Hf : forall j st v st', f j st = Ok (v, st') -> decoded st v st'.

Lemma decode_each_grows js : forall st vs st',
  decode_each f js st = Ok (vs, st') ->
  grows st st' /\ Forall (valid st') vs.
Proof.
  induction js as [|j js IH]; intros st vs st' H; simpl in H.
  - apply ret_Ok in H as [-> ->]. split; [apply grows_refl | constructor].
  - apply bind_Ok in H as (v & s1 & Hv & H).
    apply bind_Ok in H as (vs' & s2 & Hvs & H).
    apply ret_Ok in H as [-> ->].
    apply Hf in Hv as [Hg Hval]. apply IH in Hvs as [Hg' Hvals].
    split; [eapply grows_trans; eassumption|].
    constructor; [|exact Hvals]. eapply valid_extends; [apply Hg'|exact Hval].
Qed.

Lemma process_items_spec its : forall array st array' st' bA bE,
  process_items f its array st = Ok (array', st') ->
  items_mapped array = buckets bA bE ->
  exists vs,
    decode_each f its st = Ok (vs, st')
    /\ array' = mkArray (array_sys array) (limit array) (skip array) (total array)
                  (items array ++ vs)
                  (buckets (insert_all st' (of_kind st' "Asset" vs) bA)
                           (insert_all st' (of_kind st' "Entry" vs) bE)).
Proof.
  induction its as [|item its IH]; intros array st array' st' bA bE H Hm; simpl in H.
  - apply ret_Ok in H as [-> ->]. exists []. split; [reflexivity|].
    rewrite app_nil_r. destruct array; simpl in *. subst. reflexivity.
  - apply bind_Ok in H as (v & s1 & Hv & H).
    apply bind_Ok in H as (key & s2 & Hk & H).
    apply kind_of_kind_at in Hk as [-> ->].
    apply bind_Ok in H as (arr1 & s3 & Ha & H).
    pose proof (Hf _ _ _ _ Hv) as [Hg1 Hval].
    assert (Harr : s3 = s1 /\ exists bA' bE',
              arr1 = mkArray (array_sys array) (limit array) (skip array) (total array)
                       (items array) (buckets bA' bE')
              /\ forall s, extends s1 s ->
                   bA' = insert_all s (if match kind_at s v with
                                          | Some k => String.eqb k "Asset" | None => false end
                                       then [v] else []) bA
                   /\ bE' = insert_all s (if match kind_at s v with
                                             | Some k => String.eqb k "Entry" | None => false end
                                          then [v] else []) bE).
    { destruct (kind_at s1 v) as [kind|] eqn:Ek.
      - apply bind_Ok in Ha as (id & s4 & Hid & Ha).
        apply sys_id_id_at in Hid as (-> & Hid & r & ->).
        apply lift_Ok in Ha as [Ha ->]. split; [reflexivity|].
        unfold map_item in Ha. rewrite Hm in Ha.
        assert (Hkind : kind = "Asset" \/ kind = "Entry").
        { simpl in Ek. destruct (objs s1 !! r) as [[]|]; inversion Ek; auto. }
        destruct Hkind as [-> | ->]; simpl in Ha; injection Ha as <-.
        + exists (kset bA id r), bE. split; [reflexivity|]. intros s Hs.
          rewrite (kind_at_extends s1 s _ Hs Hval), Ek.
          cbn [String.eqb Ascii.eqb Bool.eqb insert_all fold_left]. unfold insert_one.
          rewrite (id_at_extends s1 s _ Hs Hval), Hid. auto.
        + exists bA, (kset bE id r). split; [reflexivity|]. intros s Hs.
          rewrite (kind_at_extends s1 s _ Hs Hval), Ek.
          cbn [String.eqb Ascii.eqb Bool.eqb insert_all fold_left]. unfold insert_one.
          rewrite (id_at_extends s1 s _ Hs Hval), Hid. auto.
      - apply ret_Ok in Ha as [-> ->]. split; [reflexivity|].
        exists bA, bE. split; [destruct array; simpl in *; subst; reflexivity|].
        intros s Hs. rewrite (kind_at_extends s1 s _ Hs Hval), Ek. auto. }
    destruct Harr as (-> & bA' & bE' & -> & Hb).
    apply IH with (bA := bA') (bE := bE') in H; [|reflexivity].
    destruct H as (vs & Hvs & ->). exists (v :: vs). split.
    + simpl. unfold bind at 1. rewrite Hv. unfold bind at 1. rewrite Hvs. reflexivity.
    + unfold append_item. cbn [items array_sys limit skip total items_mapped].
      rewrite <- app_assoc. cbn [app].
      apply decode_each_grows in Hvs as [[Hext _] _].
      destruct (Hb st' Hext) as [-> ->].
      rewrite !of_kind_cons. unfold insert_all. rewrite !fold_left_app. reflexivity.
Qed.
End ArrayFacts.

Lemma included_present response inc key present rs :
  json_get response "includes" = Ok inc ->
  contains (if json_truth inc then inc else JDict []) key = Ok present ->
  (if present
   then (let? i := subscript (if json_truth inc then inc else JDict []) key in iterate i)
   else Ok []) = Ok rs ->
  rs = included response key.
Proof.
  intros Hinc Hc Hrs. unfold included. rewrite Hinc.
  destruct (json_truth inc) eqn:Et.
  - destruct inc as [|b|z|n d x|s|l|d]; simpl in Hc; try discriminate;
      injection Hc as <-.
    + destruct (String.index 0 key s); [discriminate | congruence].
    + destruct (existsb _ l); [discriminate | congruence].
    + simpl in Hrs. destruct (sget d key) as [j|]; [|congruence].
      simpl in Hrs. rewrite Hrs. reflexivity.
  - simpl in Hc. injection Hc as <-. injection Hrs as <-.
    destruct inc as [|b|z|n d x|s|l|d]; try reflexivity.
    destruct d; [reflexivity | discriminate].
Qed.

Section ArrayIncludes.
Variable f : json -> M pyvalue.
Hypothesis Hf : forall j st v st', f j st = Ok (v, st') -> decoded st v st'.

Lemma process_includes_spec key rs : forall array st array' st' bA bE,
  process_includes f key rs array st = Ok (array', st') ->
  items_mapped array = buckets bA bE ->
  key = "Asset" \/ key = "Entry" ->
  exists vs,
    decode_each f rs st = Ok (vs, st')
    /\ array' = mkArray (array_sys array) (limit array) (skip array) (total array)
                  (items array)
                  (if String.eqb key "Asset"
                   then buckets (insert_all st' vs bA) bE
                   else buckets bA (insert_all st' vs bE)).
Proof.
  induction rs as [|res rs IH]; intros array st array' st' bA bE H Hm Hkey; simpl in H.
  - apply ret_Ok in H as [-> ->]. exists []. split; [reflexivity|].
    destruct array; simpl in *. subst. destruct (String.eqb key "Asset"); reflexivity.
  - apply bind_Ok in H as (v & s1 & Hv & H).
    apply bind_Ok in H as (id & s2 & Hid & H).
    apply sys_id_id_at in Hid as (-> & Hid & r & ->).
    apply bind_Ok in H as (arr1 & s3 & Ha & H).
    apply lift_Ok in Ha as [Ha ->].
    pose proof (Hf _ _ _ _ Hv) as [Hg1 Hval].
    unfold map_item in Ha. rewrite Hm in Ha.
    destruct Hkey as [-> | ->]; simpl in Ha; injection Ha as <-.
    + apply IH with (bA := kset bA id r) (bE := bE) in H; [|reflexivity|auto].
      destruct H as (vs & Hvs & ->). exists (VRes r :: vs). split.
      * simpl. unfold bind at 1. rewrite Hv. unfold bind at 1. rewrite Hvs. reflexivity.
      * apply decode_each_grows in Hvs as [[Hext _] _]; [|exact Hf].
        assert (Hins : forall b, insert_one st' b (VRes r) = kset b id r).
        { intros b. unfold insert_one.
          rewrite (id_at_extends s1 st' _ Hext Hval), Hid. reflexivity. }
        unfold insert_all. cbn [items array_sys limit skip total items_mapped fold_left].
        rewrite !Hins. reflexivity.
    + apply IH with (bA := bA) (bE := kset bE id r) in H; [|reflexivity|auto].
      destruct H as (vs & Hvs & ->). exists (VRes r :: vs). split.
      * simpl. unfold bind at 1. rewrite Hv. unfold bind at 1. rewrite Hvs. reflexivity.
      * apply decode_each_grows in Hvs as [[Hext _] _]; [|exact Hf].
        assert (Hins : forall b, insert_one st' b (VRes r) = kset b id r).
        { intros b. unfold insert_one.
          rewrite (id_at_extends s1 st' _ Hext Hval), Hid. reflexivity. }
        unfold insert_all. cbn [items array_sys limit skip total items_mapped fold_left].
        rewrite !Hins. reflexivity.
Qed.
End ArrayIncludes.

Lemma of_kind_extends st st' kind vs :
  extends st st' -> Forall (valid st) vs -> of_kind st' kind vs = of_kind st kind vs.
Proof.
  intros He Hv. induction Hv as [|v vs Hv _ IH]; [reflexivity|].
  rewrite !of_kind_cons, IH, (kind_at_extends st st' v He Hv). reflexivity.
Qed.

Lemma insert_all_extends st st' vs : forall b,
  extends st st' -> Forall (valid st) vs -> insert_all st' vs b = insert_all st vs b.
Proof.
  intros b He Hv. revert b. induction Hv as [|v vs Hv _ IH]; intros b; [reflexivity|].
  unfold insert_all in *. cbn [fold_left]. rewrite IH. f_equal.
  pose proof (id_at_extends st st' v He Hv) as Hid.
  unfold insert_one. destruct v; try reflexivity. rewrite Hid. reflexivity.
Qed.

Lemma insert_all_app st xs ys b :
  insert_all st (xs ++ ys) b = insert_all st ys (insert_all st xs b).
Proof. apply fold_left_app. Qed.

Lemma Forall_of_kind (P : pyvalue -> Prop) st kind vs :
  Forall P vs -> Forall P (of_kind st kind vs).
Proof.
  intros H. unfold of_kind. rewrite Forall_forall in *. intros v Hv.
  apply H. apply list_elem_of_In in Hv. apply filter_In in Hv as [Hv _].
  apply list_elem_of_In, Hv.
Qed.

Section CreateArray.
Variable f : json -> M pyvalue.
Hypothesis Hf : forall j st v st', f j st = Ok (v, st') -> decoded st v st'.

Lemma include_key_step response inc key array st array' st' bA bE
    (k : Array -> M Array) :
  json_get response "includes" = Ok inc ->
  (let* present := lift (contains (if json_truth inc then inc else JDict []) key) in
   let* array := (if present : bool then
                    let* rs := lift (let? i := subscript
                                         (if json_truth inc then inc else JDict []) key in
                                     iterate i) in
                    process_includes f key rs array
                  else ret array) in
   k array) st = Ok (array', st') ->
  items_mapped array = buckets bA bE ->
  key = "Asset" \/ key = "Entry" ->
  exists vs s1,
    decode_each f (included response key) st = Ok (vs, s1)
    /\ k (mkArray (array_sys array) (limit array) (skip array) (total array)
            (items array)
            (if String.eqb key "Asset"
             then buckets (insert_all s1 vs bA) bE
             else buckets bA (insert_all s1 vs bE))) s1 = Ok (array', st').
Proof.
  intros Hinc H Hm Hkey.
  apply bind_Ok in H as (present & s0 & Hp & H). apply lift_Ok in Hp as [Hp ->].
  apply bind_Ok in H as (arr1 & s1 & Ha & H).
  destruct present.
  - apply bind_Ok in Ha as (rs & s2 & Hrs & Ha). apply lift_Ok in Hrs as [Hrs ->].
    rewrite <- (included_present response inc key true rs Hinc Hp Hrs).
    destruct (process_includes_spec f Hf key rs _ _ _ _ bA bE Ha Hm Hkey)
      as (vs & Hvs & ->).
    exists vs, s1. split; [exact Hvs | exact H].
  - apply ret_Ok in Ha as [-> ->].
    rewrite <- (included_present response inc key false [] Hinc Hp eq_refl).
    exists [], st. split; [reflexivity|].
    replace (mkArray _ _ _ _ _ _) with array; [exact H|].
    destruct array; simpl in *. subst.
    destruct (String.eqb key "Asset"); reflexivity.
Qed.

Lemma create_array_spec response st v st' :
  create_array f response st = Ok (v, st') ->
  exists its vs incA incE st1 st2 st3 arr,
    (let? i := subscript response "items" in iterate i) = Ok its
    /\ decode_each f its st = Ok (vs, st1)
    /\ decode_each f (included response "Asset") st1 = Ok (incA, st2)
    /\ decode_each f (included response "Entry") st2 = Ok (incE, st3)
    /\ v = VRes (length (objs st3))
    /\ st' = mkStore (objs st3 ++ [RArray arr]) (lists st3)
    /\ (let? sys := subscript response "sys" in Ok (Resource_init sys))
       = Ok (array_sys arr)
    /\ items arr = vs
    /\ items_mapped arr =
         buckets (insert_all st' (of_kind st' "Asset" vs ++ incA) [])
                 (insert_all st' (of_kind st' "Entry" vs ++ incE) []).
Proof.
  unfold create_array. intros H.
  apply bind_Ok in H as (sys & s & Hsys & H). apply lift_Ok in Hsys as [Hsys ->].
  apply bind_Ok in H as (tot & s & Ht & H). apply lift_Ok in Ht as [_ ->].
  apply bind_Ok in H as (skp & s & Hs & H). apply lift_Ok in Hs as [_ ->].
  apply bind_Ok in H as (lim & s & Hl & H). apply lift_Ok in Hl as [_ ->].
  apply bind_Ok in H as (res1 & st1 & H1 & H).
  unfold process_array_items in H1.
  apply bind_Ok in H1 as (its & s & Hits & H1). apply lift_Ok in Hits as [Hits ->].
  destruct (process_items_spec f Hf its _ _ _ _ [] [] H1 eq_refl) as (vs & Hvs & ->).
  apply bind_Ok in H as (res2 & st3 & H2 & H).
  unfold process_array_includes in H2.
  apply bind_Ok in H2 as (inc & s & Hinc & H2). apply lift_Ok in Hinc as [Hinc ->].
  cbn [items_mapped buckets dict_keys map fst process_include_keys] in H2.
  eapply include_key_step in H2 as (incA & st2 & HincA & H2);
    [|exact Hinc|reflexivity|auto].
  eapply include_key_step in H2 as (incE & st3' & HincE & H2);
    [|exact Hinc|reflexivity|auto].
  apply ret_Ok in H2 as [-> ->].
  apply new_obj_Ok in H as [-> ->].
  destruct (decode_each_grows f Hf _ _ _ _ Hvs) as [[He1 _] Hv1].
  destruct (decode_each_grows f Hf _ _ _ _ HincA) as [[He2 _] Hv2].
  destruct (decode_each_grows f Hf _ _ _ _ HincE) as [[He3 _] Hv3].
  cbn [array_sys limit skip total items items_mapped app
       String.eqb Ascii.eqb Bool.eqb].
  eexists its, vs, incA, incE, st1, st2, st3', _.
  split; [exact Hits|]. split; [exact Hvs|]. split; [exact HincA|].
  split; [exact HincE|]. split; [reflexivity|]. split; [reflexivity|].
  cbn [array_sys items items_mapped].
  split; [rewrite Hsys; reflexivity|]. split; [reflexivity|].
  match goal with
  | |- context [insert_all ?s (of_kind _ _ _ ++ _)] => set (stf := s)
  end.
  assert (He4 : extends st3' stf)
    by (split; simpl; [apply prefix_app_r|]; reflexivity).
  assert (E13 : extends st1 stf)
    by (eapply extends_trans; [exact He2|]; eapply extends_trans; eassumption).
  assert (E23 : extends st2 stf) by (eapply extends_trans; eassumption).
  rewrite !insert_all_app.
  rewrite !(of_kind_extends st1 stf) by assumption.
  rewrite !(insert_all_extends st1 stf (of_kind st1 _ vs))
    by (try apply Forall_of_kind; assumption).
  rewrite (insert_all_extends st2 stf incA) by assumption.
  rewrite (insert_all_extends st3' stf incE) by assumption.
  reflexivity.
Qed.
End CreateArray.

Section FromJson.
Variable entries_mapping : list (pykey * pyclass).
Variable parse_date : string -> outcome datetime.
Variable literal_eval : string -> outcome json.
Variable str_other : store -> pyvalue -> string.

Lemma create_entry_decoded json st v st' :
  create_entry entries_mapping parse_date literal_eval str_other json st = Ok (v, st') ->
  decoded st v st'.
Proof.
  intros H. apply create_entry_spec in H as (e & -> & Ho & Hp & Hfresh).
  split; [split|].
  - split; [rewrite Ho; apply prefix_app_r; reflexivity | exact Hp].
  - intros Hok. eapply store_ok_add_entry; eassumption.
  - right. eexists. split; [reflexivity|]. rewrite Ho, length_app. simpl. lia.
Qed.

Lemma from_json_decoded depth : forall json st v st',
  from_json entries_mapping parse_date literal_eval str_other depth json st = Ok (v, st') ->
  decoded st v st'.
Proof.
  induction depth as [|n IH]; intros json st v st' H; simpl in H.
  - apply throw_Ok in H. destruct H.
  - apply bind_Ok in H as (ty & s & Hty & H). apply lift_Ok in Hty as [_ ->].
    destruct (eq_str ty "Array").
    { apply create_array_spec in H; [|exact IH].
      destruct H as (its & vs & incA & incE & st1 & st2 & st3 & arr
                     & _ & H1 & H2 & H3 & -> & -> & _).
      apply decode_each_grows in H1 as [G1 _]; [|exact IH].
      apply decode_each_grows in H2 as [G2 _]; [|exact IH].
      apply decode_each_grows in H3 as [G3 _]; [|exact IH].
      assert (D : decoded st3 (VRes (length (objs st3)))
                    (mkStore (objs st3 ++ [RArray arr]) (lists st3))).
      { apply (decoded_new_other (RArray arr)); [discriminate | reflexivity]. }
      destruct D as [G4 Hv]. split; [|exact Hv].
      eapply grows_trans; [exact G1|]. eapply grows_trans; [exact G2|].
      eapply grows_trans; eassumption. }
    destruct (eq_str ty "Entry"); [exact (create_entry_decoded _ _ _ _ H)|].
    destruct (eq_str ty "Asset"); [exact (create_asset_decoded _ _ _ _ H)|].
    destruct (eq_str ty "ContentType"); [exact (create_content_type_decoded _ _ _ _ H)|].
    destruct (eq_str ty "Space"); [exact (create_space_decoded _ _ _ _ H)|].
    apply ret_Ok in H as [-> ->]. split; [apply grows_refl | left; reflexivity].
Qed.

Lemma store_ok_empty : store_ok empty_store.
Proof.
  split; simpl.
  - intros r e H. rewrite lookup_nil in H. discriminate.
  - intros r o l H. rewrite lookup_nil in H. discriminate.
  - intros r o r' o' l H. rewrite lookup_nil in H. discriminate.
  - intros r e H. rewrite lookup_nil in H. discriminate.
  - intros r o r' o' l H. rewrite lookup_nil in H. discriminate.
Qed.

Lemma decode_store_ok json v st :
  decode entries_mapping parse_date literal_eval str_other json empty_store = Ok (v, st) ->
  store_ok st /\ valid st v.
Proof.
  intros H. apply from_json_decoded in H as [[_ Hok] Hv].
  split; [apply Hok, store_ok_empty | exact Hv].
Qed.
End FromJson.

(** ** Decoding, then resolving *)

Lemma resolved_entry_at a st st' self r e :
  dicts_wf (objs st) ->
  resolve_links a st = Ok (tt, st') ->
  array_at st a = Some self ->
  entry_at st r = Some e ->
  entry_at st' r = Some (if decide (r ∈ visited self) then resolved_entry self e else e).
Proof.
  intros Hwf H Ha He. unfold entry_at in *.
  rewrite (resolve_links_objs a st st' self r Hwf H Ha). unfold visited.
  destruct (objs st !! r) as [[]|]; try discriminate. injection He as ->.
  destruct (decide _); reflexivity.
Qed.

Lemma resolved_list_at a st st' self r e l vs :
  dicts_wf (objs st) ->
  resolve_links a st = Ok (tt, st') ->
  array_at st a = Some self ->
  r ∈ visited self ->
  entry_at st r = Some e ->
  l ∈ list_refs (default [] (_cf_cda e)) ++ list_refs (fields e) ->
  lists st !! l = Some vs ->
  lists st' !! l = Some (resolved_list self vs).
Proof.
  intros Hwf H Ha Hr He Hl Hvs.
  rewrite (resolve_links_lists a st st' self l Hwf H Ha), Hvs.
  rewrite decide_True; [reflexivity|].
  apply elem_of_refs_of. unfold entry_at in He.
  destruct (objs st !! r) as [[]|] eqn:Eo; try discriminate. injection He as ->.
  eexists r, _. split; [exact Hr|]. split; [exact Eo | exact Hl].
Qed.


Lemma resolved_value_link self lt id t :
  link_target self lt id = Some t -> resolved_value self (VLink lt id) = VRes t.
Proof. intros H. simpl. rewrite H. reflexivity. Qed.




(** C2 (as stated, refuted): the sequence starts with a placeholder, yet
    the placeholder that follows the plain value "x" is not resolved,
    although its target is in [items_mapped]. *)
Lemma resolve_stops_at_plain_element :
  exists a st0 st self,
    decode [] dateutil_parse literal_eval_unused str_model mixed_doc empty_store
      = Ok (VRes a, st0)
    /\ resolve_links a st0 = Ok (tt, st)
    /\ array_at st a = Some self
    /\ link_target self (JStr "Entry") (JStr "b") = Some 1%nat
    /\ field_of st0 0 "friends" = Some (VList 0)
    /\ lists st0 !! 0%nat = Some [VLink (JStr "Entry") (JStr "b"); VJson (JStr "x");
                                  VLink (JStr "Entry") (JStr "b")]
    /\ lists st !! 0%nat = Some [VRes 1; VJson (JStr "x");
                                 VLink (JStr "Entry") (JStr "b")].
Proof.
  eexists _, _, _, _.
  split; [vm_compute; reflexivity|].
  split; [vm_compute; reflexivity|].
  split; [vm_compute; reflexivity|].
  repeat split; vm_compute; reflexivity.
Qed.

(** C2 (amended): for a sequence slot of an entry of the "Entry" bucket,
    the pass resolves, in place and position by position, the placeholders
    of the leading run of placeholders, and leaves everything from the
    first element that is not a placeholder on as it was; a sequence whose
    first element is not a placeholder is left untouched. *)
Theorem resolve_sequence_leading_run :
  forall reg parse_date literal_eval str_other doc a st st' self r e k l vs,
    decode reg parse_date literal_eval str_other doc empty_store = Ok (VRes a, st) ->
    resolve_links a st = Ok (tt, st') ->
    array_at st a = Some self ->
    r ∈ visited self ->
    entry_at st r = Some e ->
    sget (fields e) k = Some (VList l)
    \/ sget (default [] (_cf_cda e)) k = Some (VList l) ->
    lists st !! l = Some vs ->
    exists vs',
      lists st' !! l = Some vs'
      /\ vs' = resolved_list self vs
      /\ length vs' = length vs
      /\ (forall i, (i < leading_links vs)%nat ->
            vs' !! i = resolved_value self <$> vs !! i)
      /\ (forall i, (leading_links vs <= i)%nat -> vs' !! i = vs !! i)
      /\ (forall v rest, vs = v :: rest -> isinstance_ResourceLink v = false ->
            vs' = vs).
Proof.
  intros reg parse_date literal_eval str_other doc a st st' self r e k l vs
    Hd Hr Ha Hin He Hk Hvs.
  apply decode_store_ok in Hd as [[Hwf _ _ _ _] _].
  exists (resolved_list self vs). split; [|split; [reflexivity|]].
  - eapply resolved_list_at; try eassumption.
    apply elem_of_app. destruct Hk as [Hk|Hk]; [right|left];
      eapply sget_list_refs; exact Hk.
  - split; [apply resolved_list_length|]. split; [|split].
    + intros i Hi. rewrite resolved_list_lookup, decide_True by exact Hi. reflexivity.
    + intros i Hi. rewrite resolved_list_lookup, decide_False by lia. reflexivity.
    + intros v rest -> Hv. destruct v; try discriminate; reflexivity.
Qed.

Lemma resolve_sequence_leading_run_witness :
  exists st st' self e vs vs',
    decode [] dateutil_parse literal_eval_unused str_model mixed_doc empty_store
      = Ok (VRes 2, st)
    /\ resolve_links 2 st = Ok (tt, st')
    /\ array_at st 2 = Some self
    /\ entry_at st 0 = Some e
    /\ sget (fields e) "friends" = Some (VList 0)
    /\ lists st !! 0%nat = Some vs
    /\ leading_links vs = 1%nat
    /\ lists st' !! 0%nat = Some vs'
    /\ vs' !! 0%nat = Some (VRes 1)
    /\ vs' !! 2%nat = Some (VLink (JStr "Entry") (JStr "b")).
Proof.
  pose (st := match decode [] dateutil_parse literal_eval_unused str_model
                      mixed_doc empty_store with
              | Ok (_, s) => s
              | Raise _ => empty_store
              end).
  pose (st' := match resolve_links 2 st with Ok (_, s) => s | Raise _ => st end).
  pose (self := default (mkArray JNull JNull JNull JNull [] []) (array_at st 2)).
  pose (e := default (mkEntry None JNull None [] []) (entry_at st 0)).
  pose (vs := default [] (lists st !! 0%nat)).
  assert (Hd : decode [] dateutil_parse literal_eval_unused str_model
                 mixed_doc empty_store = Ok (VRes 2, st)) by (vm_compute; reflexivity).
  assert (Hr : resolve_links 2 st = Ok (tt, st')) by (vm_compute; reflexivity).
  assert (Ha : array_at st 2 = Some self) by (vm_compute; reflexivity).
  assert (He : entry_at st 0 = Some e) by (vm_compute; reflexivity).
  assert (V : 0%nat ∈ visited self) by (vm_compute; apply list_elem_of_here).
  assert (F : sget (fields e) "friends" = Some (VList 0)) by (vm_compute; reflexivity).
  assert (L : lists st !! 0%nat = Some vs) by (vm_compute; reflexivity).
  assert (N : leading_links vs = 1%nat) by (vm_compute; reflexivity).
  destruct (resolve_sequence_leading_run _ _ _ _ _ _ _ _ _ _ _ "friends" _ _
              Hd Hr Ha V He (or_introl F) L)
    as (vs' & Hvs' & _ & _ & Hlead & Hrest & _).
  exists st, st', self, e, vs, vs'.
  repeat (split; [assumption|]).
  split.
  - rewrite Hlead by (rewrite N; lia). vm_compute. reflexivity.
  - rewrite Hrest by (rewrite N; lia). vm_compute. reflexivity.
Defined.

(** ** When the resolution pass raises *)

Lemma resolve_dict_Ok_links self its : forall dct st res st',
  resolve_dict self its dct st = Ok (res, st') ->
  forall k lt id, (k, VLink lt id) ∈ its ->
    exists o, _resolve_resource_link self lt id = Ok o.
Proof.
  induction its as [|[k0 v0] its IH]; intros dct st res st' H k lt id Hin.
  - apply elem_of_nil in Hin. destruct Hin.
  - apply elem_of_cons in Hin as [Heq|Hin].
    + injection Heq as <- <-. simpl in H.
      apply bind_Ok in H as (o & s & Ho & _). apply lift_Ok in Ho as [Ho _].
      exists o. exact Ho.
    + simpl in H. destruct v0.
      * eapply IH; eassumption.
      * apply bind_Ok in H as (o & s & _ & H). eapply IH; eassumption.
      * eapply IH; eassumption.
      * apply bind_Ok in H as (eles & s & _ & H).
        apply bind_Ok in H as (u & s' & _ & H). eapply IH; eassumption.
      * eapply IH; eassumption.
Qed.

Lemma resolve_resource_Ok_links self r st st' e k lt id :
  resolve_resource self r st = Ok (tt, st') ->
  entry_at st r = Some e ->
  (k, VLink lt id) ∈ fields e \/ (k, VLink lt id) ∈ default [] (_cf_cda e) ->
  exists o, _resolve_resource_link self lt id = Ok o.
Proof.
  unfold resolve_resource, entry_at. intros H He Hin.
  destruct (objs st !! r) as [[]|]; try discriminate. injection He as ->.
  apply bind_Ok in H as (cf & s1 & Hcf & H).
  apply bind_Ok in H as (fs & s2 & Hfs & _).
  destruct Hin as [Hin|Hin].
  - exact (resolve_dict_Ok_links _ _ _ _ _ _ Hfs _ _ _ Hin).
  - exact (resolve_dict_Ok_links _ _ _ _ _ _ Hcf _ _ _ Hin).
Qed.

Lemma resolve_resources_Ok_links self rs : forall st st' r e k lt id,
  dicts_wf (objs st) ->
  resolve_resources self rs st = Ok (tt, st') ->
  r ∈ rs ->
  entry_at st r = Some e ->
  (k, VLink lt id) ∈ fields e \/ (k, VLink lt id) ∈ default [] (_cf_cda e) ->
  exists o, _resolve_resource_link self lt id = Ok o.
Proof.
  induction rs as [|r0 rs IH]; intros st st' r e k lt id Hwf H Hr He Hin.
  - apply elem_of_nil in Hr. destruct Hr.
  - simpl in H. apply bind_Ok in H as ([] & s1 & H0 & H).
    destruct (decide (r0 = r)) as [->|Hne].
    { eapply resolve_resource_Ok_links; eassumption. }
    apply elem_of_cons in Hr as [Hr|Hr]; [congruence|].
    pose proof (resolve_resource_spec self r0 st s1 Hwf H0) as ->.
    eapply (IH _ _ r e); [| exact H | exact Hr | | exact Hin].
    + simpl. apply dicts_wf_alter_resolved, Hwf.
    + unfold entry_at in *. simpl.
      rewrite list_lookup_alter_ne by exact Hne. exact He.
Qed.

Lemma new_obj_array_at o st a st' self :
  new_obj o st = Ok (VRes a, st') -> array_at st' a = Some self -> o = RArray self.
Proof.
  intros [[= ->] ->]%new_obj_Ok. unfold array_at. simpl.
  rewrite lookup_app_r, Nat.sub_diag by lia. simpl.
  destruct o; try discriminate. intros [= ->]. reflexivity.
Qed.

Lemma from_json_array_buckets reg parse_date literal_eval str_other depth json st a st' self :
  from_json reg parse_date literal_eval str_other depth json st = Ok (VRes a, st') ->
  array_at st' a = Some self ->
  exists bA bE, items_mapped self = buckets bA bE.
Proof.
  destruct depth as [|n]; simpl; intros H Ha.
  - apply throw_Ok in H. destruct H.
  - apply bind_Ok in H as (ty & s & Hty & H). apply lift_Ok in Hty as [_ ->].
    destruct (eq_str ty "Array").
    { apply create_array_spec in H; [|apply from_json_decoded].
      destruct H as (its & vs & incA & incE & st1 & st2 & st3 & arr
                     & _ & _ & _ & _ & Hv & -> & _ & _ & Hm).
      assert (Hn : new_obj (RArray arr) st3
                   = Ok (VRes a, mkStore (objs st3 ++ [RArray arr]) (lists st3)))
        by (rewrite Hv; reflexivity).
      apply (new_obj_array_at _ _ _ _ _ Hn) in Ha. injection Ha as ->.
      eexists _, _. exact Hm. }
    destruct (eq_str ty "Entry").
    { apply create_entry_spec in H as (e & [= ->] & Ho & _).
      unfold array_at in Ha. rewrite Ho, lookup_app_r, Nat.sub_diag in Ha by lia.
      discriminate. }
    destruct (eq_str ty "Asset").
    { unfold create_asset in H.
      apply bind_Ok in H as (x1 & s1 & H1 & H). apply lift_Ok in H1 as [_ ->].
      apply bind_Ok in H as (x2 & s2 & H2 & H). apply lift_Ok in H2 as [_ ->].
      apply bind_Ok in H as (x3 & s3 & H3 & H). apply lift_Ok in H3 as [_ ->].
      apply bind_Ok in H as (x4 & s4 & H4 & H). apply lift_Ok in H4 as [_ ->].
      apply (new_obj_array_at _ _ _ _ _ H) in Ha. discriminate. }
    destruct (eq_str ty "ContentType").
    { unfold create_content_type in H.
      apply bind_Ok in H as (x1 & s1 & H1 & H). apply lift_Ok in H1 as [_ ->].
      apply bind_Ok in H as (x2 & s2 & H2 & H). apply lift_Ok in H2 as [_ ->].
      apply bind_Ok in H as (x3 & s3 & H3 & H). apply lift_Ok in H3 as [_ ->].
      apply bind_Ok in H as (x4 & s4 & H4 & H). apply lift_Ok in H4 as [_ ->].
      apply bind_Ok in H as (x5 & s5 & H5 & H). apply lift_Ok in H5 as [_ ->].
      apply (new_obj_array_at _ _ _ _ _ H) in Ha. discriminate. }
    destruct (eq_str ty "Space").
    { unfold create_space in H.
      apply bind_Ok in H as (x1 & s1 & H1 & H). apply lift_Ok in H1 as [_ ->].
      apply bind_Ok in H as (x2 & s2 & H2 & H). apply lift_Ok in H2 as [_ ->].
      apply (new_obj_array_at _ _ _ _ _ H) in Ha. discriminate. }
    apply ret_Ok in H as [[=] _].
Qed.

(** C3 (refuted on a concrete input): the entry's field holds a
    placeholder of kind "Space"; decoding succeeds and the resolution pass
    raises KeyError. *)
Lemma resolve_space_link_raises :
  exists st,
    decode [] dateutil_parse literal_eval_unused str_model space_link_doc empty_store
      = Ok (VRes 1, st)
    /\ field_of st 0 "home" = Some (VLink (JStr "Space") (JStr "s1"))
    /\ resolve_links 1 st = Raise KeyError
    /\ RequestArray_all [] dateutil_parse literal_eval_unused str_model space_link_doc
       = Raise KeyError.
Proof.
  eexists. split; [vm_compute; reflexivity|].
  repeat split; vm_compute; reflexivity.
Qed.

(** C3: the resolution pass does raise.  [items_mapped] of a decoded array
    has the two buckets "Asset" and "Entry" only, and the lookup indexes
    it by the link's kind: whenever an entry of the "Entry" bucket holds,
    directly in a slot of [fields] or of the typed storage, a placeholder
    of any other kind, [resolve_links] ends in an exception. *)
Theorem resolve_raises_on_unmapped_kind :
  forall reg parse_date literal_eval str_other doc a st self r e k kind id,
    decode reg parse_date literal_eval str_other doc empty_store = Ok (VRes a, st) ->
    array_at st a = Some self ->
    r ∈ visited self ->
    entry_at st r = Some e ->
    (k, VLink (JStr kind) id) ∈ fields e
    \/ (k, VLink (JStr kind) id) ∈ default [] (_cf_cda e) ->
    kind <> "Asset" -> kind <> "Entry" ->
    _resolve_resource_link self (JStr kind) id = Raise KeyError
    /\ exists x, resolve_links a st = Raise x.
Proof.
  intros reg parse_date literal_eval str_other doc a st self r e k kind id
    Hd Ha Hr He Hin HnA HnE.
  destruct (from_json_array_buckets _ _ _ _ _ _ _ _ _ _ Hd Ha) as (bA & bE & Hm).
  apply decode_store_ok in Hd as [[Hwf _ _ _ _] _].
  assert (Hraise : _resolve_resource_link self (JStr kind) id = Raise KeyError).
  { unfold _resolve_resource_link. cbn [to_key obind]. rewrite Hm.
    unfold sget, buckets. cbn [dict_get].
    rewrite (proj2 (String.eqb_neq "Asset" kind)) by congruence.
    rewrite (proj2 (String.eqb_neq "Entry" kind)) by congruence. reflexivity. }
  split; [exact Hraise|].
  destruct (resolve_links a st) as [[[] st']|x] eqn:E; [|exists x; reflexivity].
  exfalso.
  assert (E' := E). unfold resolve_links in E'. unfold array_at in Ha.
  destruct (objs st !! a) as [[self'| | | |]|]; try discriminate. injection Ha as ->.
  unfold visited, bucket_of in Hr.
  destruct (sget (items_mapped self) "Entry") as [bucket|]; [|discriminate].
  simpl in Hr.
  destruct (resolve_resources_Ok_links self _ _ _ r e k (JStr kind) id Hwf E' Hr He Hin)
    as [o Ho].
  congruence.
Qed.

Lemma resolve_raises_on_unmapped_kind_witness :
  exists st self e,
    decode [] dateutil_parse literal_eval_unused str_model space_link_doc empty_store
      = Ok (VRes 1, st)
    /\ array_at st 1 = Some self
    /\ 0%nat ∈ visited self
    /\ entry_at st 0 = Some e
    /\ ("home", VLink (JStr "Space") (JStr "s1")) ∈ fields e
    /\ _resolve_resource_link self (JStr "Space") (JStr "s1") = Raise KeyError
    /\ exists x, resolve_links 1 st = Raise x.
Proof.
  pose (st := match decode [] dateutil_parse literal_eval_unused str_model
                      space_link_doc empty_store with
              | Ok (_, s) => s
              | Raise _ => empty_store
              end).
  pose (self := default (mkArray JNull JNull JNull JNull [] []) (array_at st 1)).
  pose (e := default (mkEntry None JNull None [] []) (entry_at st 0)).
  assert (Hd : decode [] dateutil_parse literal_eval_unused str_model
                 space_link_doc empty_store = Ok (VRes 1, st)) by (vm_compute; reflexivity).
  assert (Ha : array_at st 1 = Some self) by (vm_compute; reflexivity).
  assert (V : 0%nat ∈ visited self) by (vm_compute; apply list_elem_of_here).
  assert (He : entry_at st 0 = Some e) by (vm_compute; reflexivity).
  assert (F : ("home", VLink (JStr "Space") (JStr "s1")) ∈ fields e)
    by (vm_compute; apply list_elem_of_here).
  exists st, self, e.
  repeat (split; [assumption|]).
  apply (resolve_raises_on_unmapped_kind _ _ _ _ _ _ _ _ _ _ "home" "Space" (JStr "s1")
           Hd Ha V He (or_introl F)); discriminate.
Defined.

(** ** The typed storage against [fields] *)

Section TypedFacts.
Variable entries_mapping : list (pykey * pyclass).
Variable parse_date : string -> outcome datetime.
Variable literal_eval : string -> outcome json.
Variable str_other : store -> pyvalue -> string.

Lemma set_entry_fields_typed efs : forall fields cf st cf' st' fid v',
  set_entry_fields parse_date literal_eval str_other efs fields cf st = Ok (cf', st') ->
  sget (default [] cf') fid = Some v' ->
  sget (default [] cf) fid = Some v'
  \/ exists k fld v s s',
       (k, fld) ∈ efs /\ field_id fld = Some fid /\ sget fields fid = Some v
       /\ convert_value parse_date literal_eval str_other v fld s = Ok (v', s').
Proof.
  induction efs as [|[k f] efs IH]; intros fields cf st cf' st' fid v' H Hv; simpl in H.
  - apply ret_Ok in H as [-> _]. left. exact Hv.
  - assert (Hrest : forall cf1 s1,
              set_entry_fields parse_date literal_eval str_other efs fields cf1 s1
                = Ok (cf', st') ->
              sget (default [] cf1) fid = Some v'
              \/ exists k' fld v s s',
                   (k', fld) ∈ (k, f) :: efs /\ field_id fld = Some fid
                   /\ sget fields fid = Some v
                   /\ convert_value parse_date literal_eval str_other v fld s
                      = Ok (v', s')).
    { intros cf1 s1 H1. destruct (IH _ _ _ _ _ _ _ H1 Hv)
        as [Hl|(k' & fld & v & s & s' & Hin & Hrest)]; [left; exact Hl|].
      right. exists k', fld, v, s, s'. split; [apply list_elem_of_further, Hin | exact Hrest]. }
    destruct f as [T [fid0|]]; simpl in H; [|apply Hrest in H; exact H].
    destruct (sget fields fid0) as [v0|] eqn:Ev; simpl in H; [|apply Hrest in H; exact H].
    assert (Hconv : forall value s1,
              convert_value parse_date literal_eval str_other v0 (mkField T (Some fid0)) st
                = Ok (value, s1) ->
              set_entry_fields parse_date literal_eval str_other efs fields
                (Field_set (mkField T (Some fid0)) cf value) s1 = Ok (cf', st') ->
              sget (default [] cf) fid = Some v'
              \/ exists k' fld v s s',
                   (k', fld) ∈ (k, mkField T (Some fid0)) :: efs /\ field_id fld = Some fid
                   /\ sget fields fid = Some v
                   /\ convert_value parse_date literal_eval str_other v fld s
                      = Ok (v', s')).
    { intros value s1 Hc H1. apply Hrest in H1 as [Hl|Hr]; [|right; exact Hr].
      simpl in Hl. destruct (decide (fid0 = fid)) as [->|Hne].
      - rewrite sget_sset_eq in Hl. injection Hl as ->. right.
        exists k, (mkField T (Some fid)), v0, st, s1.
        split; [apply list_elem_of_here|]. repeat split; assumption.
      - rewrite sget_sset_ne in Hl by exact Hne. left. exact Hl. }
    destruct v0 as [j| | | |]; [destruct j|..];
      try (apply bind_Ok in H as (value & s1 & Hc & H); exact (Hconv _ _ Hc H)).
    apply Hrest in H. exact H.
Qed.





Lemma create_entry_typed json st r st' e fid v' :
  create_entry entries_mapping parse_date literal_eval str_other json st
    = Ok (VRes r, st') ->
  entry_at st' r = Some e ->
  sget (default [] (_cf_cda e)) fid = Some v' ->
  exists fld v s s',
    field_id fld = Some fid /\ sget (fields e) fid = Some v
    /\ convert_value parse_date literal_eval str_other v fld s = Ok (v', s').
Proof.
  unfold create_entry. intros H He Hv.
  apply bind_Ok in H as (sys & s0 & H0 & H). apply lift_Ok in H0 as [_ ->].
  apply bind_Ok in H as (ct & s0 & H0 & H). apply lift_Ok in H0 as [_ ->].
  apply bind_Ok in H as (fj & s0 & H0 & H). apply lift_Ok in H0 as [_ ->].
  destruct fj as [| | | | | |d]; try (apply throw_Ok in H; destruct H).
  apply bind_Ok in H as (fields0 & s1 & _ & H).
  apply bind_Ok in H as (raw & s2 & _ & H).
  apply bind_Ok in H as (fields1 & s3 & _ & H).
  apply bind_Ok in H as (clazz & s4 & Hc & H). apply lift_Ok in Hc as [_ ->].
  assert (Hnone : forall o, new_obj (REntry (mkEntry o sys None fields1 raw)) s3
                            = Ok (VRes r, st') -> False).
  { intros o [[= ->] ->]%new_obj_Ok. unfold entry_at in He. simpl in He.
    rewrite lookup_app_r, Nat.sub_diag in He by lia. injection He as <-.
    simpl in Hv. discriminate. }
  destruct clazz as [[|name base attrs efs|name]|];
    try (destruct (Hnone _ H)); try (apply throw_Ok in H; destruct H).
  apply bind_Ok in H as (cf & s5 & Hset & H).
  apply new_obj_Ok in H as [[= ->] ->]. unfold entry_at in He. simpl in He.
  rewrite lookup_app_r, Nat.sub_diag in He by lia. injection He as <-.
  simpl in *.
  destruct (set_entry_fields_typed _ _ _ _ _ _ _ _ Hset Hv)
    as [Hl|(k & fld & v & s & s' & _ & Hid & Hf & Hcv)]; [discriminate|].
  exists fld, v, s, s'. auto.
Qed.
End TypedFacts.




Lemma plain_registry_kget reg k c :
  plain_registry reg = true -> kget reg k = Some c -> plain_class c = true.
Proof.
  unfold plain_registry. intros Hp Hk.
  apply (dict_get_In key_eqb key_eqb_eq) in Hk. apply list_elem_of_In in Hk.
  rewrite forallb_forall in Hp. apply (Hp (k, c) Hk).
Qed.



(** ** The copy kept in [raw_fields] *)

Lemma view_dict_nil st : view_dict st [] = Some [].
Proof. reflexivity. Qed.

Lemma view_dict_cons st k v d :
  view_dict st ((k, v) :: d) =
  match view_value st v, view_dict st d with
  | Some j, Some dj => Some ((k, j) :: dj)
  | _, _ => None
  end.
Proof.
  unfold view_dict. simpl. destruct (view_value st v); simpl; [|reflexivity].
  destruct (mapM _ d); reflexivity.
Qed.

Lemma view_value_agree st st' v :
  (forall l, v = VList l -> lists st' !! l = lists st !! l) ->
  view_value st' v = view_value st v.
Proof. intros H. destruct v; simpl; try reflexivity. rewrite (H _ eq_refl). reflexivity. Qed.

Lemma view_dict_agree st st' d :
  (forall l, l ∈ list_refs d -> lists st' !! l = lists st !! l) ->
  view_dict st' d = view_dict st d.
Proof.
  induction d as [|[k v] d IH]; intros H; [reflexivity|].
  rewrite !view_dict_cons, IH.
  - rewrite (view_value_agree st st' v); [reflexivity|].
    intros l ->. apply H. rewrite list_refs_cons. apply list_elem_of_here.
  - intros l Hl. apply H. rewrite list_refs_cons.
    destruct v; try exact Hl. apply list_elem_of_further, Hl.
Qed.

Lemma view_value_prefix st st' v j :
  lists st `prefix_of` lists st' ->
  view_value st v = Some j -> view_value st' v = Some j.
Proof.
  intros Hp. destruct v; simpl; try tauto.
  destruct (lists st !! l) as [vs|] eqn:E; [|discriminate].
  rewrite (prefix_lookup_Some _ _ _ _ E Hp). tauto.
Qed.

Lemma view_dict_prefix_Some st st' d dj :
  lists st `prefix_of` lists st' ->
  view_dict st d = Some dj -> view_dict st' d = Some dj.
Proof.
  intros Hp. revert dj. induction d as [|[k v] d IH]; intros dj; [tauto|].
  rewrite !view_dict_cons.
  destruct (view_value st v) as [j|] eqn:Ev; [|discriminate].
  destruct (view_dict st d) as [dj'|]; [|discriminate].
  rewrite (view_value_prefix st st' v j Hp Ev), (IH dj' eq_refl). tauto.
Qed.

Lemma view_dict_sset st acc accj k v j :
  view_dict st acc = Some accj ->
  view_value st v = Some j ->
  view_dict st (sset acc k v) = Some (sset accj k j).
Proof.
  intros Ha Hv. revert accj Ha. unfold sset.
  induction acc as [|[k0 v0] acc IH]; intros accj Ha.
  - injection Ha as <-. cbn [dict_set]. rewrite view_dict_cons, Hv. reflexivity.
  - rewrite view_dict_cons in Ha.
    destruct (view_value st v0) as [j0|] eqn:E0; [|discriminate].
    destruct (view_dict st acc) as [dj|] eqn:Ed; [|discriminate].
    injection Ha as <-. cbn [dict_set]. destruct (String.eqb k0 k).
    + rewrite view_dict_cons, Hv, Ed. reflexivity.
    + rewrite view_dict_cons, E0, (IH dj eq_refl). reflexivity.
Qed.

Lemma dict_object_view d : forall acc accj st res st',
  dict_object d acc st = Ok (res, st') ->
  view_dict st acc = Some accj ->
  view_dict st' res = Some (fold_left (fun a '(k, j) => sset a k j) d accj).
Proof.
  induction d as [|[k j] d IH]; intros acc accj st res st' H Ha; simpl in H.
  - apply ret_Ok in H as [-> ->]. exact Ha.
  - apply bind_Ok in H as (v & s1 & Hv & H).
    assert (Hs1 : lists st `prefix_of` lists s1 /\ view_value s1 v = Some j).
    { destruct j;
        try (apply ret_Ok in Hv as [-> ->]; split; reflexivity).
      apply new_list_Ok in Hv as [-> ->]. simpl.
      split; [apply prefix_app_r; reflexivity|].
      rewrite lookup_app_r, Nat.sub_diag by lia. simpl.
      change (map VJson l) with (VJson <$> l).
      unfold mbind at 1, option_bind at 1.
      rewrite (mapM_fmap_Some view_element VJson l) by reflexivity. reflexivity. }
    destruct Hs1 as [Hp Hview].
    eapply IH; [exact H|]. simpl.
    apply view_dict_sset; [|exact Hview].
    eapply view_dict_prefix_Some; eassumption.
Qed.

Lemma dict_of_members_NoDup d : NoDup (dict_keys d) -> dict_of_members d = d.
Proof.
  unfold dict_of_members.
  assert (H : forall acc, NoDup (dict_keys (acc ++ d)) ->
            fold_left (fun a '(k, j) => sset a k j) d acc = acc ++ d).
  { induction d as [|[k j] d IH]; intros acc Hnd; simpl.
    - rewrite app_nil_r. reflexivity.
    - rewrite sset_fresh.
      + rewrite IH; rewrite <- app_assoc; [reflexivity | exact Hnd].
      + unfold dict_keys in Hnd. rewrite fmap_app in Hnd.
        apply NoDup_app in Hnd as (_ & Hdis & _). intros Hin.
        apply (Hdis k Hin). apply list_elem_of_here. }
  intros Hnd. apply (H []). exact Hnd.
Qed.

Section RawFacts.
Variable entries_mapping : list (pykey * pyclass).
Variable parse_date : string -> outcome datetime.
Variable literal_eval : string -> outcome json.
Variable str_other : store -> pyvalue -> string.

Lemma create_entry_raw json d st r st' e :
  create_entry entries_mapping parse_date literal_eval str_other json st
    = Ok (VRes r, st') ->
  subscript json "fields" = Ok (JDict d) ->
  entry_at st' r = Some e ->
  view_dict st' (raw_fields e) = Some (dict_of_members d).
Proof.
  unfold create_entry. intros H Hfields He.
  apply bind_Ok in H as (sys & s0 & Hsys & H). apply lift_Ok in Hsys as [Hsys ->].
  apply bind_Ok in H as (ct & s0 & Hct & H). apply lift_Ok in Hct as [Hct ->].
  apply bind_Ok in H as (fj & s0 & Hfj & H). apply lift_Ok in Hfj as [Hfj ->].
  rewrite Hfields in Hfj. injection Hfj as <-.
  apply bind_Ok in H as (f0 & s1 & Hd1 & H).
  apply bind_Ok in H as (raw & s2 & Hd2 & H).
  apply bind_Ok in H as (f & s3 & Hd3 & H).
  apply bind_Ok in H as (clazz & s3' & Hcl & H). apply lift_Ok in Hcl as [Hcl ->].
  pose proof (dict_object_view d [] [] s1 raw s2 Hd2 eq_refl) as Hview.
  apply dict_object_spec in Hd1 as (Ho1 & Hp1 & Hnd1 & Hin1).
  apply dict_object_spec in Hd2 as (Ho2 & Hp2 & _ & Hin2).
  apply replace_links_spec in Hd3 as (Ho3 & Hlen3 & Hl3 & Hk3 & Hr3).
  assert (Hrf0 : forall l, l ∈ list_refs f0 -> (length (lists st) <= l < length (lists s1))%nat).
  { intros l. apply loaded_refs. intros kv Hkv.
    destruct (Hin1 kv Hkv) as [Hn|Hl]; [apply elem_of_nil in Hn; destruct Hn | exact Hl]. }
  assert (Hrraw : forall l, l ∈ list_refs raw -> (length (lists s1) <= l < length (lists s2))%nat).
  { intros l. apply loaded_refs. intros kv Hkv.
    destruct (Hin2 kv Hkv) as [Hn|Hl]; [apply elem_of_nil in Hn; destruct Hn | exact Hl]. }
  assert (Hview3 : view_dict s3 raw = Some (dict_of_members d)).
  { rewrite (view_dict_agree s2 s3 raw); [exact Hview|].
    intros l Hl. apply Hl3. intros Hin. apply Hrf0 in Hin. apply Hrraw in Hl. lia. }
  assert (Hbuild : forall cls cf s4,
            lists s3 `prefix_of` lists s4 ->
            new_obj (REntry (mkEntry cls sys cf f raw)) s4 = Ok (VRes r, st') ->
            view_dict st' (raw_fields e) = Some (dict_of_members d)).
  { intros cls cf s4 Hp4 [[= ->] ->]%new_obj_Ok.
    unfold entry_at in He. simpl in He.
    rewrite lookup_app_r, Nat.sub_diag in He by lia. injection He as <-. simpl.
    eapply view_dict_prefix_Some; [|exact Hview3]. exact Hp4. }
  destruct clazz as [[|name base attrs efs|other]|].
  - apply (Hbuild None None s3); [reflexivity | exact H].
  - apply bind_Ok in H as (cf & s4 & Hs & H).
    apply set_entry_fields_spec in Hs as (Ho4 & Hp4 & _).
    apply (Hbuild (Some name) cf s4); [exact Hp4 | exact H].
  - apply throw_Ok in H. destruct H.
  - apply (Hbuild None None s3); [reflexivity | exact H].
Qed.
End RawFacts.

Lemma raw_fields_after_resolve a st st' self r e :
  store_ok st ->
  resolve_links a st = Ok (tt, st') ->
  array_at st a = Some self ->
  entry_at st r = Some e ->
  exists e',
    entry_at st' r = Some e'
    /\ raw_fields e' = raw_fields e
    /\ view_dict st' (raw_fields e') = view_dict st (raw_fields e).
Proof.
  intros [Hwf Hb Hsep Hraw] H Ha He.
  exists (if decide (r ∈ visited self) then resolved_entry self e else e).
  split; [apply (resolved_entry_at a st st' self r e Hwf H Ha He)|].
  assert (Hr : raw_fields (if decide (r ∈ visited self) then resolved_entry self e else e)
               = raw_fields e) by (destruct (decide _); reflexivity).
  split; [exact Hr|]. rewrite Hr.
  apply view_dict_agree. intros l Hl.
  rewrite (resolve_links_lists a st st' self l Hwf H Ha).
  rewrite decide_False; [reflexivity|].
  intros (r' & o' & _ & Ho' & Hin)%elem_of_refs_of.
  unfold entry_at in He. destruct (objs st !! r) as [[]|] eqn:Eo; try discriminate.
  injection He as ->.
  exact (Hsep r _ r' o' l Eo Ho' Hl Hin).
Qed.

(** C10: an entry built by the decoder carries in [raw_fields] a copy of
    the JSON field mapping, read back as that very mapping, over list
    objects of its own (none shared with [fields] or the typed storage).
    In a decoded store [raw_fields] reads back as plain JSON, so it holds
    no placeholder and no resolved object; a resolution pass leaves it,
    and the list objects under it, as they were: the pass changes nothing
    but [fields] and the typed storage of entries, and no other object. *)
Theorem raw_fields_deep_copy_frame :
  (forall reg parse_date literal_eval str_other json d st r st',
      create_entry reg parse_date literal_eval str_other json st = Ok (VRes r, st') ->
      subscript json "fields" = Ok (JDict d) ->
      exists e,
        entry_at st' r = Some e
        /\ view_dict st' (raw_fields e) = Some (dict_of_members d)
        /\ (NoDup (dict_keys d) -> view_dict st' (raw_fields e) = Some d)
        /\ (forall l, l ∈ raw_refs (REntry e) ->
              (l ∉ field_refs (REntry e)) /\ (length (lists st) <= l)%nat))
  /\ (forall reg parse_date literal_eval str_other doc a st r e,
        decode reg parse_date literal_eval str_other doc empty_store = Ok (VRes a, st) ->
        entry_at st r = Some e ->
        is_Some (view_dict st (raw_fields e)))
  /\ (forall reg parse_date literal_eval str_other doc a st st' self,
        decode reg parse_date literal_eval str_other doc empty_store = Ok (VRes a, st) ->
        resolve_links a st = Ok (tt, st') ->
        array_at st a = Some self ->
        (forall r e, entry_at st r = Some e ->
           exists e',
             entry_at st' r = Some e'
             /\ raw_fields e' = raw_fields e
             /\ entry_class e' = entry_class e
             /\ entry_sys e' = entry_sys e
             /\ view_dict st' (raw_fields e') = view_dict st (raw_fields e))
        /\ (forall r o, objs st !! r = Some o -> (forall e, o <> REntry e) ->
              objs st' !! r = Some o)).
Proof.
  split; [|split].
  - intros reg parse_date literal_eval str_other json d st r st' H Hf.
    destruct (create_entry_spec _ _ _ _ _ _ _ _ H)
      as (e & [= ->] & Ho & Hp & _ & _ & _ & Hraw & _).
    assert (He : entry_at st' (length (objs st)) = Some e).
    { unfold entry_at. rewrite Ho, lookup_app_r, Nat.sub_diag by lia. reflexivity. }
    pose proof (create_entry_raw _ _ _ _ _ _ _ _ _ _ H Hf He) as Hview.
    exists e. split; [exact He|]. split; [exact Hview|]. split.
    + intros Hnd. rewrite Hview, (dict_of_members_NoDup d Hnd). reflexivity.
    + intros l Hl. destruct (Hraw l Hl) as [Hrange Hsep]. split; [exact Hsep | lia].
  - intros reg parse_date literal_eval str_other doc a st r e Hd He.
    apply decode_store_ok in Hd as [[_ _ _ Hraw _] _].
    unfold entry_at in He. destruct (objs st !! r) as [[]|] eqn:Eo; try discriminate.
    injection He as ->. exact (Hraw r _ Eo).
  - intros reg parse_date literal_eval str_other doc a st st' self Hd Hr Ha.
    apply decode_store_ok in Hd as [Hok _]. split.
    + intros r e He.
      pose proof (resolved_entry_at a st st' self r e (ok_dicts _ Hok) Hr Ha He) as He'.
      destruct (raw_fields_after_resolve a st st' self r e Hok Hr Ha He)
        as (e' & He'' & Hraw & Hview).
      exists e'. split; [exact He''|]. split; [exact Hraw|].
      rewrite He'' in He'. injection He' as ->.
      destruct (decide _); repeat split; try reflexivity; exact Hview.
    + intros r o Ho Hne.
      rewrite (resolve_links_objs a st st' self r (ok_dicts _ Hok) Hr Ha), Ho.
      destruct (decide _); [|reflexivity]. simpl.
      destruct o; try reflexivity. destruct (Hne _ eq_refl).
Qed.

Lemma raw_fields_deep_copy_frame_witness :
  exists st st' self e e',
    decode [] dateutil_parse literal_eval_unused str_model mixed_doc empty_store
      = Ok (VRes 2, st)
    /\ resolve_links 2 st = Ok (tt, st')
    /\ array_at st 2 = Some self
    /\ entry_at st 0 = Some e
    /\ entry_at st' 0 = Some e'
    /\ raw_fields e' = raw_fields e
    /\ view_dict st' (raw_fields e')
       = Some [("friends", JList [link_json "Entry" "b"; JStr "x"; link_json "Entry" "b"]);
               ("others", JList [JStr "x"; link_json "Entry" "b"])].
Proof.
  pose (st := match decode [] dateutil_parse literal_eval_unused str_model
                      mixed_doc empty_store with
              | Ok (_, s) => s
              | Raise _ => empty_store
              end).
  pose (st' := match resolve_links 2 st with Ok (_, s) => s | Raise _ => st end).
  pose (self := default (mkArray JNull JNull JNull JNull [] []) (array_at st 2)).
  pose (e := default (mkEntry None JNull None [] []) (entry_at st 0)).
  assert (Hd : decode [] dateutil_parse literal_eval_unused str_model
                 mixed_doc empty_store = Ok (VRes 2, st)) by (vm_compute; reflexivity).
  assert (Hr : resolve_links 2 st = Ok (tt, st')) by (vm_compute; reflexivity).
  assert (Ha : array_at st 2 = Some self) by (vm_compute; reflexivity).
  assert (He : entry_at st 0 = Some e) by (vm_compute; reflexivity).
  destruct raw_fields_deep_copy_frame as (_ & _ & Hframe).
  destruct (Hframe _ _ _ _ _ _ _ _ _ Hd Hr Ha) as [Hentries _].
  destruct (Hentries 0%nat e He) as (e' & He' & Hraw & _ & _ & Hview).
  exists st, st', self, e, e'.
  repeat (split; [assumption|]).
  rewrite Hview. vm_compute. reflexivity.
Defined.

(** ** Array assembly *)

Lemma kget_kset {V} (b : list (pykey * V)) k' v k :
  kget (kset b k' v) k = if key_eqb k' k then Some v else kget b k.
Proof.
  unfold kget, kset. destruct (key_eqb k' k) eqn:E.
  - apply key_eqb_eq in E as ->. apply (dict_get_set_eq key_eqb key_eqb_eq).
  - apply (dict_get_set_ne key_eqb key_eqb_eq). intros ->.
    rewrite (proj2 (key_eqb_eq k k) eq_refl) in E. discriminate.
Qed.

Lemma insert_all_snoc st vs v b :
  insert_all st (vs ++ [v]) b = insert_one st (insert_all st vs b) v.
Proof. unfold insert_all. rewrite fold_left_app. reflexivity. Qed.

Lemma kget_insert_all st vs : forall b k,
  kget (insert_all st vs b) k =
  match kget (insert_all st vs []) k with
  | Some r => Some r
  | None => kget b k
  end.
Proof.
  induction vs as [|v vs IH] using rev_ind; intros b k; [reflexivity|].
  rewrite !insert_all_snoc. unfold insert_one.
  destruct v as [| |r| |]; try apply IH.
  destruct (id_at st (VRes r)) as [k'|]; [|apply IH].
  rewrite !kget_kset. destruct (key_eqb k' k); [reflexivity | apply IH].
Qed.

Lemma kget_insert_all_origin st vs : forall b k r,
  kget (insert_all st vs b) k = Some r ->
  kget b k = Some r \/ (VRes r ∈ vs /\ id_at st (VRes r) = Some k).
Proof.
  induction vs as [|v vs IH] using rev_ind; intros b k r; [left; assumption|].
  rewrite insert_all_snoc. unfold insert_one.
  assert (Hrest : kget (insert_all st vs b) k = Some r ->
                  kget b k = Some r \/ (VRes r ∈ vs ++ [v] /\ id_at st (VRes r) = Some k)).
  { intros H. apply IH in H as [H|[H1 H2]]; [left; exact H|].
    right. split; [apply elem_of_app; left; exact H1 | exact H2]. }
  destruct v as [| |r0| |]; try exact Hrest.
  destruct (id_at st (VRes r0)) as [k'|] eqn:Eid; [|exact Hrest].
  rewrite kget_kset. destruct (key_eqb k' k) eqn:E; [|exact Hrest].
  apply key_eqb_eq in E as ->. intros [= ->]. right. split; [|exact Eid].
  apply elem_of_app. right. apply list_elem_of_here.
Qed.

(** C8: the array built from a response holds in [items] the decoded
    elements of the response's items, in their order, and in
    [items_mapped] the two buckets "Asset" and "Entry": each is filled by
    inserting, under its remote id, first the decoded items of that kind
    and then the decoded elements of the includes section of that name,
    a later insertion replacing an earlier one under the same id.  A
    response with two entries and one included asset gives two items, one
    mapped asset and two mapped entries. *)
Theorem create_array_assembles :
  (forall reg parse_date literal_eval str_other n response st v st',
      create_array (from_json reg parse_date literal_eval str_other n) response st
        = Ok (v, st') ->
      exists its vs incA incE st1 st2 st3 a arr,
        (let? i := subscript response "items" in iterate i) = Ok its
        /\ decode_each (from_json reg parse_date literal_eval str_other n) its st
           = Ok (vs, st1)
        /\ decode_each (from_json reg parse_date literal_eval str_other n)
             (included response "Asset") st1 = Ok (incA, st2)
        /\ decode_each (from_json reg parse_date literal_eval str_other n)
             (included response "Entry") st2 = Ok (incE, st3)
        /\ v = VRes a
        /\ array_at st' a = Some arr
        /\ items arr = vs
        /\ dict_keys (items_mapped arr) = ["Asset"; "Entry"]
        /\ bucket_of arr "Asset" = insert_all st' (of_kind st' "Asset" vs ++ incA) []
        /\ bucket_of arr "Entry" = insert_all st' (of_kind st' "Entry" vs ++ incE) [])
  /\ (forall st xs ys k,
        kget (insert_all st (xs ++ ys) []) k =
        match kget (insert_all st ys []) k with
        | Some r => Some r
        | None => kget (insert_all st xs []) k
        end)
  /\ (forall st vs k r,
        kget (insert_all st vs []) k = Some r ->
        VRes r ∈ vs /\ id_at st (VRes r) = Some k)
  /\ (exists st arr,
        decode [] dateutil_parse literal_eval_unused str_model mapped_doc empty_store
          = Ok (VRes 3, st)
        /\ array_at st 3 = Some arr
        /\ items arr = [VRes 0; VRes 1]
        /\ length (items arr) = 2%nat
        /\ length (bucket_of arr "Asset") = 1%nat
        /\ length (bucket_of arr "Entry") = 2%nat).
Proof.
  split; [|split; [|split]].
  - intros reg parse_date literal_eval str_other n response st v st' H.
    apply create_array_spec in H; [|apply from_json_decoded].
    destruct H as (its & vs & incA & incE & st1 & st2 & st3 & arr
                   & Hits & Hvs & HA & HE & -> & -> & _ & Hitems & Hm).
    exists its, vs, incA, incE, st1, st2, st3, (length (objs st3)), arr.
    repeat (split; [assumption || reflexivity|]).
    split.
    { unfold array_at. simpl. rewrite lookup_app_r, Nat.sub_diag by lia. reflexivity. }
    split; [exact Hitems|].
    unfold bucket_of. rewrite Hm. repeat split; reflexivity.
  - intros st xs ys k. rewrite insert_all_app. apply kget_insert_all.
  - intros st vs k r H. apply kget_insert_all_origin in H as [H|H]; [discriminate | exact H].
  - eexists _, _. split; [vm_compute; reflexivity|].
    split; [vm_compute; reflexivity|].
    repeat split; vm_compute; reflexivity.
Qed.

Lemma create_array_assembles_witness :
  exists st' arr,
    create_array (from_json [] dateutil_parse literal_eval_unused str_model 1)
      mapped_doc empty_store = Ok (VRes 3, st')
    /\ array_at st' 3 = Some arr
    /\ items arr = [VRes 0; VRes 1]
    /\ bucket_of arr "Asset" = [(KStr "pic", 2%nat)]
    /\ bucket_of arr "Entry" = [(KStr "e1", 0%nat); (KStr "e2", 1%nat)].
Proof.
  pose (st' := match create_array (from_json [] dateutil_parse literal_eval_unused
                                     str_model 1) mapped_doc empty_store with
               | Ok (_, s) => s
               | Raise _ => empty_store
               end).
  assert (H : create_array (from_json [] dateutil_parse literal_eval_unused str_model 1)
                mapped_doc empty_store = Ok (VRes 3, st')) by (vm_compute; reflexivity).
  destruct create_array_assembles as (Hgen & _).
  destruct (Hgen _ _ _ _ _ _ _ _ _ H)
    as (its & vs & incA & incE & st1 & st2 & st3 & a & arr
        & Hits & Hvs & HA & HE & [= <-] & Harr & Hitems & _ & HbA & HbE).
  exists st', arr. split; [exact H|]. split; [exact Harr|].
  vm_compute in Hits. injection Hits as <-.
  vm_compute in Hvs. injection Hvs as <- <-.
  vm_compute in HA. injection HA as <- <-.
  vm_compute in HE. injection HE as <- <-.
  split; [exact Hitems|].
  split; [rewrite HbA | rewrite HbE]; vm_compute; reflexivity.
Defined.

(** ** The recursion budget of [decode] is enough *)

Lemma json_depth_list_elem x l : x ∈ l -> (json_depth x < json_depth (JList l))%nat.
Proof.
  simpl. induction l as [|y l IH]; intros H.
  - apply elem_of_nil in H. destruct H.
  - apply elem_of_cons in H as [->|H]; simpl; [lia|]. specialize (IH H). lia.
Qed.

Lemma json_depth_sget d k v : sget d k = Some v -> (json_depth v < json_depth (JDict d))%nat.
Proof.
  unfold sget. simpl. induction d as [|[k0 v0] d IH]; simpl; [discriminate|].
  destruct (String.eqb k0 k); [intros [= ->]; lia|].
  intros H. specialize (IH H). lia.
Qed.

Lemma json_depth_subscript j k v : subscript j k = Ok v -> (json_depth v < json_depth j)%nat.
Proof.
  unfold subscript. destruct j as [| | | | | |d]; try discriminate.
  destruct (sget d k) as [v'|] eqn:E; [|discriminate].
  intros [= <-]. apply json_depth_sget with k. exact E.
Qed.

Lemma json_depth_iterate j l x :
  iterate j = Ok l -> x ∈ l -> (json_depth x <= json_depth j)%nat.
Proof.
  destruct j as [| | | |s|l0|d]; try discriminate; intros [= <-] Hx.
  - apply list_elem_of_fmap in Hx as (c & -> & _). simpl. lia.
  - apply json_depth_list_elem in Hx. lia.
  - apply list_elem_of_fmap in Hx as ([k v] & -> & _). simpl. lia.
Qed.

Lemma json_depth_included response key x :
  x ∈ included response key -> (json_depth x < json_depth response)%nat.
Proof.
  unfold included, json_get. destruct response as [| | | | | |d];
    try (intros H; apply elem_of_nil in H; destruct H).
  destruct (sget d "includes") as [inc|] eqn:Ei; simpl;
    [|intros H; apply elem_of_nil in H; destruct H].
  destruct inc as [| | | | | |d']; try (intros H; apply elem_of_nil in H; destruct H).
  destruct (sget d' key) as [j|] eqn:Ej; [|intros H; apply elem_of_nil in H; destruct H].
  destruct (iterate j) as [l|] eqn:El; [|intros H; apply elem_of_nil in H; destruct H].
  intros Hx. pose proof (json_depth_iterate j l x El Hx).
  pose proof (json_depth_sget d' key j Ej).
  pose proof (json_depth_sget d "includes" _ Ei). simpl in *. lia.
Qed.

Lemma bind_ext {A B} (m m' : M A) (k k' : A -> M B) st :
  m st = m' st ->
  (forall a s, m' st = Ok (a, s) -> k a s = k' a s) ->
  bind m k st = bind m' k' st.
Proof.
  intros Hm Hk. unfold bind. rewrite Hm.
  destruct (m' st) as [[a s]|]; [apply Hk|]; reflexivity.
Qed.

Section Extensional.
Variables f g : json -> M pyvalue.

Lemma process_items_ext its :
  (forall j st, j ∈ its -> f j st = g j st) ->
  forall array st, process_items f its array st = process_items g its array st.
Proof.
  induction its as [|item its IH]; intros H array st; [reflexivity|].
  simpl. apply bind_ext; [apply H, list_elem_of_here|]. intros v s1 _.
  apply bind_ext; [reflexivity|]. intros key s2 _.
  apply bind_ext; [reflexivity|]. intros arr s3 _.
  apply IH. intros j st' Hj. apply H. apply list_elem_of_further, Hj.
Qed.

Lemma process_includes_ext key rs :
  (forall j st, j ∈ rs -> f j st = g j st) ->
  forall array st, process_includes f key rs array st = process_includes g key rs array st.
Proof.
  induction rs as [|res rs IH]; intros H array st; [reflexivity|].
  simpl. apply bind_ext; [apply H, list_elem_of_here|]. intros v s1 _.
  apply bind_ext; [reflexivity|]. intros id s2 _.
  apply bind_ext; [reflexivity|]. intros arr s3 _.
  apply IH. intros j st' Hj. apply H. apply list_elem_of_further, Hj.
Qed.

Lemma process_include_keys_ext response inc keys :
  json_get response "includes" = Ok inc ->
  (forall key j st, j ∈ included response key -> f j st = g j st) ->
  forall array st,
    process_include_keys f keys (if json_truth inc then inc else JDict []) array st
    = process_include_keys g keys (if json_truth inc then inc else JDict []) array st.
Proof.
  intros Hinc H. induction keys as [|key keys IH]; intros array st; [reflexivity|].
  simpl. apply bind_ext; [reflexivity|]. intros present s1 Hp.
  apply lift_Ok in Hp as [Hp ->].
  apply bind_ext; [|intros; apply IH].
  destruct present; [|reflexivity].
  apply bind_ext; [reflexivity|]. intros rs s2 Hrs. apply lift_Ok in Hrs as [Hrs ->].
  apply process_includes_ext. intros j st' Hj. apply (H key).
  rewrite <- (included_present response inc key true rs Hinc Hp Hrs). exact Hj.
Qed.

Lemma create_array_ext response :
  (forall j st, (json_depth j < json_depth response)%nat -> f j st = g j st) ->
  forall st, create_array f response st = create_array g response st.
Proof.
  intros H st. unfold create_array.
  apply bind_ext; [reflexivity|]. intros sys s1 _.
  apply bind_ext; [reflexivity|]. intros tot s2 _.
  apply bind_ext; [reflexivity|]. intros skp s3 _.
  apply bind_ext; [reflexivity|]. intros lim s4 _.
  apply bind_ext.
  - unfold process_array_items. apply bind_ext; [reflexivity|].
    intros its s5 Hits. apply lift_Ok in Hits as [Hits ->].
    apply process_items_ext. intros j st' Hj. apply H.
    apply obind_Ok in Hits as (i & Hi & Hits).
    pose proof (json_depth_subscript _ _ _ Hi).
    pose proof (json_depth_iterate _ _ _ Hits Hj). lia.
  - intros arr s5 _. apply bind_ext; [|reflexivity].
    unfold process_array_includes. apply bind_ext; [reflexivity|].
    intros inc s6 Hinc. apply lift_Ok in Hinc as [Hinc ->].
    cbv zeta. apply (process_include_keys_ext response inc); [exact Hinc|].
    intros key j st' Hj. apply H. eapply json_depth_included, Hj.
Qed.
End Extensional.

Lemma from_json_fuel reg parse_date literal_eval str_other n : forall m j st,
  (json_depth j < n)%nat -> (n <= m)%nat ->
  from_json reg parse_date literal_eval str_other m j st
  = from_json reg parse_date literal_eval str_other n j st.
Proof.
  induction n as [|n IH]; intros m j st Hj Hm; [lia|].
  destruct m as [|m]; [lia|]. simpl.
  apply bind_ext; [reflexivity|]. intros ty s _.
  destruct (eq_str ty "Array"); [|reflexivity].
  apply create_array_ext. intros x st' Hx. apply IH; lia.
Qed.

Lemma decode_fuel reg parse_date literal_eval str_other m j st :
  (json_depth j < m)%nat ->
  from_json reg parse_date literal_eval str_other m j st
  = decode reg parse_date literal_eval str_other j st.
Proof. intros H. unfold decode. apply from_json_fuel; lia. Qed.

(** ** When the resolution pass returns *)

Lemma run_resolvable_resolved_list self vs :
  run_resolvable self vs = true -> run_resolvable self (resolved_list self vs) = true.
Proof.
  induction vs as [|v vs IH]; [reflexivity|].
  destruct v as [| lt id | | |]; try (intros _; reflexivity).
  cbn [run_resolvable resolved_list]. intros [Hl Hr]%andb_prop.
  unfold resolved_value. destruct (link_target self lt id); [reflexivity|].
  cbn [run_resolvable]. rewrite Hl, (IH Hr). reflexivity.
Qed.

Lemma resolve_list_returns self l eles : forall idx st,
  run_resolvable self eles = true ->
  exists st', resolve_list self l idx eles st = Ok (tt, st').
Proof.
  induction eles as [|v eles IH]; intros idx st H.
  - exists st. reflexivity.
  - destruct v as [| lt id | | |]; try (exists st; reflexivity).
    cbn [run_resolvable] in H. apply andb_prop in H as [Hl Hr].
    cbn [resolve_list]. unfold link_resolvable in Hl.
    destruct (_resolve_resource_link self lt id) as [o|] eqn:E; [|discriminate].
    unfold bind at 1. unfold lift. 
    destruct o as [t|].
    + unfold bind at 1. unfold write_list. apply IH, Hr.
    + unfold bind at 1. unfold ret. apply IH, Hr.
Qed.

Lemma lists_resolvable_alter self (ls : list (list pyvalue)) (l l' : nat) :
  run_resolvable self (default [] (ls !! l')) = true ->
  run_resolvable self (default [] (alter (resolved_list self) l ls !! l')) = true.
Proof.
  intros H. rewrite list_lookup_alter.
  destruct (decide (l = l')) as [->|Hne]; [|exact H].
  destruct (ls !! l') as [vs|]; simpl in *; [|reflexivity].
  apply run_resolvable_resolved_list, H.
Qed.

Lemma lists_resolvable_alter_all self ixs : forall (ls : list (list pyvalue)) (l' : nat),
  run_resolvable self (default [] (ls !! l')) = true ->
  run_resolvable self (default [] (alter_all (resolved_list self) ixs ls !! l')) = true.
Proof.
  induction ixs as [|i ixs IH]; intros ls l' H; [exact H|].
  change (alter_all (resolved_list self) (i :: ixs) ls)
    with (alter_all (resolved_list self) ixs (alter (resolved_list self) i ls)).
  apply IH, lists_resolvable_alter, H.
Qed.

Lemma dict_resolvable_alter_all self ixs ls d :
  dict_resolvable self ls d ->
  dict_resolvable self (alter_all (resolved_list self) ixs ls) d.
Proof.
  intros H k v Hin. destruct (H k v Hin) as [Hl Hr]. split; [exact Hl|].
  intros l Hv. apply lists_resolvable_alter_all, (Hr l Hv).
Qed.

Lemma dict_resolvable_resolved_dict self ls d :
  dict_resolvable self ls d -> dict_resolvable self ls (resolved_dict self d).
Proof.
  intros H k v Hin. unfold resolved_dict in Hin.
  apply list_elem_of_fmap in Hin as ([k0 v0] & [= -> ->] & Hin).
  destruct (H k0 v0 Hin) as [Hl Hr].
  destruct v0 as [| lt id | | |]; try (split; [exact Hl | exact Hr]).
  unfold resolved_value. destruct (link_target self lt id).
  - split; [reflexivity | discriminate].
  - split; [exact Hl | exact Hr].
Qed.

Lemma dict_resolvable_tail self ls kv d :
  dict_resolvable self ls (kv :: d) -> dict_resolvable self ls d.
Proof. intros H k v Hin. apply (H k v). apply list_elem_of_further, Hin. Qed.

Lemma resolve_dict_returns self its : forall dct st,
  dict_resolvable self (lists st) its ->
  exists res st' ixs,
    resolve_dict self its dct st = Ok (res, st')
    /\ objs st' = objs st
    /\ lists st' = alter_all (resolved_list self) ixs (lists st).
Proof.
  induction its as [|[k v] its IH]; intros dct st H.
  - exists dct, st, []. repeat split; reflexivity.
  - pose proof (dict_resolvable_tail _ _ _ _ H) as Ht.
    destruct (H k v (list_elem_of_here _ _)) as [Hl Hr].
    destruct v as [j| lt id | r | l | dt]; cbn [resolve_dict].
    + apply IH, Ht.
    + unfold link_resolvable in Hl.
      destruct (_resolve_resource_link self lt id) as [o|] eqn:E; [|discriminate].
      unfold bind at 1. unfold lift. apply IH, Ht.
    + apply IH, Ht.
    + unfold bind at 1. unfold read_list.
      destruct (resolve_list_returns self l (default [] (lists st !! l)) 0%nat st
                  (Hr l eq_refl)) as [st1 H1].
      unfold bind at 1. rewrite H1.
      apply resolve_list_alter in H1 as ->.
      destruct (IH dct (mkStore (objs st) (alter (resolved_list self) l (lists st))))
        as (res & st' & ixs & Hres & Ho & Hls).
      { intros k' v' Hin. destruct (Ht k' v' Hin) as [Hl' Hr']. split; [exact Hl'|].
        intros l' Hv'. simpl. apply lists_resolvable_alter, (Hr' l' Hv'). }
      exists res, st', (l :: ixs). split; [exact Hres|]. split; [exact Ho|]. exact Hls.
    + apply IH, Ht.
Qed.

Lemma resolve_resource_returns self r st :
  resolvable self st r -> exists st', resolve_resource self r st = Ok (tt, st').
Proof.
  unfold resolvable, resolve_resource.
  destruct (objs st !! r) as [[arr|sys url mt|sys fs nm df|e|sys nm]|];
    [intros [] | intros _; exists st; reflexivity | intros _; exists st; reflexivity
    | | intros [] | intros []].
  intros [Hcf Hf].
  destruct (resolve_dict_returns self (default [] (_cf_cda e)) (default [] (_cf_cda e)) st Hcf)
    as (cf & s1 & ixs1 & H1 & Ho1 & Hl1).
  destruct (resolve_dict_returns self (fields e) (fields e) s1) as (fs & s2 & ixs2 & H2 & _).
  { rewrite Hl1. apply dict_resolvable_alter_all, Hf. }
  unfold bind at 1. rewrite H1. unfold bind at 1. rewrite H2.
  eexists. reflexivity.
Qed.

Lemma resolvable_preserved self r st st' r' :
  dicts_wf (objs st) ->
  resolve_resource self r st = Ok (tt, st') ->
  resolvable self st r' -> resolvable self st' r'.
Proof.
  intros Hwf H. apply resolve_resource_spec in H as ->; [|exact Hwf].
  unfold resolvable. cbn [objs lists]. rewrite list_lookup_alter.
  assert (Hsame : forall o,
            match o with
            | REntry e =>
                dict_resolvable self (lists st) (default [] (_cf_cda e))
                /\ dict_resolvable self (lists st) (fields e)
            | RAsset _ _ _ | RContentType _ _ _ _ => True
            | _ => False
            end ->
            match resolved_resource self o with
            | REntry e =>
                dict_resolvable self
                  (alter_all (resolved_list self) (refs_of (objs st) [r]) (lists st))
                  (default [] (_cf_cda e))
                /\ dict_resolvable self
                     (alter_all (resolved_list self) (refs_of (objs st) [r]) (lists st))
                     (fields e)
            | RAsset _ _ _ | RContentType _ _ _ _ => True
            | _ => False
            end
            /\ match o with
               | REntry e =>
                   dict_resolvable self
                     (alter_all (resolved_list self) (refs_of (objs st) [r]) (lists st))
                     (default [] (_cf_cda e))
                   /\ dict_resolvable self
                        (alter_all (resolved_list self) (refs_of (objs st) [r]) (lists st))
                        (fields e)
               | RAsset _ _ _ | RContentType _ _ _ _ => True
               | _ => False
               end).
  { intros [arr|sys url mt|sys fs nm df|e|sys nm]; simpl; try tauto.
    intros [Hcf Hf].
    pose proof (dict_resolvable_alter_all self (refs_of (objs st) [r]) _ _ Hcf) as Hcf'.
    pose proof (dict_resolvable_alter_all self (refs_of (objs st) [r]) _ _ Hf) as Hf'.
    split; [|split; assumption]. split.
    - destruct (_cf_cda e) as [cf|]; simpl in *;
        [apply dict_resolvable_resolved_dict, Hcf' | exact Hcf'].
    - apply dict_resolvable_resolved_dict, Hf'. }
  destruct (decide (r = r')) as [->|Hne];
    (destruct (objs st !! r') as [o|] eqn:Eo; [|intros []]);
    intros Ho; destruct (Hsame o Ho) as [H1 H2]; [exact H1 | exact H2].
Qed.

Lemma resolve_resources_returns self rs : forall st,
  dicts_wf (objs st) ->
  (forall r, r ∈ rs -> resolvable self st r) ->
  exists st', resolve_resources self rs st = Ok (tt, st').
Proof.
  induction rs as [|r rs IH]; intros st Hwf H.
  - exists st. reflexivity.
  - destruct (resolve_resource_returns self r st (H r (list_elem_of_here _ _))) as [s1 H1].
    cbn [resolve_resources]. unfold bind at 1. rewrite H1.
    apply IH.
    + pose proof (resolve_resource_spec self r st s1 Hwf H1) as ->. simpl.
      apply dicts_wf_alter_resolved, Hwf.
    + intros r' Hr'. eapply resolvable_preserved; [exact Hwf | exact H1 |].
      apply H. apply list_elem_of_further, Hr'.
Qed.

(** X3: the resolution pass over a decoded array returns normally when
    every object of the "Entry" bucket is an entry, an asset or a content
    type and, in the entries among them, the lookup of every link held
    directly by a slot of [fields] or of the typed storage, and of every
    link of the leading run of links of a sequence slot, does not raise
    (its kind is "Asset" or "Entry" and its id is hashable). *)
Lemma resolve_links_returns reg parse_date literal_eval str_other doc a st self :
  decode reg parse_date literal_eval str_other doc empty_store = Ok (VRes a, st) ->
  array_at st a = Some self ->
  (forall r, r ∈ visited self -> resolvable self st r) ->
  exists st', resolve_links a st = Ok (tt, st').
Proof.
  intros Hd Ha H.
  destruct (from_json_array_buckets _ _ _ _ _ _ _ _ _ _ Hd Ha) as (bA & bE & Hm).
  apply decode_store_ok in Hd as [[Hwf _ _ _ _] _].
  unfold resolve_links. unfold array_at in Ha.
  destruct (objs st !! a) as [[self'| | | |]|]; try discriminate. injection Ha as ->.
  unfold visited, bucket_of in H. rewrite Hm in *. simpl in *.
  apply resolve_resources_returns; assumption.
Qed.

(** ** A second resolution pass *)

Lemma resolve_links_dicts_wf a st st' :
  dicts_wf (objs st) -> resolve_links a st = Ok (tt, st') -> dicts_wf (objs st').
Proof.
  intros Hwf H. destruct (resolve_links_spec a st st' Hwf H) as (self & Ha & _ & _).
  intros r e He. rewrite (resolve_links_objs a st st' self r Hwf H Ha) in He.
  destruct (objs st !! r) as [o|] eqn:Eo; [|destruct (decide _); discriminate].
  destruct (decide _) as [Hin|Hnin]; simpl in He.
  - destruct o as [| | |e0|]; try discriminate. injection He as <-. simpl.
    destruct (Hwf r e0 Eo) as [H1 H2]. split.
    + rewrite dict_keys_resolved_dict. exact H1.
    + destruct (_cf_cda e0); simpl in *; [rewrite dict_keys_resolved_dict|]; exact H2.
  - injection He as ->. exact (Hwf r e Eo).
Qed.

Lemma resolve_links_refs a st st' self :
  dicts_wf (objs st) ->
  resolve_links a st = Ok (tt, st') ->
  array_at st a = Some self ->
  refs_of (objs st') (visited self) = refs_of (objs st) (visited self).
Proof.
  intros Hwf H Ha. unfold refs_of.
  assert (Hall : forall rs, (forall r, r ∈ rs -> r ∈ visited self) ->
            flat_map (fun r => match objs st' !! r with
                               | Some o => field_refs o | None => [] end) rs
            = flat_map (fun r => match objs st !! r with
                                 | Some o => field_refs o | None => [] end) rs).
  { induction rs as [|r rs IH]; intros Hrs; [reflexivity|]. simpl.
    rewrite IH by (intros r' Hr'; apply Hrs, list_elem_of_further, Hr').
    f_equal. rewrite (resolve_links_objs a st st' self r Hwf H Ha).
    fold (visited self). rewrite decide_True by apply Hrs, list_elem_of_here.
    destruct (objs st !! r); simpl; [apply field_refs_resolved_resource | reflexivity]. }
  apply Hall. auto.
Qed.

Lemma resolve_links_twice a st st1 st2 :
  dicts_wf (objs st) ->
  resolve_links a st = Ok (tt, st1) ->
  resolve_links a st1 = Ok (tt, st2) ->
  st2 = st1.
Proof.
  intros Hwf H1 H2.
  destruct (resolve_links_spec a st st1 Hwf H1) as (self & Ha & _ & _).
  pose proof (resolve_links_dicts_wf a st st1 Hwf H1) as Hwf1.
  pose proof (resolve_links_array a st st1 self Hwf H1 Ha) as Ha1.
  assert (Ho : objs st2 = objs st1).
  { apply list_eq. intros r.
    rewrite (resolve_links_objs a st1 st2 self r Hwf1 H2 Ha1).
    rewrite (resolve_links_objs a st st1 self r Hwf H1 Ha).
    destruct (decide _); [|reflexivity].
    destruct (objs st !! r); simpl; [rewrite resolved_resource_idemp|]; reflexivity. }
  assert (Hl : lists st2 = lists st1).
  { apply list_eq. intros l.
    rewrite (resolve_links_lists a st1 st2 self l Hwf1 H2 Ha1).
    fold (visited self). rewrite (resolve_links_refs a st st1 self Hwf H1 Ha).
    rewrite (resolve_links_lists a st st1 self l Hwf H1 Ha). fold (visited self).
    destruct (decide _); [|reflexivity].
    destruct (lists st !! l); simpl; [rewrite resolved_list_idemp|]; reflexivity. }
  destruct st1, st2. simpl in *. congruence.
Qed.

Lemma resolve_list_Ok_run self l eles : forall idx st st',
  resolve_list self l idx eles st = Ok (tt, st') -> run_resolvable self eles = true.
Proof.
  induction eles as [|v eles IH]; intros idx st st' H; [reflexivity|].
  destruct v as [| lt id | | |]; try reflexivity.
  cbn [resolve_list] in H.
  apply bind_Ok in H as (o & s1 & Ho & H). apply lift_Ok in Ho as [Ho ->].
  apply bind_Ok in H as (u & s2 & _ & H).
  cbn [run_resolvable link_resolvable]. rewrite Ho. simpl. eapply IH, H.
Qed.

Lemma resolve_dict_Ok_resolvable self its : forall dct st res st',
  resolve_dict self its dct st = Ok (res, st') ->
  objs st' = objs st
  /\ (exists ixs, lists st' = alter_all (resolved_list self) ixs (lists st))
  /\ dict_resolvable self (lists st') its.
Proof.
  induction its as [|[k v] its IH]; intros dct st res st' H.
  - apply ret_Ok in H as [_ ->]. split; [reflexivity|]. split; [exists []; reflexivity|].
    intros k v Hin. apply elem_of_nil in Hin. destruct Hin.
  - assert (Hplain : forall dct1,
              resolve_dict self its dct1 st = Ok (res, st') ->
              link_resolvable self v = true ->
              (forall l, v <> VList l) ->
              objs st' = objs st
              /\ (exists ixs, lists st' = alter_all (resolved_list self) ixs (lists st))
              /\ dict_resolvable self (lists st') ((k, v) :: its)).
    { intros dct1 H1 Hl Hnl. destruct (IH _ _ _ _ H1) as (Ho & Hixs & Hd).
      split; [exact Ho|]. split; [exact Hixs|].
      intros k' v' [[= -> ->]|Hin]%elem_of_cons.
      - split; [exact Hl|]. intros l Hv. destruct (Hnl l Hv).
      - apply (Hd k' v' Hin). }
    destruct v as [j| lt id | r | l | dt]; cbn [resolve_dict] in H.
    + apply (Hplain _ H); [reflexivity | discriminate].
    + apply bind_Ok in H as (o & s1 & Ho & H). apply lift_Ok in Ho as [Ho ->].
      apply (Hplain _ H); [|discriminate]. simpl. rewrite Ho. reflexivity.
    + apply (Hplain _ H); [reflexivity | discriminate].
    + apply bind_Ok in H as (eles & s0 & He & H). injection He as <- <-.
      apply bind_Ok in H as ([] & s1 & Hl & H).
      pose proof (resolve_list_Ok_run _ _ _ _ _ _ Hl) as Hrun.
      apply resolve_list_alter in Hl as ->.
      destruct (IH _ _ _ _ H) as (Ho & [ixs Hixs] & Hd). simpl in *.
      split; [exact Ho|]. split; [exists (l :: ixs); exact Hixs|].
      intros k' v' [[= -> ->]|Hin]%elem_of_cons; [|apply (Hd k' v' Hin)].
      split; [reflexivity|]. intros l' [= <-]. rewrite Hixs.
      apply lists_resolvable_alter_all, lists_resolvable_alter, Hrun.
    + apply (Hplain _ H); [reflexivity | discriminate].
Qed.

Lemma resolve_resource_Ok_resolvable self r st st' :
  dicts_wf (objs st) ->
  resolve_resource self r st = Ok (tt, st') ->
  resolvable self st' r.
Proof.
  intros Hwf H. pose proof (resolve_resource_spec self r st st' Hwf H) as Hspec.
  unfold resolve_resource in H. unfold resolvable.
  destruct (objs st !! r) as [[arr|sys url mt|sys fs nm df|e|sys nm]|] eqn:Eo;
    try discriminate.
  - injection H as <-. rewrite Eo. exact I.
  - injection H as <-. rewrite Eo. exact I.
  - apply bind_Ok in H as (cf & s1 & H1 & H).
    apply bind_Ok in H as (fs & s2 & H2 & H).
    assert (Hl : lists st' = lists s2) by (injection H as <-; reflexivity).
    destruct (resolve_dict_Ok_resolvable _ _ _ _ _ _ H1) as (_ & _ & Hd1).
    destruct (resolve_dict_Ok_resolvable _ _ _ _ _ _ H2) as (_ & [ixs Hixs] & Hd2).
    assert (Hobj : objs st' !! r = Some (resolved_resource self (REntry e))).
    { rewrite Hspec. simpl. rewrite list_lookup_alter, decide_True by reflexivity.
      rewrite Eo. reflexivity. }
    rewrite Hobj. simpl. rewrite Hl. split.
    + assert (Hcf : dict_resolvable self (lists s2) (default [] (_cf_cda e)))
        by (rewrite Hixs; apply dict_resolvable_alter_all, Hd1).
      destruct (_cf_cda e); simpl in *;
        [apply dict_resolvable_resolved_dict, Hcf | exact Hcf].
    + apply dict_resolvable_resolved_dict, Hd2.
Qed.

Lemma resolve_resources_keep_resolvable self rs : forall st st' r,
  dicts_wf (objs st) ->
  resolve_resources self rs st = Ok (tt, st') ->
  resolvable self st r -> resolvable self st' r.
Proof.
  induction rs as [|r0 rs IH]; intros st st' r Hwf H Hr.
  - apply ret_Ok in H as [_ ->]. exact Hr.
  - cbn [resolve_resources] in H. apply bind_Ok in H as ([] & s1 & H0 & H).
    apply (IH s1 st' r); [| exact H |].
    + rewrite (resolve_resource_spec self r0 st s1 Hwf H0). simpl.
      apply dicts_wf_alter_resolved, Hwf.
    + eapply resolvable_preserved; eassumption.
Qed.

Lemma resolve_resources_Ok_resolvable self rs : forall st st',
  dicts_wf (objs st) ->
  resolve_resources self rs st = Ok (tt, st') ->
  forall r, r ∈ rs -> resolvable self st' r.
Proof.
  induction rs as [|r0 rs IH]; intros st st' Hwf H r Hr.
  - apply elem_of_nil in Hr. destruct Hr.
  - cbn [resolve_resources] in H. apply bind_Ok in H as ([] & s1 & H0 & H).
    assert (Hwf1 : dicts_wf (objs s1)).
    { rewrite (resolve_resource_spec self r0 st s1 Hwf H0). simpl.
      apply dicts_wf_alter_resolved, Hwf. }
    apply elem_of_cons in Hr as [->|Hr].
    + eapply resolve_resources_keep_resolvable; [exact Hwf1 | exact H |].
      exact (resolve_resource_Ok_resolvable self r0 st s1 Hwf H0).
    + exact (IH s1 st' Hwf1 H r Hr).
Qed.

Lemma resolve_links_again a st st1 :
  dicts_wf (objs st) ->
  resolve_links a st = Ok (tt, st1) ->
  resolve_links a st1 = Ok (tt, st1).
Proof.
  intros Hwf H.
  destruct (resolve_links_spec a st st1 Hwf H) as (self & Ha & [bucket Hb] & _).
  pose proof (resolve_links_dicts_wf a st st1 Hwf H) as Hwf1.
  pose proof (resolve_links_array a st st1 self Hwf H Ha) as Ha1.
  assert (Hres : forall r, r ∈ dict_values bucket -> resolvable self st1 r).
  { unfold resolve_links, array_at in H, Ha.
    destruct (objs st !! a) as [[self'| | | |]|]; try discriminate. injection Ha as ->.
    rewrite Hb in H. apply (resolve_resources_Ok_resolvable _ _ _ _ Hwf H). }
  destruct (resolve_resources_returns self (dict_values bucket) st1 Hwf1 Hres) as [st2 H2].
  assert (H2' : resolve_links a st1 = Ok (tt, st2)).
  { unfold resolve_links, array_at in *.
    destruct (objs st1 !! a) as [[self'| | | |]|]; try discriminate. injection Ha1 as ->.
    rewrite Hb. exact H2. }
  rewrite H2'. rewrite (resolve_links_twice a st st1 st2 Hwf H H2'). reflexivity.
Qed.

Lemma dict_resolvableb_sound self ls d :
  dict_resolvableb self ls d = true -> dict_resolvable self ls d.
Proof.
  unfold dict_resolvableb. rewrite forallb_forall. intros H k v Hin.
  apply list_elem_of_In in Hin. specialize (H _ Hin). simpl in H.
  apply andb_prop in H as [Hl Hr]. split; [exact Hl|]. intros l ->. exact Hr.
Qed.

Lemma resolvableb_sound self st r :
  resolvableb self st r = true -> resolvable self st r.
Proof.
  unfold resolvableb, resolvable.
  destruct (objs st !! r) as [[arr|sys url mt|sys fs nm df|e|sys nm]|];
    try discriminate; try (intros _; exact I).
  intros [H1 H2]%andb_prop. split; apply dict_resolvableb_sound; assumption.
Qed.

Lemma stays_resolved_value self v : stays self v -> resolved_value self v = v.
Proof. destruct v; try reflexivity. simpl. intros ->. reflexivity. Qed.

(** X1: a second resolution pass over a decoded array returns normally
    and leaves the whole store as the first pass left it. *)
Theorem resolve_links_idempotent :
  forall reg parse_date literal_eval str_other doc a st st1,
    decode reg parse_date literal_eval str_other doc empty_store = Ok (VRes a, st) ->
    resolve_links a st = Ok (tt, st1) ->
    resolve_links a st1 = Ok (tt, st1).
Proof.
  intros reg parse_date literal_eval str_other doc a st st1 Hd H.
  apply decode_store_ok in Hd as [[Hwf _ _ _ _] _].
  exact (resolve_links_again a st st1 Hwf H).
Qed.

Lemma resolve_links_idempotent_witness :
  exists st st1,
    decode cat_registry dateutil_parse literal_eval_unused str_model cats_doc empty_store
      = Ok (VRes 2, st)
    /\ resolve_links 2 st = Ok (tt, st1)
    /\ st1 <> st
    /\ resolve_links 2 st1 = Ok (tt, st1).
Proof.
  pose (st := match decode cat_registry dateutil_parse literal_eval_unused str_model
                      cats_doc empty_store with
              | Ok (_, s) => s
              | Raise _ => empty_store
              end).
  pose (st1 := match resolve_links 2 st with Ok (_, s) => s | Raise _ => st end).
  assert (Hd : decode cat_registry dateutil_parse literal_eval_unused str_model
                 cats_doc empty_store = Ok (VRes 2, st)) by (vm_compute; reflexivity).
  assert (Hr : resolve_links 2 st = Ok (tt, st1)) by (vm_compute; reflexivity).
  exists st, st1. split; [exact Hd|]. split; [exact Hr|]. split.
  - vm_compute. discriminate.
  - exact (resolve_links_idempotent _ _ _ _ _ _ _ _ Hd Hr).
Defined.

(** X2: a resolution pass neither adds nor removes anything: the store
    keeps its objects and lists, every entry its field names, every
    sequence its length; a value that is not a link, and a link whose
    target is not found in [items_mapped], is where and what it was. *)
Theorem resolve_links_keeps_the_rest :
  forall reg parse_date literal_eval str_other doc a st st' self,
    decode reg parse_date literal_eval str_other doc empty_store = Ok (VRes a, st) ->
    resolve_links a st = Ok (tt, st') ->
    array_at st a = Some self ->
    length (objs st') = length (objs st)
    /\ length (lists st') = length (lists st)
    /\ (forall r e, entry_at st r = Some e ->
          exists e',
            entry_at st' r = Some e'
            /\ dict_keys (fields e') = dict_keys (fields e)
            /\ dict_keys (default [] (_cf_cda e')) = dict_keys (default [] (_cf_cda e))
            /\ forall k v, stays self v ->
                 (sget (fields e) k = Some v -> sget (fields e') k = Some v)
                 /\ (sget (default [] (_cf_cda e)) k = Some v ->
                     sget (default [] (_cf_cda e')) k = Some v))
    /\ (forall l vs, lists st !! l = Some vs ->
          exists vs',
            lists st' !! l = Some vs'
            /\ length vs' = length vs
            /\ forall i v, vs !! i = Some v -> stays self v -> vs' !! i = Some v).
Proof.
  intros reg parse_date literal_eval str_other doc a st st' self Hd Hr Ha.
  apply decode_store_ok in Hd as [[Hwf _ _ _ _] _].
  destruct (resolve_links_spec a st st' Hwf Hr) as (self' & Ha' & _ & Hst).
  split; [rewrite Hst; simpl; apply alter_all_length|].
  split; [rewrite Hst; simpl; apply alter_all_length|].
  split.
  - intros r e He.
    exists (if decide (r ∈ visited self) then resolved_entry self e else e).
    split; [exact (resolved_entry_at a st st' self r e Hwf Hr Ha He)|].
    destruct (decide (r ∈ visited self)); simpl.
    + split; [apply dict_keys_resolved_dict|]. split.
      * destruct (_cf_cda e); simpl; [apply dict_keys_resolved_dict | reflexivity].
      * intros k v Hv. split; intros Hk.
        -- rewrite sget_resolved_dict, Hk. simpl. rewrite (stays_resolved_value _ _ Hv).
           reflexivity.
        -- destruct (_cf_cda e); simpl in *; [|discriminate].
           rewrite sget_resolved_dict, Hk. simpl. rewrite (stays_resolved_value _ _ Hv).
           reflexivity.
    + repeat split; auto.
  - intros l vs Hvs. rewrite (resolve_links_lists a st st' self l Hwf Hr Ha), Hvs.
    destruct (decide _); simpl.
    + exists (resolved_list self vs). split; [reflexivity|].
      split; [apply resolved_list_length|].
      intros i v Hi Hv. rewrite resolved_list_lookup, Hi.
      destruct (decide _); simpl; [rewrite (stays_resolved_value _ _ Hv)|]; reflexivity.
    + exists vs. repeat split; auto.
Qed.

Lemma resolve_links_keeps_the_rest_witness :
  exists st st' self vs',
    decode [] dateutil_parse literal_eval_unused str_model mixed_doc empty_store
      = Ok (VRes 2, st)
    /\ resolve_links 2 st = Ok (tt, st')
    /\ array_at st 2 = Some self
    /\ lists st !! 0%nat = Some [VLink (JStr "Entry") (JStr "b"); VJson (JStr "x");
                                 VLink (JStr "Entry") (JStr "b")]
    /\ lists st' !! 0%nat = Some vs'
    /\ length vs' = 3%nat
    /\ vs' !! 1%nat = Some (VJson (JStr "x")).
Proof.
  pose (st := match decode [] dateutil_parse literal_eval_unused str_model
                      mixed_doc empty_store with
              | Ok (_, s) => s
              | Raise _ => empty_store
              end).
  pose (st' := match resolve_links 2 st with Ok (_, s) => s | Raise _ => st end).
  pose (self := default (mkArray JNull JNull JNull JNull [] []) (array_at st 2)).
  assert (Hd : decode [] dateutil_parse literal_eval_unused str_model
                 mixed_doc empty_store = Ok (VRes 2, st)) by (vm_compute; reflexivity).
  assert (Hr : resolve_links 2 st = Ok (tt, st')) by (vm_compute; reflexivity).
  assert (Ha : array_at st 2 = Some self) by (vm_compute; reflexivity).
  assert (L : lists st !! 0%nat = Some [VLink (JStr "Entry") (JStr "b"); VJson (JStr "x");
                                        VLink (JStr "Entry") (JStr "b")])
    by (vm_compute; reflexivity).
  destruct (resolve_links_keeps_the_rest _ _ _ _ _ _ _ _ _ Hd Hr Ha)
    as (_ & _ & _ & Hlists).
  destruct (Hlists _ _ L) as (vs' & Hvs' & Hlen & Hkeep).
  exists st, st', self, vs'.
  split; [exact Hd|]. split; [exact Hr|]. split; [exact Ha|]. split; [exact L|].
  split; [exact Hvs'|]. split; [exact Hlen|]. apply Hkeep; [reflexivity | exact I].
Defined.

Lemma resolve_links_returns_witness :
  exists st self,
    decode [] dateutil_parse literal_eval_unused str_model mixed_doc empty_store
      = Ok (VRes 2, st)
    /\ array_at st 2 = Some self
    /\ visited self = [0%nat; 1%nat]
    /\ resolvableb self st 0 = true
    /\ resolvableb self st 1 = true
    /\ exists st', resolve_links 2 st = Ok (tt, st').
Proof.
  pose (st := match decode [] dateutil_parse literal_eval_unused str_model
                      mixed_doc empty_store with
              | Ok (_, s) => s
              | Raise _ => empty_store
              end).
  pose (self := default (mkArray JNull JNull JNull JNull [] []) (array_at st 2)).
  assert (Hd : decode [] dateutil_parse literal_eval_unused str_model
                 mixed_doc empty_store = Ok (VRes 2, st)) by (vm_compute; reflexivity).
  assert (Ha : array_at st 2 = Some self) by (vm_compute; reflexivity).
  assert (Hv : visited self = [0%nat; 1%nat]) by (vm_compute; reflexivity).
  assert (H0 : resolvableb self st 0 = true) by (vm_compute; reflexivity).
  assert (H1 : resolvableb self st 1 = true) by (vm_compute; reflexivity).
  exists st, self.
  split; [exact Hd|]. split; [exact Ha|]. split; [exact Hv|].
  split; [exact H0|]. split; [exact H1|].
  apply (resolve_links_returns _ _ _ _ _ _ _ _ Hd Ha).
  intros r Hr. rewrite Hv in Hr. apply resolvableb_sound.
  apply elem_of_cons in Hr as [->|Hr]; [exact H0|].
  apply elem_of_cons in Hr as [->|Hr]; [exact H1|].
  apply elem_of_nil in Hr. destruct Hr.
Defined.

(** ** Coercion, type by type *)

(** X4: when [convert] returns, its result is in the target
    representation of the declared type, for every type but Object (any
    literal is accepted) and Link (the value is passed through).
    Conversion to Boolean, Text, Symbol, the three list types, Link and
    Location never raises.  Only the conversion of a value that is not a
    list to a list type changes the store: it adds one list of one
    element, the value. *)
Theorem convert_by_type :
  (forall parse_date literal_eval str_other T fid v st v' st',
      convert_value parse_date literal_eval str_other v (mkField T fid) st = Ok (v', st') ->
      T <> Object -> T <> Link ->
      target_representation T v')
  /\ (forall parse_date literal_eval str_other T fid v st,
        T <> Date -> T <> Number -> T <> Object ->
        exists v' st',
          convert_value parse_date literal_eval str_other v (mkField T fid) st
            = Ok (v', st'))
  /\ (forall parse_date literal_eval str_other T fid v st v' st',
        convert_value parse_date literal_eval str_other v (mkField T fid) st = Ok (v', st') ->
        st' = st
        \/ ((T = List \/ T = MultipleAssets \/ T = MultipleEntries)
            /\ isinstance_list v = false
            /\ v' = VList (length (lists st))
            /\ st' = mkStore (objs st) (lists st ++ [[v]]))).
Proof.
  split; [|split].
  - intros parse_date literal_eval str_other T fid v st v' st' H HnO HnL.
    unfold convert_value in H. simpl in H.
    destruct T; simpl; try contradiction; try exact I.
    + destruct (isinstance_bool v) eqn:E.
      * apply ret_Ok in H as [-> _]. exact E.
      * apply bind_Ok in H as (b & s & _ & H). apply ret_Ok in H as [-> _]. reflexivity.
    + apply bind_Ok in H as (s & s1 & _ & H). apply bind_Ok in H as (d & s2 & _ & H).
      apply ret_Ok in H as [-> _]. exists d. reflexivity.
    + destruct (isinstance_int v) eqn:E.
      * apply ret_Ok in H as [-> _]. exact E.
      * apply bind_Ok in H as (z & s & _ & H). apply ret_Ok in H as [-> _]. reflexivity.
    + destruct (isinstance_str v) eqn:E.
      * apply ret_Ok in H as [-> _]. exact E.
      * apply bind_Ok in H as (s & s1 & _ & H). apply ret_Ok in H as [-> _]. reflexivity.
    + destruct (isinstance_str v) eqn:E.
      * apply ret_Ok in H as [-> _]. exact E.
      * apply bind_Ok in H as (s & s1 & _ & H). apply ret_Ok in H as [-> _]. reflexivity.
    + destruct (isinstance_list v) eqn:E.
      * apply ret_Ok in H as [-> _]. exact E.
      * apply new_list_Ok in H as [-> _]. reflexivity.
    + destruct (isinstance_list v) eqn:E.
      * apply ret_Ok in H as [-> _]. exact E.
      * apply new_list_Ok in H as [-> _]. reflexivity.
    + destruct (isinstance_list v) eqn:E.
      * apply ret_Ok in H as [-> _]. exact E.
      * apply new_list_Ok in H as [-> _]. reflexivity.
  - intros parse_date literal_eval str_other T fid v st HnD HnN HnO.
    unfold convert_value. simpl.
    destruct T; try contradiction;
      try (eexists _, _; reflexivity);
      try (destruct (isinstance_list v); eexists _, _; reflexivity);
      try (destruct (isinstance_str v); [eexists _, _; reflexivity|];
           unfold bind, py_str, ret; eexists _, _; reflexivity).
    destruct (isinstance_bool v); [eexists _, _; reflexivity|].
    unfold bind. destruct v as [j| | |l|]; simpl; eexists _, _; reflexivity.
  - intros parse_date literal_eval str_other T fid v st v' st' H.
    unfold convert_value in H. simpl in H.
    assert (Hbool : forall b s, py_bool v st = Ok (b, s) -> s = st).
    { intros b s Hb. destruct v; simpl in Hb; try (injection Hb as _ <-; reflexivity). }
    assert (Hstr : forall x s, py_str str_other v st = Ok (x, s) -> s = st).
    { intros x s Hs. unfold py_str in Hs. injection Hs as _ <-. reflexivity. }
    assert (Hlist : forall T', T = T' ->
              (T' = List \/ T' = MultipleAssets \/ T' = MultipleEntries) ->
              (if isinstance_list v then ret v else new_list [v]) st = Ok (v', st') ->
              st' = st
              \/ ((T = List \/ T = MultipleAssets \/ T = MultipleEntries)
                  /\ isinstance_list v = false
                  /\ v' = VList (length (lists st))
                  /\ st' = mkStore (objs st) (lists st ++ [[v]]))).
    { intros T' -> HT Hl. destruct (isinstance_list v) eqn:E.
      - apply ret_Ok in Hl as [_ ->]. left. reflexivity.
      - apply new_list_Ok in Hl as [-> ->]. right. auto. }
    destruct T; try (eapply Hlist; [reflexivity | auto | exact H]); left.
    + destruct (isinstance_bool v).
      * apply ret_Ok in H as [_ ->]. reflexivity.
      * apply bind_Ok in H as (b & s & Hb & H). apply ret_Ok in H as [_ ->].
        exact (Hbool _ _ Hb).
    + apply bind_Ok in H as (s & s1 & Hs & H). apply bind_Ok in H as (d & s2 & Hd & H).
      apply ret_Ok in H as [_ ->]. apply lift_Ok in Hd as [_ ->].
      destruct v as [j| | | |]; try exact (Hstr _ _ Hs).
      destruct j; exact (Hstr _ _ Hs).
    + apply ret_Ok in H as [_ ->]. reflexivity.
    + apply ret_Ok in H as [_ ->]. reflexivity.
    + destruct (isinstance_int v).
      * apply ret_Ok in H as [_ ->]. reflexivity.
      * apply bind_Ok in H as (z & s & Hz & H). apply ret_Ok in H as [_ ->].
        apply lift_Ok in Hz as [_ ->]. reflexivity.
    + destruct (isinstance_dict v).
      * apply ret_Ok in H as [_ ->]. reflexivity.
      * destruct v as [j| | | |]; try (apply throw_Ok in H; destruct H).
        destruct j; try (apply throw_Ok in H; destruct H).
        apply bind_Ok in H as (x & s1 & Hx & H). apply ret_Ok in H as [_ ->].
        apply lift_Ok in Hx as [_ ->]. reflexivity.
    + destruct (isinstance_str v).
      * apply ret_Ok in H as [_ ->]. reflexivity.
      * apply bind_Ok in H as (s & s1 & Hs & H). apply ret_Ok in H as [_ ->].
        exact (Hstr _ _ Hs).
    + destruct (isinstance_str v).
      * apply ret_Ok in H as [_ ->]. reflexivity.
      * apply bind_Ok in H as (s & s1 & Hs & H). apply ret_Ok in H as [_ ->].
        exact (Hstr _ _ Hs).
Qed.

(** ** What [from_json] builds *)




(** ** Content types *)

Lemma sget_del_key_eq d k : sget (del_key d k) k = None.
Proof.
  unfold sget, del_key. induction d as [|[k0 v0] d IH]; [reflexivity|].
  rewrite filter_cons. destruct (decide _) as [Hp|Hp]; [|exact IH].
  simpl. destruct (String.eqb k0 k) eqn:E; [destruct Hp | exact IH].
Qed.

Lemma sget_del_key_ne d k k' : k' <> k -> sget (del_key d k) k' = sget d k'.
Proof.
  intros Hne. unfold sget, del_key. induction d as [|[k0 v0] d IH]; [reflexivity|].
  rewrite filter_cons. destruct (decide _) as [Hp|Hp]; simpl.
  - rewrite IH. reflexivity.
  - rewrite IH. destruct (String.eqb k0 k) eqn:E; [|destruct Hp; exact I].
    apply String.eqb_eq in E. subst k0.
    rewrite (proj2 (String.eqb_neq k k')) by congruence. reflexivity.
Qed.

Lemma content_type_fields_spec fs : forall acc res,
  content_type_fields fs acc = Ok res ->
  (forall k f, kget res k = Some f ->
     kget acc k = Some f
     \/ exists d idj, JDict d ∈ fs /\ sget d "id" = Some idj /\ to_key idj = Ok k
                      /\ f = JDict (del_key d "id"))
  /\ (forall k, is_Some (kget acc k) -> is_Some (kget res k))
  /\ (forall x, x ∈ fs ->
        exists d idj k, x = JDict d /\ sget d "id" = Some idj /\ to_key idj = Ok k
                        /\ is_Some (kget res k)).
Proof.
  induction fs as [|field fs IH]; intros acc res H; simpl in H.
  - injection H as <-. split; [auto|]. split; [auto|].
    intros x Hx. apply elem_of_nil in Hx. destruct Hx.
  - apply obind_Ok in H as (idj & Hid & H).
    destruct field as [| | | | | |d]; try discriminate.
    apply obind_Ok in H as (k0 & Hk & H).
    simpl in Hid. destruct (sget d "id") as [idj'|] eqn:Ed; [|discriminate].
    injection Hid as ->.
    destruct (IH _ _ H) as (H1 & H2 & H3). split; [|split].
    + intros k f Hf. destruct (H1 k f Hf) as [Hacc|(d' & idj' & Hin & Hrest)].
      * rewrite kget_kset in Hacc. destruct (key_eqb k0 k) eqn:E.
        -- apply key_eqb_eq in E as ->. injection Hacc as <-. right.
           exists d, idj. split; [apply list_elem_of_here | auto].
        -- left. exact Hacc.
      * right. exists d', idj'. split; [apply list_elem_of_further, Hin | exact Hrest].
    + intros k Hk'. apply H2. rewrite kget_kset.
      destruct (key_eqb k0 k); [eexists; reflexivity | exact Hk'].
    + intros x [->|Hx]%elem_of_cons.
      * exists d, idj, k0. repeat split; try assumption.
        apply H2. rewrite kget_kset, (proj2 (key_eqb_eq k0 k0) eq_refl).
        eexists; reflexivity.
      * apply H3, Hx.
Qed.

(** X6: a content type is built only from a response with [sys],
    [name] and a sequence of field objects that each carry an id; its
    [sys] is that of the response, or an empty dict when that one is
    falsy (None, an empty container, zero); its [fields] have a key for
    every field's id, each value being one of the fields with that id,
    without its ["id"] member, and hold nothing else; [displayField] is
    optional and reads as None when absent. *)
Theorem create_content_type_fields :
  forall json st v st',
    create_content_type json st = Ok (v, st') ->
    exists sys fs fields name display,
      subscript json "sys" = Ok sys
      /\ (let? f := subscript json "fields" in iterate f) = Ok fs
      /\ subscript json "name" = Ok name
      /\ json_get json "displayField" = Ok display
      /\ v = VRes (length (objs st))
      /\ st' = mkStore (objs st ++ [RContentType (Resource_init sys) fields name display])
                (lists st)
      /\ (json_truth sys = true -> Resource_init sys = sys)
      /\ (json_truth sys = false -> Resource_init sys = JDict [])
      /\ (forall x, x ∈ fs ->
            exists d idj k, x = JDict d /\ sget d "id" = Some idj /\ to_key idj = Ok k
                            /\ is_Some (kget fields k))
      /\ (forall k f, kget fields k = Some f ->
            exists d idj, JDict d ∈ fs /\ sget d "id" = Some idj /\ to_key idj = Ok k
                          /\ f = JDict (del_key d "id")
                          /\ sget (del_key d "id") "id" = None
                          /\ forall k', k' <> "id" -> sget (del_key d "id") k' = sget d k').
Proof.
  intros json st v st' H. unfold create_content_type in H.
  apply bind_Ok in H as (sys & s1 & H1 & H). apply lift_Ok in H1 as [H1 ->].
  apply bind_Ok in H as (fs & s2 & H2 & H). apply lift_Ok in H2 as [H2 ->].
  apply bind_Ok in H as (fields & s3 & H3 & H). apply lift_Ok in H3 as [H3 ->].
  apply bind_Ok in H as (name & s4 & H4 & H). apply lift_Ok in H4 as [H4 ->].
  apply bind_Ok in H as (display & s5 & H5 & H). apply lift_Ok in H5 as [H5 ->].
  apply new_obj_Ok in H as [-> ->].
  destruct (content_type_fields_spec fs [] fields H3) as (Hfrom & _ & Hall).
  exists sys, fs, fields, name, display.
  split; [exact H1|]. split; [exact H2|]. split; [exact H4|]. split; [exact H5|].
  split; [reflexivity|]. split; [reflexivity|].
  split; [intros Ht; unfold Resource_init; rewrite Ht; reflexivity|].
  split; [intros Ht; unfold Resource_init; rewrite Ht; reflexivity|].
  split; [exact Hall|].
  intros k f Hf. destruct (Hfrom k f Hf) as [Hnil|(d & idj & Hin & Hid & Hk & ->)];
    [discriminate|].
  exists d, idj. repeat (split; [assumption || reflexivity|]).
  split; [apply sget_del_key_eq | intros k' Hne; apply sget_del_key_ne, Hne].
Qed.

Lemma create_content_type_fields_witness :
  exists st' fields,
    create_content_type
      (JDict [("sys", JDict [("id", JStr "cat"); ("type", JStr "ContentType")]);
              ("name", JStr "Cat");
              ("fields", JList [JDict [("id", JStr "name"); ("type", JStr "Text")];
                                JDict [("id", JStr "lives"); ("type", JStr "Integer")]])])
      empty_store = Ok (VRes 0, st')
    /\ objs st' = [RContentType (JDict [("id", JStr "cat"); ("type", JStr "ContentType")])
                     fields (JStr "Cat") JNull]
    /\ kget fields (KStr "lives") = Some (JDict [("type", JStr "Integer")]).
Proof.
  pose (doc := JDict [("sys", JDict [("id", JStr "cat"); ("type", JStr "ContentType")]);
              ("name", JStr "Cat");
              ("fields", JList [JDict [("id", JStr "name"); ("type", JStr "Text")];
                                JDict [("id", JStr "lives"); ("type", JStr "Integer")]])]).
  pose (st' := match create_content_type doc empty_store with
               | Ok (_, s) => s
               | Raise _ => empty_store
               end).
  assert (H : create_content_type doc empty_store = Ok (VRes 0, st'))
    by (vm_compute; reflexivity).
  destruct (create_content_type_fields _ _ _ _ H)
    as (sys & fs & fields & name & display & Hsys & Hfs & Hname & Hd & _ & Hst & _ & _
        & Hall & _).
  vm_compute in Hsys. injection Hsys as <-.
  vm_compute in Hname. injection Hname as <-.
  vm_compute in Hd. injection Hd as <-.
  exists st', fields. split; [exact H|]. split; [rewrite Hst; reflexivity|].
  assert (E : st' = mkStore [RContentType
                (JDict [("id", JStr "cat"); ("type", JStr "ContentType")])
                [(KStr "name", JDict [("type", JStr "Text")]);
                 (KStr "lives", JDict [("type", JStr "Integer")])]
                (JStr "Cat") JNull] []) by (vm_compute; reflexivity).
  rewrite E in Hst. injection Hst as <-. reflexivity.
Defined.

(** ** The links of a new entry *)

Lemma linked_value_idemp v : linked_value (linked_value v) = linked_value v.
Proof.
  assert (Hv : linked_value v = match _extract_link v with
                               | Ok (Some lk) => lk
                               | _ => v
                               end) by reflexivity.
  destruct (_extract_link v) as [[lk|]|] eqn:E; rewrite !Hv; try reflexivity.
  unfold _extract_link in E. destruct v as [j| | | |]; try discriminate.
  destruct j as [| | | | | |d]; try discriminate.
  destruct (sget d "sys") as [[| | | | | |sys]|]; try discriminate.
  destruct (eq_str _ _); [|discriminate].
  apply obind_Ok in E as (i & _ & E). apply obind_Ok in E as (t & _ & E).
  injection E as <-. reflexivity.
Qed.

Lemma linked_value_list l : linked_value (VList l) = VList l.
Proof. reflexivity. Qed.

Lemma replace_links_in_list_full l eles : forall idx pre st st',
  lists st !! l = Some (pre ++ eles) ->
  length pre = idx ->
  replace_links_in_list l idx eles st = Ok (tt, st') ->
  st' = mkStore (objs st) (<[l := pre ++ map linked_value eles]> (lists st)).
Proof.
  induction eles as [|v eles IH]; intros idx pre st st' Hl Hlen H.
  - simpl in H. apply ret_Ok in H as [_ ->]. destruct st as [os ls]; simpl in *.
    rewrite list_insert_id by exact Hl. reflexivity.
  - subst idx. simpl in H. apply bind_Ok in H as (lk & s1 & Hlk & H).
    apply lift_Ok in Hlk as [Hlk ->].
    apply bind_Ok in H as ([] & s2 & Hw & H).
    assert (Hv : linked_value v = match lk with Some x => x | None => v end)
      by (unfold linked_value; rewrite Hlk; reflexivity).
    simpl map. rewrite Hv. destruct lk as [x|].
    + unfold write_list in Hw. injection Hw as <-.
      apply (IH (S (length pre)) (pre ++ [x])) in H.
      * subst st'. simpl. f_equal.
        rewrite !list_insert_alter, list_alter_alter_eq, <- (app_assoc pre [x]).
        reflexivity.
      * cbn [lists]. rewrite list_lookup_alter, decide_True by reflexivity.
        rewrite Hl. cbn [fmap option_fmap option_map]. f_equal.
        rewrite <- (Nat.add_0_r (length pre)), insert_app_r.
        simpl. rewrite <- app_assoc. reflexivity.
      * rewrite length_app; simpl. lia.
    + apply ret_Ok in Hw as [_ ->].
      apply (IH (S (length pre)) (pre ++ [v])) in H.
      * subst st'. rewrite <- (app_assoc pre [_]). reflexivity.
      * rewrite <- app_assoc. exact Hl.
      * rewrite length_app; simpl. lia.
Qed.

Lemma replace_links_in_list_alter l st st' :
  replace_links_in_list l 0 (default [] (lists st !! l)) st = Ok (tt, st') ->
  st' = mkStore (objs st) (alter (map linked_value) l (lists st)).
Proof.
  destruct (lists st !! l) as [vs|] eqn:E; simpl; intros H.
  - apply (replace_links_in_list_full l vs 0%nat []) in H; [|exact E|reflexivity].
    subst st'. simpl. rewrite (insert_as_alter (map linked_value)) by exact E. reflexivity.
  - apply ret_Ok in H as [_ ->]. rewrite alter_out_of_range by exact E.
    destruct st; reflexivity.
Qed.

Lemma replace_links_full its : forall done st fields' st',
  NoDup (dict_keys (done ++ its)) ->
  replace_links its (done ++ its) st = Ok (fields', st') ->
  fields' = done ++ map (fun '(k, v) => (k, linked_value v)) its
  /\ st' = mkStore (objs st) (alter_all (map linked_value) (list_refs its) (lists st)).
Proof.
  induction its as [|[k v] its IH]; intros done st fields' st' Hnd H.
  - simpl in H. apply ret_Ok in H as [-> ->]. destruct st. split; reflexivity.
  - assert (Hk : k ∉ dict_keys done).
    { unfold dict_keys in *. rewrite map_app in Hnd. apply NoDup_app in Hnd as (_ & Hd & _).
      intros Hin. apply (Hd k Hin). apply list_elem_of_here. }
    assert (Hnd' : forall x, NoDup (dict_keys ((done ++ [(k, x)]) ++ its))).
    { intros x. rewrite <- app_assoc. unfold dict_keys in *.
      rewrite map_app in *. exact Hnd. }
    assert (Hstep : forall x s1,
              replace_links its ((done ++ [(k, x)]) ++ its) s1 = Ok (fields', st') ->
              fields' = done ++ (k, x) :: map (fun '(k, v) => (k, linked_value v)) its
              /\ st' = mkStore (objs s1)
                         (alter_all (map linked_value) (list_refs its) (lists s1))).
    { intros x s1 H1. apply IH in H1; [|apply Hnd'].
      rewrite <- app_assoc in H1. exact H1. }
    rewrite list_refs_cons. simpl map. simpl in H.
    apply bind_Ok in H as (lk & s1 & Hlk & H). apply lift_Ok in Hlk as [Hlk ->].
    assert (Hv : linked_value v = match lk with Some x => x | None => v end)
      by (unfold linked_value; rewrite Hlk; reflexivity).
    rewrite Hv. destruct lk as [x|].
    + unfold sset in H. rewrite (dict_set_app_fresh String.eqb String.eqb_eq) in H by exact Hk.
      replace (done ++ (k, x) :: its) with ((done ++ [(k, x)]) ++ its) in H
        by (rewrite <- app_assoc; reflexivity).
      apply Hstep in H. destruct v as [j| | | |]; try discriminate. exact H.
    + replace (done ++ (k, v) :: its) with ((done ++ [(k, v)]) ++ its) in H
        by (rewrite <- app_assoc; reflexivity).
      destruct v as [j| lt id | r | l | dt]; try (apply Hstep in H; exact H).
      apply bind_Ok in H as (eles & s0 & He & H). injection He as <- <-.
      apply bind_Ok in H as ([] & s1 & Hl & H).
      apply replace_links_in_list_alter in Hl as ->.
      apply Hstep in H. destruct H as [-> ->]. split; reflexivity.
Qed.

Lemma decoded_as_prefix st st' v j :
  lists st `prefix_of` lists st' -> decoded_as st v j -> decoded_as st' v j.
Proof.
  intros Hp. destruct j; simpl; try tauto.
  intros (l0 & -> & Hl). exists l0. split; [reflexivity|].
  eapply prefix_lookup_Some; eassumption.
Qed.

Lemma held_prefix st st' v j :
  lists st `prefix_of` lists st' -> held st v j -> held st' v j.
Proof.
  intros Hp. destruct j; simpl; try tauto.
  intros (l0 & -> & Hl). exists l0. split; [reflexivity|].
  eapply prefix_lookup_Some; eassumption.
Qed.

Lemma dict_keys_sset_same {V W} (a : list (string * V)) (b : list (string * W)) k v w :
  dict_keys a = dict_keys b -> dict_keys (sset a k v) = dict_keys (sset b k w).
Proof.
  intros Hk. unfold sset. rewrite !(dict_keys_set String.eqb), Hk.
  destruct (dict_get String.eqb a k) eqn:Ea; destruct (dict_get String.eqb b k) eqn:Eb;
    try reflexivity.
  - apply (dict_get_None String.eqb String.eqb_eq) in Eb. rewrite <- Hk in Eb.
    assert (Hin : k ∈ dict_keys a).
    { apply dict_get_In in Ea; [|apply String.eqb_eq].
      unfold dict_keys. apply list_elem_of_fmap. exists (k, v0). auto. }
    contradiction.
  - apply (dict_get_None String.eqb String.eqb_eq) in Ea. rewrite Hk in Ea.
    assert (Hin : k ∈ dict_keys b).
    { apply dict_get_In in Eb; [|apply String.eqb_eq].
      unfold dict_keys. apply list_elem_of_fmap. exists (k, w0). auto. }
    contradiction.
Qed.

Lemma dict_object_decoded_as d : forall acc accj st res st',
  dict_object d acc st = Ok (res, st') ->
  dict_keys acc = dict_keys accj ->
  (forall k j, sget accj k = Some j -> exists v, sget acc k = Some v /\ decoded_as st v j) ->
  dict_keys res = dict_keys (fold_left (fun a '(k, j) => sset a k j) d accj)
  /\ forall k j, sget (fold_left (fun a '(k, j) => sset a k j) d accj) k = Some j ->
       exists v, sget res k = Some v /\ decoded_as st' v j.
Proof.
  induction d as [|[k0 j0] d IH]; intros acc accj st res st' H Hk Hacc; simpl in H.
  - apply ret_Ok in H as [-> ->]. split; [exact Hk | exact Hacc].
  - apply bind_Ok in H as (v & s1 & Hv & H).
    assert (Hs1 : lists st `prefix_of` lists s1 /\ decoded_as s1 v j0).
    { destruct j0; try (apply ret_Ok in Hv as [-> ->]; split; reflexivity).
      apply new_list_Ok in Hv as [-> ->]. simpl.
      split; [apply prefix_app_r; reflexivity|].
      eexists. split; [reflexivity|].
      rewrite lookup_app_r, Nat.sub_diag by lia. reflexivity. }
    destruct Hs1 as [Hp Hdec].
    apply (IH (sset acc k0 v) (sset accj k0 j0)) in H; [exact H | |].
    + apply dict_keys_sset_same, Hk.
    + intros k j Hj. destruct (String.eqb_spec k0 k) as [->|Hne].
      * rewrite sget_sset_eq in Hj. injection Hj as <-.
        exists v. split; [apply sget_sset_eq | exact Hdec].
      * rewrite sget_sset_ne in Hj by exact Hne.
        destruct (Hacc k j Hj) as (v' & Hv' & Hd').
        exists v'. split; [rewrite sget_sset_ne by exact Hne; exact Hv'|].
        eapply decoded_as_prefix; eassumption.
Qed.

Lemma map_linked_idemp (vs : list pyvalue) :
  map linked_value (map linked_value vs) = map linked_value vs.
Proof. rewrite map_map. apply map_ext. intros v. apply linked_value_idemp. Qed.

Lemma sget_map_linked (d : list (string * pyvalue)) k :
  sget (map (fun '(k, v) => (k, linked_value v)) d) k = linked_value <$> sget d k.
Proof. apply dict_get_map. Qed.

Lemma dict_keys_map_linked (d : list (string * pyvalue)) :
  dict_keys (map (fun '(k, v) => (k, linked_value v)) d) = dict_keys d.
Proof.
  unfold dict_keys. rewrite map_map. apply map_ext. intros [k v]. reflexivity.
Qed.

(** X7: in the [fields] of a new entry every field value that is a link
    object has become a placeholder, and so has every element of a
    sequence field that is a link object, at whatever position (no stop at
    the first element that is not one); every other value, the members of
    nested objects included, is the decoded JSON as it came.  The field
    names are those of the response, in its order. *)
Theorem create_entry_replaces_links :
  forall reg parse_date literal_eval str_other json d st r st',
    create_entry reg parse_date literal_eval str_other json st = Ok (VRes r, st') ->
    subscript json "fields" = Ok (JDict d) ->
    NoDup (dict_keys d) ->
    exists e,
      entry_at st' r = Some e
      /\ dict_keys (fields e) = dict_keys d
      /\ forall k j, sget d k = Some j ->
           exists v, sget (fields e) k = Some v /\ held st' v j.
Proof.
  intros reg parse_date literal_eval str_other json d st r st' H Hfields Hnd.
  unfold create_entry in H.
  apply bind_Ok in H as (sys & s0 & Hsys & H). apply lift_Ok in Hsys as [Hsys ->].
  apply bind_Ok in H as (ct & s0 & Hct & H). apply lift_Ok in Hct as [Hct ->].
  apply bind_Ok in H as (fj & s0 & Hfj & H). apply lift_Ok in Hfj as [Hfj ->].
  rewrite Hfields in Hfj. injection Hfj as <-.
  apply bind_Ok in H as (f0 & s1 & Hd1 & H).
  apply bind_Ok in H as (raw & s2 & Hd2 & H).
  apply bind_Ok in H as (f & s3 & Hd3 & H).
  apply bind_Ok in H as (clazz & s3' & Hcl & H). apply lift_Ok in Hcl as [Hcl ->].
  destruct (dict_object_decoded_as d [] [] st f0 s1 Hd1 eq_refl) as [Hk0 Hdec0].
  { intros k j Hj. discriminate. }
  fold (dict_of_members d) in Hk0, Hdec0.
  rewrite (dict_of_members_NoDup d Hnd) in Hk0, Hdec0.
  apply dict_object_spec in Hd2 as (_ & Hp2 & _).
  apply (replace_links_full f0 []) in Hd3; [|simpl; rewrite Hk0; exact Hnd].
  destruct Hd3 as [Hf Hs3]. simpl in Hf.
  assert (Hheld : forall k j, sget d k = Some j ->
            exists v, sget f k = Some v /\ held s3 v j).
  { intros k j Hj. destruct (Hdec0 k j Hj) as (v & Hv & Hdv).
    apply (decoded_as_prefix s1 s2) in Hdv; [|exact Hp2].
    exists (linked_value v). rewrite Hf, sget_map_linked, Hv. split; [reflexivity|].
    destruct j; simpl in Hdv |- *; try (rewrite Hdv; reflexivity).
    destruct Hdv as (l0 & -> & Hl0). exists l0. split; [reflexivity|].
    rewrite Hs3. simpl. rewrite (alter_all_lookup _ _ _ _ map_linked_idemp).
    rewrite decide_True by (eapply sget_list_refs; exact Hv).
    rewrite Hl0. simpl. rewrite map_map. reflexivity. }
  assert (Hkeys : dict_keys f = dict_keys d)
    by (rewrite Hf, dict_keys_map_linked; exact Hk0).
  assert (Hbuild : forall cls cf s4,
            lists s3 `prefix_of` lists s4 ->
            new_obj (REntry (mkEntry cls sys cf f raw)) s4 = Ok (VRes r, st') ->
            exists e,
              entry_at st' r = Some e
              /\ dict_keys (fields e) = dict_keys d
              /\ forall k j, sget d k = Some j ->
                   exists v, sget (fields e) k = Some v /\ held st' v j).
  { intros cls cf s4 Hp4 [[= ->] ->]%new_obj_Ok.
    exists (mkEntry cls sys cf f raw). unfold entry_at. simpl.
    rewrite lookup_app_r, Nat.sub_diag by lia. split; [reflexivity|].
    split; [exact Hkeys|]. intros k j Hj. destruct (Hheld k j Hj) as (v & Hv & Hh).
    exists v. split; [exact Hv|]. eapply held_prefix; [|exact Hh]. exact Hp4. }
  destruct clazz as [[|name base attrs efs|other]|].
  - apply (Hbuild None None s3); [reflexivity | exact H].
  - apply bind_Ok in H as (cf & s4 & Hs & H).
    apply set_entry_fields_spec in Hs as (_ & Hp4 & _).
    apply (Hbuild (Some name) cf s4); [exact Hp4 | exact H].
  - apply throw_Ok in H. destruct H.
  - apply (Hbuild None None s3); [reflexivity | exact H].
Qed.

Lemma create_entry_replaces_links_witness :
  exists st' e l,
    create_entry [] dateutil_parse literal_eval_unused str_model
      (entry_json "a" "dog"
         [("friends", JList [JStr "x"; link_json "Entry" "b"]);
          ("owner", link_json "Entry" "c")])
      empty_store = Ok (VRes 0, st')
    /\ entry_at st' 0 = Some e
    /\ sget (fields e) "owner" = Some (VLink (JStr "Entry") (JStr "c"))
    /\ sget (fields e) "friends" = Some (VList l)
    /\ lists st' !! l = Some [VJson (JStr "x"); VLink (JStr "Entry") (JStr "b")].
Proof.
  pose (fs := [("friends", JList [JStr "x"; link_json "Entry" "b"]);
               ("owner", link_json "Entry" "c")]).
  pose (st' := match create_entry [] dateutil_parse literal_eval_unused str_model
                       (entry_json "a" "dog" fs) empty_store with
               | Ok (_, s) => s
               | Raise _ => empty_store
               end).
  assert (H : create_entry [] dateutil_parse literal_eval_unused str_model
                (entry_json "a" "dog" fs) empty_store = Ok (VRes 0, st'))
    by (vm_compute; reflexivity).
  assert (Hf : subscript (entry_json "a" "dog" fs) "fields" = Ok (JDict fs))
    by reflexivity.
  assert (Hnd : NoDup (dict_keys fs)).
  { simpl. apply NoDup_cons. split.
    - intros Hin. apply list_elem_of_singleton in Hin. discriminate.
    - apply NoDup_singleton. }
  destruct (create_entry_replaces_links _ _ _ _ _ _ _ _ _ H Hf Hnd)
    as (e & He & _ & Hall).
  destruct (Hall "owner" (link_json "Entry" "c") eq_refl) as (v1 & Hv1 & Hh1).
  destruct (Hall "friends" (JList [JStr "x"; link_json "Entry" "b"]) eq_refl)
    as (v2 & Hv2 & (l & -> & Hl)).
  simpl in Hh1. subst v1.
  exists st', e, l. split; [exact H|]. split; [exact He|]. split; [exact Hv1|].
  split; [exact Hv2 | exact Hl].
Defined.

(** ** Which typed attributes are set *)






(** ** The fields a class declares *)

Lemma sget_not_key {V} (d : list (string * V)) k : k ∉ dict_keys d -> sget d k = None.
Proof. intros H. apply (dict_get_None String.eqb String.eqb_eq). exact H. Qed.



Lemma sget_set_field_ids attrs n :
  sget (set_field_ids attrs) n =
  match sget attrs n with
  | Some (AField f) => Some (AField (mkField (field_type f) (Some (default n (field_id f)))))
  | other => other
  end.
Proof.
  unfold sget, set_field_ids. induction attrs as [|[n0 a0] attrs IH]; [reflexivity|].
  simpl. destruct a0 as [f|v]; simpl.
  - destruct (String.eqb_spec n0 n) as [->|Hne]; [|exact IH].
    destruct f as [T [i|]]; reflexivity.
  - destruct (String.eqb n0 n); [reflexivity | exact IH].
Qed.



(** ** Configuration and the registry of classes *)

Lemma validate_custom_entries_Ok cs :
  validate_custom_entries cs = Ok tt
  <-> forall c, c ∈ cs -> issubclass_Entry c = true /\ is_Entry c = false.
Proof.
  induction cs as [|c cs IH]; simpl.
  - split; [|reflexivity]. intros _ c Hc. apply elem_of_nil in Hc. destruct Hc.
  - destruct (issubclass_Entry c) eqn:Es; simpl.
    + destruct (is_Entry c) eqn:Ee.
      * split; [discriminate|]. intros H.
        destruct (H c (list_elem_of_here _ _)) as [_ H']. congruence.
      * rewrite IH. split.
        -- intros H c' [->|Hc']%elem_of_cons; [auto | apply H, Hc'].
        -- intros H c' Hc'. apply H, list_elem_of_further, Hc'.
    + split; [discriminate|]. intros H.
      destruct (H c (list_elem_of_here _ _)) as [H' _]. congruence.
Qed.

Lemma validate_custom_entries_result cs :
  validate_custom_entries cs = Ok tt \/ validate_custom_entries cs = Raise ConfigError.
Proof.
  induction cs as [|c cs IH]; simpl; [left; reflexivity|].
  destruct (issubclass_Entry c); simpl; [|right; reflexivity].
  destruct (is_Entry c); [right; reflexivity | exact IH].
Qed.

Lemma validate_custom_entries_bad cs c :
  c ∈ cs -> is_Entry c = true \/ issubclass_Entry c = false ->
  validate_custom_entries cs = Raise ConfigError.
Proof.
  intros Hin Hbad. destruct (validate_custom_entries_result cs) as [Hok|Hr]; [|exact Hr].
  destruct (proj1 (validate_custom_entries_Ok cs) Hok c Hin) as [Hs He].
  destruct Hbad; congruence.
Qed.

Lemma create_entry_registry reg reg' parse_date literal_eval str_other json st :
  (forall sys ct,
      subscript json "sys" = Ok sys ->
      (let? c := subscript sys "contentType" in
       let? s := subscript c "sys" in subscript s "id") = Ok ct ->
      lookup_class reg ct = lookup_class reg' ct) ->
  create_entry reg parse_date literal_eval str_other json st
  = create_entry reg' parse_date literal_eval str_other json st.
Proof.
  intros H. unfold create_entry, bind, lift.
  destruct (subscript json "sys") as [sys|e] eqn:Hsys; [|reflexivity].
  destruct (let? c := subscript sys "contentType" in
            let? s := subscript c "sys" in subscript s "id") as [ct|e] eqn:Hct;
    [|reflexivity].
  destruct (subscript json "fields") as [fj|e]; [|reflexivity].
  destruct fj as [| | | | | |d]; try reflexivity.
  destruct (dict_object d [] st) as [[f0 s1]|e]; [|reflexivity].
  destruct (deepcopy d s1) as [[raw s2]|e]; [|reflexivity].
  destruct (replace_links f0 f0 s2) as [[f s3]|e]; [|reflexivity].
  rewrite (H sys ct eq_refl Hct). reflexivity.
Qed.

(** C5 (amended): defining a custom class without a content-type
    identifier (absent or None) raises at class definition; a class with
    any other identifier, the empty string included, is accepted.
    Building a client with the base [Entry] class, or with a class that
    does not derive from [Entry], among the custom entries raises at
    construction.  Looking a hashable identifier up in the registry never
    fails, and an entry whose content type is not registered is built as
    an instance of the base [Entry] class, as with an empty registry. *)
Theorem registration_checks :
  (forall name base attrs,
      name <> "Entry" ->
      (forall v, In ("__content_type__", AValue v) attrs -> v = JNull) ->
      FieldOwner_new name base attrs = Raise AttributeError)
  /\ (forall name base attrs ct,
         In ("__content_type__", AValue ct) attrs ->
         (forall v, In ("__content_type__", AValue v) attrs -> v <> JNull) ->
         exists c, FieldOwner_new name base attrs = Ok c)
  /\ (forall space_id access_token cs c,
         c ∈ cs ->
         is_Entry c = true \/ issubclass_Entry c = false ->
         Client_init space_id access_token cs = Raise ConfigError)
  /\ (forall (entries_mapping : list (pykey * pyclass)) ct k,
         to_key ct = Ok k ->
         lookup_class entries_mapping ct = Ok (kget entries_mapping k))
  /\ (forall reg parse_date literal_eval str_other json st sys ct,
         subscript json "sys" = Ok sys ->
         (let? c := subscript sys "contentType" in
          let? s := subscript c "sys" in subscript s "id") = Ok ct ->
         lookup_class reg ct = Ok None ->
         create_entry reg parse_date literal_eval str_other json st
         = create_entry [] parse_date literal_eval str_other json st
         /\ forall r st' e,
              create_entry reg parse_date literal_eval str_other json st
                = Ok (VRes r, st') ->
              entry_at st' r = Some e ->
              entry_class e = None /\ _cf_cda e = None).
Proof.
  split; [| split; [| split; [| split]]].
  - intros name base attrs Hn H. unfold FieldOwner_new.
    assert (En : String.eqb name "Entry" = false) by (apply String.eqb_neq; exact Hn).
    rewrite En; simpl.
    pose proof (collect_fields_no_content_type attrs [] H) as Hc.
    destruct (collect_fields true attrs [] JNull) as [fs ct]. simpl in Hc. subst ct.
    reflexivity.
  - intros name base attrs ct Hin H. unfold FieldOwner_new.
    destruct (negb (String.eqb name "Entry")) eqn:En.
    + pose proof (collect_fields_content_type attrs [] JNull H
                    (or_intror (ex_intro _ ct Hin))) as Hc.
      destruct (collect_fields true attrs [] JNull) as [fs c]. simpl in Hc.
      destruct c; simpl; try (eexists; reflexivity). contradiction.
    + destruct (collect_fields false attrs [] JNull) as [fs c]. simpl.
      eexists; reflexivity.
  - intros sid tok cs c Hin Hbad. unfold Client_init, validate_config; simpl.
    destruct (is_none sid); [reflexivity|].
    destruct (is_none tok); [reflexivity|].
    rewrite (validate_custom_entries_bad cs c Hin Hbad). reflexivity.
  - intros reg ct k Hk. unfold lookup_class. rewrite Hk. reflexivity.
  - intros reg parse_date literal_eval str_other json st sys ct Hsys Hct Hl.
    assert (Hsame : create_entry reg parse_date literal_eval str_other json st
                    = create_entry [] parse_date literal_eval str_other json st).
    { apply create_entry_registry. intros sys' ct' Hsys' Hct'.
      rewrite Hsys in Hsys'. injection Hsys' as <-.
      rewrite Hct in Hct'. injection Hct' as <-.
      rewrite Hl. unfold lookup_class in *.
      destruct (to_key ct) as [k|e]; [reflexivity | discriminate]. }
    split; [exact Hsame|].
    intros r st' e H He. unfold create_entry in H.
    apply bind_Ok in H as (sys' & s0 & Hsys' & H). apply lift_Ok in Hsys' as [Hsys' ->].
    rewrite Hsys in Hsys'. injection Hsys' as <-.
    apply bind_Ok in H as (ct' & s0 & Hct' & H). apply lift_Ok in Hct' as [Hct' ->].
    rewrite Hct in Hct'. injection Hct' as <-.
    apply bind_Ok in H as (fj & s0 & Hfj & H). apply lift_Ok in Hfj as [Hfj ->].
    destruct fj as [| | | | | |d]; try (apply throw_Ok in H; destruct H).
    apply bind_Ok in H as (f0 & s1 & _ & H).
    apply bind_Ok in H as (raw & s2 & _ & H).
    apply bind_Ok in H as (f & s3 & _ & H).
    apply bind_Ok in H as (clazz & s3' & Hcl & H). apply lift_Ok in Hcl as [Hcl ->].
    rewrite Hl in Hcl. injection Hcl as <-.
    apply new_obj_Ok in H as [[= ->] ->]. unfold entry_at in He. simpl in He.
    rewrite lookup_app_r, Nat.sub_diag in He by lia. injection He as <-.
    split; reflexivity.
Qed.

(** X10: a configuration is accepted exactly when its space id and its
    access token are not None and every custom entry class derives from
    Entry without being Entry itself; every other configuration is
    refused with the configuration error, whatever else it holds. *)
Theorem validate_config_accepts :
  forall config,
    (validate_config config = Ok tt
     <-> space_id config <> JNull
         /\ access_token config <> JNull
         /\ forall c, c ∈ custom_entries config ->
              issubclass_Entry c = true /\ is_Entry c = false)
    /\ (validate_config config = Ok tt \/ validate_config config = Raise ConfigError).
Proof.
  intros [sid tok cs]. unfold validate_config. simpl.
  assert (Hn : forall j, is_none j = true <-> j = JNull).
  { intros j. destruct j; simpl; split; congruence. }
  split.
  - destruct (is_none sid) eqn:Es.
    { apply Hn in Es. split; [discriminate | intros [H _]; contradiction]. }
    destruct (is_none tok) eqn:Et.
    { apply Hn in Et. split; [discriminate | intros (_ & H & _); contradiction]. }
    rewrite validate_custom_entries_Ok. split.
    + intros H. split; [intros E; apply Hn in E; congruence|].
      split; [intros E; apply Hn in E; congruence | exact H].
    + intros (_ & _ & H). exact H.
  - destruct (is_none sid); [right; reflexivity|].
    destruct (is_none tok); [right; reflexivity|].
    apply validate_custom_entries_result.
Qed.

Lemma ResourceFactory_init_app pre rest : forall acc m,
  ResourceFactory_init (pre ++ rest) acc = Ok m ->
  exists acc1, ResourceFactory_init pre acc = Ok acc1
               /\ ResourceFactory_init rest acc1 = Ok m.
Proof.
  induction pre as [|c pre IH]; intros acc m H; simpl in *.
  - exists acc. auto.
  - apply obind_Ok in H as (ct & Hct & H). apply obind_Ok in H as (k & Hk & H).
    rewrite Hct. simpl. rewrite Hk. simpl. apply IH, H.
Qed.

Lemma ResourceFactory_init_other cs : forall acc m k,
  ResourceFactory_init cs acc = Ok m ->
  (forall c, c ∈ cs -> content_key c <> Ok k) ->
  kget m k = kget acc k.
Proof.
  induction cs as [|c cs IH]; intros acc m k H Hk; simpl in H.
  - injection H as <-. reflexivity.
  - apply obind_Ok in H as (ct & Hct & H). apply obind_Ok in H as (k0 & Hk0 & H).
    rewrite (IH _ _ k H) by (intros c' Hc'; apply Hk, list_elem_of_further, Hc').
    rewrite kget_kset. destruct (key_eqb k0 k) eqn:E; [|reflexivity].
    apply key_eqb_eq in E as ->. exfalso.
    apply (Hk c (list_elem_of_here _ _)). unfold content_key. rewrite Hct. exact Hk0.
Qed.

Lemma ResourceFactory_init_from cs : forall acc m k c,
  ResourceFactory_init cs acc = Ok m ->
  kget m k = Some c ->
  kget acc k = Some c \/ (c ∈ cs /\ content_key c = Ok k).
Proof.
  induction cs as [|c0 cs IH]; intros acc m k c H Hm; simpl in H.
  - injection H as <-. left. exact Hm.
  - apply obind_Ok in H as (ct & Hct & H). apply obind_Ok in H as (k0 & Hk0 & H).
    destruct (IH _ _ k c H Hm) as [Hacc|[Hin Hkey]].
    + rewrite kget_kset in Hacc. destruct (key_eqb k0 k) eqn:E; [|left; exact Hacc].
      apply key_eqb_eq in E as ->. injection Hacc as <-. right.
      split; [apply list_elem_of_here|]. unfold content_key. rewrite Hct. exact Hk0.
    + right. split; [apply list_elem_of_further, Hin | exact Hkey].
Qed.

Lemma ResourceFactory_init_present cs : forall acc m,
  ResourceFactory_init cs acc = Ok m ->
  (forall k, is_Some (kget acc k) -> is_Some (kget m k))
  /\ forall c, c ∈ cs -> exists k, content_key c = Ok k /\ is_Some (kget m k).
Proof.
  induction cs as [|c0 cs IH]; intros acc m H; simpl in H.
  - injection H as <-. split; [auto|]. intros c Hc. apply elem_of_nil in Hc. destruct Hc.
  - apply obind_Ok in H as (ct & Hct & H). apply obind_Ok in H as (k0 & Hk0 & H).
    destruct (IH _ _ H) as [Hkeep Hall]. split.
    + intros k Hk. apply Hkeep. rewrite kget_kset.
      destruct (key_eqb k0 k); [eexists; reflexivity | exact Hk].
    + intros c [->|Hc]%elem_of_cons; [|apply Hall, Hc].
      exists k0. split; [unfold content_key; rewrite Hct; exact Hk0|].
      apply Hkeep. rewrite kget_kset, (proj2 (key_eqb_eq k0 k0) eq_refl).
      eexists; reflexivity.
Qed.

(** X11: the factory registers every custom class under its content
    type, a later class replacing an earlier one with the same content
    type; the registry holds nothing else, and looking a content type up
    gives the last class registered under it. *)
Theorem registry_last_wins :
  forall cs m,
    ResourceFactory_init cs [] = Ok m ->
    (forall k c, kget m k = Some c -> c ∈ cs /\ content_key c = Ok k)
    /\ (forall pre c post k,
          cs = pre ++ c :: post ->
          content_key c = Ok k ->
          (forall c', c' ∈ post -> content_key c' <> Ok k) ->
          kget m k = Some c)
    /\ (forall c, c ∈ cs -> exists k c', content_key c = Ok k /\ kget m k = Some c').
Proof.
  intros cs m H.
  assert (Hlast : forall pre c post k,
            cs = pre ++ c :: post ->
            content_key c = Ok k ->
            (forall c', c' ∈ post -> content_key c' <> Ok k) ->
            kget m k = Some c).
  { intros pre c post k -> Hk Hpost.
    apply ResourceFactory_init_app in H as (acc1 & _ & H). simpl in H.
    unfold content_key in Hk. apply obind_Ok in Hk as (ct & Hct & Hk).
    rewrite Hct in H. simpl in H. rewrite Hk in H. simpl in H.
    rewrite (ResourceFactory_init_other _ _ _ k H Hpost), kget_kset.
    rewrite (proj2 (key_eqb_eq k k) eq_refl). reflexivity. }
  split; [|split; [exact Hlast|]].
  - intros k c Hm. destruct (ResourceFactory_init_from _ _ _ _ _ H Hm) as [Hnil|Hc];
      [discriminate | exact Hc].
  - intros c Hc. destruct (ResourceFactory_init_present _ _ _ H) as [_ Hall].
    destruct (Hall c Hc) as (k & Hk & [c' Hc']). exists k, c'. auto.
Qed.

Lemma registry_last_wins_witness :
  exists m,
    ResourceFactory_init [blank_class; Cat; blank_class] [] = Ok m
    /\ kget m (KStr "cat") = Some Cat
    /\ lookup_class m (JStr "cat") = Ok (Some Cat).
Proof.
  pose (m := match ResourceFactory_init [blank_class; Cat; blank_class] [] with
             | Ok x => x
             | Raise _ => []
             end).
  assert (H : ResourceFactory_init [blank_class; Cat; blank_class] [] = Ok m)
    by (vm_compute; reflexivity).
  destruct (registry_last_wins _ _ H) as (_ & Hlast & _).
  assert (Hk : kget m (KStr "cat") = Some Cat).
  { apply (Hlast [blank_class] Cat [blank_class]); [reflexivity | reflexivity |].
    intros c' Hc'. apply list_elem_of_singleton in Hc' as ->. vm_compute. discriminate. }
  exists m. split; [exact H|]. split; [exact Hk|].
  change (lookup_class m (JStr "cat")) with (Ok (kget m (KStr "cat")) : outcome (option pyclass)).
  rewrite Hk. reflexivity.
Defined.

(** ** Requests *)

Lemma sget_dict_update {V} (kw : list (string * V)) : forall d k,
  NoDup (dict_keys kw) ->
  sget (dict_update d kw) k =
  match sget kw k with
  | Some v => Some v
  | None => sget d k
  end.
Proof.
  unfold dict_update.
  induction kw as [|[k0 v0] kw IH]; intros d k Hnd; [reflexivity|].
  simpl in Hnd. apply NoDup_cons in Hnd as [Hk0 Hnd].
  change (sget ((k0, v0) :: kw) k) with (if String.eqb k0 k then Some v0 else sget kw k).
  simpl. rewrite (IH _ k Hnd).
  destruct (String.eqb_spec k0 k) as [->|Hne].
  - rewrite (sget_not_key kw k Hk0). apply sget_sset_eq.
  - rewrite sget_sset_ne by exact Hne. reflexivity.
Qed.

Lemma dict_update_NoDup {V} (kw : list (string * V)) : forall d,
  NoDup (dict_keys d) -> NoDup (dict_keys (dict_update d kw)).
Proof.
  unfold dict_update. induction kw as [|[k0 v0] kw IH]; intros d H; [exact H|].
  simpl. apply IH, sset_NoDup, H.
Qed.

Lemma dict_update_keys_prefix {V} (kw : list (string * V)) : forall d,
  dict_keys d `prefix_of` dict_keys (dict_update d kw).
Proof.
  unfold dict_update. induction kw as [|[k0 v0] kw IH]; intros d; [reflexivity|].
  simpl. etransitivity; [|apply IH].
  unfold sset. rewrite (dict_keys_set String.eqb). apply prefix_app_r. reflexivity.
Qed.

(** X12: [where] adds the given parameters to those of the request: a
    parameter that was set already takes the new value, every other one
    keeps its value and the earlier parameters keep their place; the
    path and the link-resolution setting are not touched, and the
    parameters stay a dictionary. *)
Theorem where_overrides :
  forall self q,
    NoDup (dict_keys q) ->
    (forall k,
        sget (params (request (RequestArray_where self q))) k =
        match sget q k with
        | Some v => Some v
        | None => sget (params (request self)) k
        end)
    /\ dict_keys (params (request self))
         `prefix_of` dict_keys (params (request (RequestArray_where self q)))
    /\ (NoDup (dict_keys (params (request self))) ->
        NoDup (dict_keys (params (request (RequestArray_where self q)))))
    /\ remote_path (request (RequestArray_where self q)) = remote_path (request self)
    /\ request_dispatcher (request (RequestArray_where self q))
       = request_dispatcher (request self)
    /\ resolve_links_flag (RequestArray_where self q) = resolve_links_flag self.
Proof.
  intros self q Hq. simpl. split; [intros k; apply sget_dict_update, Hq|].
  split; [apply dict_update_keys_prefix|].
  split; [apply dict_update_NoDup|]. repeat split.
Qed.

Lemma where_overrides_witness :
  let r := RequestArray_where
             (RequestArray_init test_dispatcher (Some "entries") true
                (Some [("content_type", JStr "cat"); ("limit", JInt 5)]))
             [("limit", JInt 1); ("sys.id", JStr "nyancat")] in
  sget (params (request r)) "limit" = Some (JInt 1)
  /\ sget (params (request r)) "content_type" = Some (JStr "cat")
  /\ sget (params (request r)) "sys.id" = Some (JStr "nyancat")
  /\ dict_keys (params (request r)) = ["content_type"; "limit"; "sys.id"].
Proof.
  assert (Hq : NoDup (dict_keys [("limit", JInt 1); ("sys.id", JStr "nyancat")])).
  { apply (bool_decide_unpack _). vm_compute. exact I. }
  destruct (where_overrides
              (RequestArray_init test_dispatcher (Some "entries") true
                 (Some [("content_type", JStr "cat"); ("limit", JInt 5)]))
              _ Hq) as (Hget & _).
  cbv zeta. rewrite !Hget. repeat split; reflexivity.
Defined.

Lemma ErrorMapping_lookup status :
  default ApiError (dict_get Z.eqb ErrorMapping_mapping status) = error_class status.
Proof.
  change ErrorMapping_mapping
    with [(400, BadRequest); (401, Unauthorized); (403, AccessDenied);
          (404, NotFound); (500, ServerError); (503, ServiceUnavailable)].
  unfold error_class. cbn [dict_get]. rewrite !(Z.eqb_sym status).
  repeat match goal with
         | |- context [Z.eqb ?a status] => destruct (Z.eqb a status); [reflexivity|]
         end.
  reflexivity.
Qed.

(** X13: the dispatcher makes one call of the HTTP client, for the base
    URL followed by the path of the request, with the parameters of the
    request.  A status from 200 to 299 gives what the factory decodes
    from the body, and never an API error.  Every other status raises,
    with the response in the exception and nothing decoded: the class
    registered for 400, 401, 403, 404, 500 and 503, and ApiError itself
    for any other status, a redirection or an informational one
    included. *)
Theorem invoke_by_status :
  forall W (httpclient_get : string -> list (string * json) -> list (string * string)
                             -> W -> option Response * W)
         parse_date literal_eval str_other self request st w r w',
    httpclient_get (base_url self ++ "/" ++ format_path (remote_path request))%string
      (params request) (get_headers self) w = (Some r, w') ->
    (200 <= status_code r < 300 ->
     match body r with
     | Ok json =>
         match decode (resource_factory self) parse_date literal_eval str_other
                 json st with
         | Ok (v, st') =>
             Dispatcher_invoke W httpclient_get parse_date literal_eval str_other
               self request st w = (Done v, st', w')
         | Raise e =>
             Dispatcher_invoke W httpclient_get parse_date literal_eval str_other
               self request st w = (Fail (Builtin e), st, w')
         end
     | Raise e =>
         Dispatcher_invoke W httpclient_get parse_date literal_eval str_other
           self request st w = (Fail (Builtin e), st, w')
     end)
    /\ (~ 200 <= status_code r < 300 ->
        Dispatcher_invoke W httpclient_get parse_date literal_eval str_other
          self request st w = (Fail (HttpError (error_class (status_code r)) r), st, w')
        /\ (error_class (status_code r) = ApiError
            <-> status_code r ∉ [400; 401; 403; 404; 500; 503])).
Proof.
  intros W get pd le so self request st w r w' Hget.
  unfold Dispatcher_invoke. rewrite Hget. split.
  - intros [H1 H2].
    apply Z.leb_le in H1. apply Z.ltb_lt in H2. rewrite H1, H2. simpl.
    destruct (body r) as [j|e]; [|reflexivity].
    destruct (decode _ pd le so j st) as [[v st']|e]; reflexivity.
  - intros Hno.
    assert (Hr : (200 <=? status_code r) && (status_code r <? 300) = false).
    { destruct (200 <=? status_code r) eqn:E1; [|reflexivity].
      destruct (status_code r <? 300) eqn:E2; [|reflexivity].
      apply Z.leb_le in E1. apply Z.ltb_lt in E2. lia. }
    rewrite Hr. split.
    + rewrite <- ErrorMapping_lookup.
      destruct (dict_get Z.eqb ErrorMapping_mapping (status_code r)); reflexivity.
    + unfold error_class. rewrite !not_elem_of_cons.
      repeat match goal with
             | |- context [Z.eqb ?a ?b] =>
                 destruct (Z.eqb_spec a b) as [->|?]
             end; split; try discriminate; try tauto; try (intros; exfalso; tauto).
      intros _. repeat split; try assumption. apply not_elem_of_nil.
Qed.

Lemma invoke_by_status_witness :
  Dispatcher_invoke canned canned_get dateutil_parse literal_eval_unused str_model
    test_dispatcher (Request_init test_dispatcher (Some "entries") None) empty_store
    ([mkResponse 404 (Raise ValueError)], [])
  = (Fail (HttpError NotFound (mkResponse 404 (Raise ValueError))), empty_store,
     ([], [mkCall "https://cdn.contentful.com/spaces/cfexampleapi/entries" []
             (get_headers test_dispatcher)]))
  /\ fst (fst (Dispatcher_invoke canned canned_get dateutil_parse literal_eval_unused
                 str_model test_dispatcher
                 (Request_init test_dispatcher (Some "entries") None) empty_store
                 ([mkResponse 302 (Ok JNull)], [])))
     = Fail (HttpError ApiError (mkResponse 302 (Ok JNull))).
Proof.
  split.
  - destruct (invoke_by_status canned canned_get dateutil_parse literal_eval_unused
                str_model test_dispatcher
                (Request_init test_dispatcher (Some "entries") None) empty_store
                ([mkResponse 404 (Raise ValueError)], [])
                (mkResponse 404 (Raise ValueError))
                ([], [mkCall "https://cdn.contentful.com/spaces/cfexampleapi/entries" []
                        (get_headers test_dispatcher)])
                eq_refl) as [_ H].
    destruct H as [H _]; [simpl; lia | exact H].
  - destruct (invoke_by_status canned canned_get dateutil_parse literal_eval_unused
                str_model test_dispatcher
                (Request_init test_dispatcher (Some "entries") None) empty_store
                ([mkResponse 302 (Ok JNull)], [])
                (mkResponse 302 (Ok JNull))
                ([], [mkCall "https://cdn.contentful.com/spaces/cfexampleapi/entries" []
                        (get_headers test_dispatcher)])
                eq_refl) as [_ H].
    destruct H as [H _]; [simpl; lia | rewrite H; reflexivity].
Defined.

(** ** The first resource of a response *)

Section ArrayAttributes.
Variable f : json -> M pyvalue.
Hypothesis Hf : forall j st v st', f j st = Ok (v, st') -> decoded st v st'.

Lemma create_array_attributes response st v st' :
  create_array f response st = Ok (v, st') ->
  exists s arr,
    new_obj (RArray arr) s = Ok (v, st')
    /\ subscript response "total" = Ok (total arr)
    /\ subscript response "skip" = Ok (skip arr)
    /\ subscript response "limit" = Ok (limit arr).
Proof.
  unfold create_array. intros H.
  apply bind_Ok in H as (sys & s & Hsys & H). apply lift_Ok in Hsys as [Hsys ->].
  apply bind_Ok in H as (tot & s & Ht & H). apply lift_Ok in Ht as [Ht ->].
  apply bind_Ok in H as (skp & s & Hs & H). apply lift_Ok in Hs as [Hs ->].
  apply bind_Ok in H as (lim & s & Hl & H). apply lift_Ok in Hl as [Hl ->].
  apply bind_Ok in H as (res1 & st1 & H1 & H).
  unfold process_array_items in H1.
  apply bind_Ok in H1 as (its & s & Hits & H1). apply lift_Ok in Hits as [Hits ->].
  destruct (process_items_spec f Hf its _ _ _ _ [] [] H1 eq_refl) as (vs & Hvs & ->).
  apply bind_Ok in H as (res2 & st3 & H2 & H).
  unfold process_array_includes in H2.
  apply bind_Ok in H2 as (inc & s & Hinc & H2). apply lift_Ok in Hinc as [Hinc ->].
  cbn [items_mapped buckets dict_keys map fst process_include_keys] in H2.
  eapply include_key_step in H2 as (incA & st2 & HincA & H2);
    [|exact Hf|exact Hinc|reflexivity|auto].
  eapply include_key_step in H2 as (incE & st3' & HincE & H2);
    [|exact Hf|exact Hinc|reflexivity|auto].
  apply ret_Ok in H2 as [-> ->].
  eexists _, _. split; [exact H|].
  cbn [total skip limit]. auto.
Qed.

Lemma create_array_first response st v st' :
  create_array f response st = Ok (v, st') ->
  exists its vs st1 a arr,
    (let? i := subscript response "items" in iterate i) = Ok its
    /\ decode_each f its st = Ok (vs, st1)
    /\ extends st1 st'
    /\ v = VRes a
    /\ objs st' !! a = Some (RArray arr)
    /\ items arr = vs
    /\ subscript response "total" = Ok (total arr).
Proof.
  intros H.
  destruct (create_array_attributes _ _ _ _ H) as (s & arr' & Hn & Htot & _).
  destruct (create_array_spec f Hf _ _ _ _ H)
    as (its & vs & incA & incE & st1 & st2 & st3 & arr
        & Hits & Hvs & HincA & HincE & -> & -> & _ & Hitems & _).
  apply new_obj_Ok in Hn as [Hv Hst].
  injection Hst as Ho Hl. apply app_inj_tail in Ho as [Ho [= <-]].
  destruct (decode_each_grows f Hf _ _ _ _ HincA) as [[He2 _] _].
  destruct (decode_each_grows f Hf _ _ _ _ HincE) as [[He3 _] _].
  exists its, vs, st1, (length (objs st3)), arr.
  split; [exact Hits|]. split; [exact Hvs|]. split.
  { eapply extends_trans; [exact He2|]. eapply extends_trans; [exact He3|].
    split; simpl; [apply prefix_app_r|]; reflexivity. }
  split; [reflexivity|]. split.
  { simpl. rewrite lookup_app_r, Nat.sub_diag by lia. reflexivity. }
  split; [exact Hitems | exact Htot].
Qed.

Lemma decode_each_head its st vs st1 :
  decode_each f its st = Ok (vs, st1) ->
  match its with
  | [] => vs = []
  | item :: _ => exists v vs' s1, vs = v :: vs' /\ f item st = Ok (v, s1) /\ extends s1 st1
  end.
Proof.
  destruct its as [|item rest]; simpl; intros H.
  - apply ret_Ok in H as [-> _]. reflexivity.
  - apply bind_Ok in H as (v & s1 & Hv & H).
    apply bind_Ok in H as (vs' & s2 & Hvs & H).
    apply ret_Ok in H as [-> ->].
    destruct (decode_each_grows f Hf _ _ _ _ Hvs) as [[He _] _].
    exists v, vs', s1. auto.
Qed.
End ArrayAttributes.

(** X14: [first] sends the request with the parameter [limit] set to 1,
    whatever limit the request carried, and keeps that parameter on the
    request.  On a response of type Array whose [total] is an integer it
    gives None when the total is not positive, whatever the items are;
    otherwise the resource decoded from the first element of [items],
    with its links as placeholders (the store is the one the decoder
    left, no link is resolved); and it raises IndexError when the total
    is positive but [items] is empty. *)
Theorem first_gives_first_item :
  forall W (httpclient_get : string -> list (string * json) -> list (string * string)
                             -> W -> option Response * W)
         parse_date literal_eval str_other gt_other
         self st w r w' response its n out self' st' w'',
    httpclient_get
      (base_url (request_dispatcher (request self)) ++ "/"
       ++ format_path (remote_path (request self)))%string
      (sset (params (request self)) "limit" (JInt 1))
      (get_headers (request_dispatcher (request self))) w = (Some r, w') ->
    200 <= status_code r < 300 ->
    body r = Ok response ->
    (let? sys := subscript response "sys" in subscript sys "type") = Ok (JStr "Array") ->
    subscript response "total" = Ok (JInt n) ->
    (let? i := subscript response "items" in iterate i) = Ok its ->
    RequestArray_first W httpclient_get parse_date literal_eval str_other gt_other
      self st w = (out, self', st', w'') ->
    w'' = w'
    /\ self' = RequestArray_where self [("limit", JInt 1)]
    /\ match out with
       | Done v =>
           (exists a,
               decode (resource_factory (request_dispatcher (request self)))
                 parse_date literal_eval str_other response st = Ok (VRes a, st'))
           /\ (n <= 0 -> v = VNone)
           /\ (0 < n ->
               exists item rest s1,
                 its = item :: rest
                 /\ decode (resource_factory (request_dispatcher (request self)))
                      parse_date literal_eval str_other item st = Ok (v, s1)
                 /\ extends s1 st')
       | Fail IndexError =>
           0 < n /\ its = []
           /\ exists a,
               decode (resource_factory (request_dispatcher (request self)))
                 parse_date literal_eval str_other response st = Ok (VRes a, st')
       | Fail (Builtin e) =>
           decode (resource_factory (request_dispatcher (request self)))
             parse_date literal_eval str_other response st = Raise e
           /\ st' = st
       | Fail _ => False
       end.
Proof.
  intros W get pd le so gt self st w r w' response its n out self' st' w''
    Hget [H1 H2] Hbody Hty Htot Hits H.
  unfold RequestArray_first, Request_invoke, Dispatcher_invoke in H.
  cbn [request request_dispatcher remote_path params] in H.
  rewrite Hget in H.
  apply Z.leb_le in H1. apply Z.ltb_lt in H2. rewrite H1, H2, Hbody in H.
  cbn [andb] in H.
  destruct (decode _ pd le so response st) as [[v0 st1]|e] eqn:Hd.
  2:{ injection H as <- <- <- <-. repeat split. }
  injection H as <- <- <- <-. split; [reflexivity|]. split; [reflexivity|].
  unfold decode in Hd. cbn [from_json] in Hd.
  apply bind_Ok in Hd as (ty & s & Hty' & Hd). apply lift_Ok in Hty' as [Hty' ->].
  rewrite Hty in Hty'. injection Hty' as <-.
  change (eq_str (JStr "Array") "Array") with true in Hd. cbv iota in Hd.
  pose proof Hd as Hd'.
  apply create_array_first in Hd'; [|apply from_json_decoded].
  destruct Hd' as (its' & vs & s1 & a & arr & Hits' & Hvs & He & -> & Ha & Hitems & Htot').
  rewrite Hits in Hits'. injection Hits' as <-.
  rewrite Htot in Htot'. injection Htot' as Htot'.
  unfold first_item. rewrite Ha, <- Htot'. cbn [gt_zero].
  apply decode_each_head in Hvs; [|apply from_json_decoded].
  destruct (Z.ltb_spec 0 n) as [Hpos|Hneg].
  - rewrite Hitems. destruct its as [|item rest].
    + subst vs. split; [exact Hpos|]. split; [reflexivity|]. exists a. reflexivity.
    + destruct Hvs as (v & vs' & s2 & -> & Hv & He2).
      split; [exists a; reflexivity|]. split; [lia|]. intros _.
      exists item, rest, s2. split; [reflexivity|]. split.
      * rewrite <- Hv. symmetry. apply decode_fuel.
        apply obind_Ok in Hits as (i & Hi & Hits).
        pose proof (json_depth_subscript _ _ _ Hi).
        pose proof (json_depth_iterate _ _ item Hits (list_elem_of_here _ _)). lia.
      * eapply extends_trans; [exact He2 | exact He].
  - split; [exists a; reflexivity|]. split; [reflexivity|]. lia.
Qed.

Lemma first_gives_first_item_witness :
  exists self' st' w'' item rest s1,
    RequestArray_first canned canned_get dateutil_parse literal_eval_unused str_model
      (fun _ => Raise TypeError)
      (RequestArray_init test_dispatcher (Some "entries") true (Some [("limit", JInt 5)]))
      empty_store ([mkResponse 200 (Ok mapped_doc)], [])
    = (Done (VRes 0), self', st', w'')
    /\ params (request self') = [("limit", JInt 1)]
    /\ subscript mapped_doc "items" = Ok (JList (item :: rest))
    /\ decode cat_registry dateutil_parse literal_eval_unused str_model item empty_store
       = Ok (VRes 0, s1)
    /\ field_of st' 0 "image" = Some (VLink (JStr "Asset") (JStr "pic")).
Proof.
  pose (self := RequestArray_init test_dispatcher (Some "entries") true
                  (Some [("limit", JInt 5)])).
  pose (res := RequestArray_first canned canned_get dateutil_parse literal_eval_unused
                 str_model (fun _ => Raise TypeError) self empty_store
                 ([mkResponse 200 (Ok mapped_doc)], [])).
  pose (self' := snd (fst (fst res))).
  pose (st' := snd (fst res)).
  pose (w'' := snd res).
  assert (H : RequestArray_first canned canned_get dateutil_parse literal_eval_unused
                str_model (fun _ => Raise TypeError) self empty_store
                ([mkResponse 200 (Ok mapped_doc)], [])
              = (Done (VRes 0), self', st', w'')) by (vm_compute; reflexivity).
  assert (Hr : 200 <= status_code (mkResponse 200 (Ok mapped_doc)) < 300)
    by (simpl; lia).
  assert (Hits : (let? i := subscript mapped_doc "items" in iterate i)
                 = Ok [entry_json "e1" "dog" [("image", link_json "Asset" "pic")];
                       entry_json "e2" "dog" []]) by reflexivity.
  destruct (first_gives_first_item canned canned_get dateutil_parse literal_eval_unused
              str_model (fun _ => Raise TypeError) self empty_store
              ([mkResponse 200 (Ok mapped_doc)], [])
              (mkResponse 200 (Ok mapped_doc)) _ mapped_doc _ 2 _ _ _ _
              eq_refl Hr eq_refl eq_refl eq_refl Hits H)
    as (_ & Hself & _ & _ & Hpos).
  destruct Hpos as (item & rest & s1 & Hcons & Hitem & _); [lia|].
  exists self', st', w'', item, rest, s1.
  split; [exact H|]. split; [rewrite Hself; reflexivity|].
  split; [rewrite <- Hcons; reflexivity|]. split; [exact Hitem|].
  vm_compute. reflexivity.
Defined.

(** ** Resolving one link through the client *)

Lemma lookup_in_array_link st a arr s resource_id :
  array_at st a = Some arr ->
  lookup_in_array st a (JStr s) resource_id =
  match sget (items_mapped arr) s with
  | Some container => let? id := to_key resource_id in Ok (kget container id)
  | None => Raise AttributeError
  end.
Proof.
  unfold array_at, lookup_in_array. intros H.
  destruct (objs st !! a) as [[arr'| | | |]|]; try discriminate.
  injection H as ->. reflexivity.
Qed.

Lemma sget_buckets bA bE s :
  sget (buckets bA bE) s =
  if String.eqb "Asset" s then Some bA
  else if String.eqb "Entry" s then Some bE else None.
Proof. reflexivity. Qed.

(** X15: given an array that the factory decoded, [resolve] looks the
    link up in the buckets of the array only: a resource found there is
    returned without any call of the HTTP client and without any change;
    a link whose type is neither Asset nor Entry raises AttributeError
    instead of being fetched; and a link that its bucket does not hold is
    fetched exactly as when no array is given. *)
Theorem resolve_in_array :
  forall W (httpclient_get : string -> list (string * json) -> list (string * string)
                             -> W -> option Response * W)
         parse_date literal_eval str_other PATH_ASSETS PATH_CONTENT_TYPES PATH_ENTRIES
         gt_other self reg parse_date' literal_eval' str_other' depth json st0 st1
         a arr st w s resource_id,
    from_json reg parse_date' literal_eval' str_other' depth json st0 = Ok (VRes a, st1) ->
    array_at st1 a = Some arr ->
    array_at st a = Some arr ->
    (s <> "Asset" -> s <> "Entry" ->
     Client_resolve W httpclient_get parse_date literal_eval str_other
       PATH_ASSETS PATH_CONTENT_TYPES PATH_ENTRIES gt_other
       self (JStr s) resource_id (Some a) st w
     = (Fail (Builtin AttributeError), st, w))
    /\ (forall r,
          link_target arr (JStr s) resource_id = Some r ->
          Client_resolve W httpclient_get parse_date literal_eval str_other
            PATH_ASSETS PATH_CONTENT_TYPES PATH_ENTRIES gt_other
            self (JStr s) resource_id (Some a) st w
          = (Done (VRes r), st, w))
    /\ (s = "Asset" \/ s = "Entry" ->
        link_target arr (JStr s) resource_id = None ->
        Client_resolve W httpclient_get parse_date literal_eval str_other
          PATH_ASSETS PATH_CONTENT_TYPES PATH_ENTRIES gt_other
          self (JStr s) resource_id (Some a) st w
        = match to_key resource_id with
          | Ok _ =>
              Client_resolve W httpclient_get parse_date literal_eval str_other
                PATH_ASSETS PATH_CONTENT_TYPES PATH_ENTRIES gt_other
                self (JStr s) resource_id None st w
          | Raise e => (Fail (Builtin e), st, w)
          end).
Proof.
  intros W get pd le so PA PC PE gt self reg pd' le' so' depth json st0 st1
    a arr st w s resource_id Hd Ha1 Ha.
  destruct (from_json_array_buckets _ _ _ _ _ _ _ _ _ _ Hd Ha1) as (bA & bE & Hm).
  unfold Client_resolve at 1 2 3. rewrite (lookup_in_array_link _ _ _ _ _ Ha).
  unfold link_target, _resolve_resource_link. cbn [to_key obind].
  rewrite Hm, sget_buckets. split; [|split].
  - intros H1 H2.
    destruct (String.eqb_spec "Asset" s) as [<-|_]; [contradiction|].
    destruct (String.eqb_spec "Entry" s) as [<-|_]; [contradiction|]. reflexivity.
  - intros r Hr.
    destruct (String.eqb "Asset" s);
      [|destruct (String.eqb "Entry" s); [|discriminate]];
      (destruct (to_key resource_id) as [id|e]; [|discriminate]); cbn [obind] in *;
      (destruct (kget _ id) as [r'|]; [|discriminate]); injection Hr as ->; reflexivity.
  - intros Hs Hnone.
    assert (Hb : exists b,
               (if String.eqb "Asset" s then Some bA
                else if String.eqb "Entry" s then Some bE else None) = Some b).
    { destruct Hs as [-> | ->]; eexists; reflexivity. }
    destruct Hb as [b Hb]. rewrite Hb in *.
    destruct (to_key resource_id) as [id|e]; [|reflexivity]. cbn [obind] in *.
    destruct (kget b id) as [r'|]; [discriminate|]. reflexivity.
Qed.

Lemma resolve_in_array_witness :
  exists st arr,
    decode [] dateutil_parse literal_eval_unused str_model mapped_doc empty_store
      = Ok (VRes 3, st)
    /\ array_at st 3 = Some arr
    /\ Client_resolve canned canned_get dateutil_parse literal_eval_unused str_model
         "assets" "content_types" "entries" (fun _ => Raise TypeError)
         test_client (JStr "Asset") (JStr "pic") (Some 3%nat) st ([], [])
       = (Done (VRes 2), st, ([], []))
    /\ Client_resolve canned canned_get dateutil_parse literal_eval_unused str_model
         "assets" "content_types" "entries" (fun _ => Raise TypeError)
         test_client (JStr "ContentType") (JStr "dog") (Some 3%nat) st ([], [])
       = (Fail (Builtin AttributeError), st, ([], [])).
Proof.
  pose (st := match decode [] dateutil_parse literal_eval_unused str_model
                      mapped_doc empty_store with
              | Ok (_, s) => s
              | Raise _ => empty_store
              end).
  pose (arr := default (mkArray JNull JNull JNull JNull [] []) (array_at st 3)).
  assert (Hd : decode [] dateutil_parse literal_eval_unused str_model mapped_doc
                 empty_store = Ok (VRes 3, st)) by (vm_compute; reflexivity).
  assert (Ha : array_at st 3 = Some arr) by (vm_compute; reflexivity).
  exists st, arr. split; [exact Hd|]. split; [exact Ha|]. split.
  - destruct (resolve_in_array canned canned_get dateutil_parse literal_eval_unused
                str_model "assets" "content_types" "entries" (fun _ => Raise TypeError)
                test_client _ _ _ _ _ _ _ _ _ _ st ([], []) "Asset" (JStr "pic")
                Hd Ha Ha) as (_ & Hfound & _).
    apply Hfound. vm_compute. reflexivity.
  - destruct (resolve_in_array canned canned_get dateutil_parse literal_eval_unused
                str_model "assets" "content_types" "entries" (fun _ => Raise TypeError)
                test_client _ _ _ _ _ _ _ _ _ _ st ([], []) "ContentType" (JStr "dog")
                Hd Ha Ha) as (Hother & _).
    apply Hother; discriminate.
Defined.

(** X16: without an array, [resolve] asks the API for the resources of
    the linked type whose [sys.id] is the linked id, with [limit] 1, and
    gives what [first] gives.  A link of type Space cannot be resolved:
    the call raises before any request is made; so does a link whose
    type is not one of Asset, ContentType, Entry and Space. *)
Theorem resolve_remotely :
  forall W (httpclient_get : string -> list (string * json) -> list (string * string)
                             -> W -> option Response * W)
         parse_date literal_eval str_other PATH_ASSETS PATH_CONTENT_TYPES PATH_ENTRIES
         gt_other self resource_id st w,
    (forall s remote_path,
        (s, remote_path) ∈ [("Asset", PATH_ASSETS); ("ContentType", PATH_CONTENT_TYPES);
                            ("Entry", PATH_ENTRIES)] ->
        Client_resolve W httpclient_get parse_date literal_eval str_other
          PATH_ASSETS PATH_CONTENT_TYPES PATH_ENTRIES gt_other
          self (JStr s) resource_id None st w
        = let '(result, _, st', w') :=
            RequestArray_first W httpclient_get parse_date literal_eval str_other gt_other
              (mkRequestArray
                 (mkRequest (dispatcher self) (Some remote_path) [("sys.id", resource_id)])
                 (config_resolve_links self)) st w in
          (result, st', w'))
    /\ (forall s remote_path,
          (s, remote_path) ∈ [("Asset", PATH_ASSETS); ("ContentType", PATH_CONTENT_TYPES);
                              ("Entry", PATH_ENTRIES)] ->
          forall r w',
            httpclient_get (base_url (dispatcher self) ++ "/" ++ remote_path)%string
              [("sys.id", resource_id); ("limit", JInt 1)]
              (get_headers (dispatcher self)) w = (r, w') ->
            snd (Client_resolve W httpclient_get parse_date literal_eval str_other
                   PATH_ASSETS PATH_CONTENT_TYPES PATH_ENTRIES gt_other
                   self (JStr s) resource_id None st w) = w')
    /\ Client_resolve W httpclient_get parse_date literal_eval str_other
         PATH_ASSETS PATH_CONTENT_TYPES PATH_ENTRIES gt_other
         self (JStr "Space") resource_id None st w
       = (Fail InvalidResourceType, st, w)
    /\ (forall link_type,
          (forall s, s ∈ ["Asset"; "ContentType"; "Entry"; "Space"] -> link_type <> JStr s) ->
          Client_resolve W httpclient_get parse_date literal_eval str_other
            PATH_ASSETS PATH_CONTENT_TYPES PATH_ENTRIES gt_other
            self link_type resource_id None st w
          = (Fail (Builtin TypeError), st, w)).
Proof.
  intros W get pd le so PA PC PE gt self resource_id st w.
  assert (Hcase : forall s remote_path,
             (s, remote_path) ∈ [("Asset", PA); ("ContentType", PC); ("Entry", PE)] ->
             Client_fetch PA PC PE self (class_for_type (JStr s))
             = Done (mkRequestArray (mkRequest (dispatcher self) (Some remote_path) [])
                       (config_resolve_links self))).
  { intros s p Hin. repeat (apply elem_of_cons in Hin as [[= -> ->]|Hin]);
      [reflexivity..|]. apply elem_of_nil in Hin. destruct Hin. }
  split; [|split; [|split]].
  - intros s p Hin. unfold Client_resolve. rewrite (Hcase s p Hin). reflexivity.
  - intros s p Hin r w' Hget. unfold Client_resolve. rewrite (Hcase s p Hin).
    unfold RequestArray_first, Request_invoke, Dispatcher_invoke.
    cbn [RequestArray_where request request_dispatcher remote_path params
         resolve_links_flag format_path default].
    change (sset (dict_update [] [("sys.id", resource_id)]) "limit" (JInt 1))
      with [("sys.id", resource_id); ("limit", JInt 1)].
    change (id p) with p.
    rewrite Hget. destruct r as [r|]; [|reflexivity].
    destruct ((200 <=? status_code r) && (status_code r <? 300)).
    + destruct (body r) as [j|e]; [|reflexivity].
      destruct (decode _ pd le so j st) as [[v st']|e]; reflexivity.
    + destruct (dict_get Z.eqb ErrorMapping_mapping (status_code r)); reflexivity.
  - reflexivity.
  - intros link_type Hno. unfold Client_resolve.
    assert (Hc : class_for_type link_type = None).
    { unfold class_for_type, eq_str. destruct link_type as [| | | |s| |]; try reflexivity.
      repeat match goal with
             | |- context [String.eqb s ?x] =>
                 destruct (String.eqb_spec s x) as [->|_];
                 [exfalso; apply (Hno x); [|reflexivity];
                  repeat (first [apply list_elem_of_here | apply list_elem_of_further])|]
             end.
      reflexivity. }
    rewrite Hc. reflexivity.
Qed.

(** ** Requests for a custom class *)

Lemma collect_fields_content_type_value attrs : forall acc ct0,
  NoDup (dict_keys attrs) ->
  snd (collect_fields true attrs acc ct0) =
  match sget attrs "__content_type__" with
  | Some (AValue v) => v
  | _ => ct0
  end.
Proof.
  induction attrs as [|[n0 a0] attrs IH]; intros acc ct0 Hnd; [reflexivity|].
  simpl in Hnd. apply NoDup_cons in Hnd as [Hn0 Hnd].
  change (sget ((n0, a0) :: attrs) "__content_type__")
    with (if String.eqb n0 "__content_type__" then Some a0
          else sget attrs "__content_type__").
  destruct a0 as [f|v]; simpl.
  - rewrite IH by exact Hnd.
    destruct (String.eqb_spec n0 "__content_type__") as [->|_]; [|reflexivity].
    rewrite (sget_not_key attrs _ Hn0). reflexivity.
  - destruct (String.eqb_spec n0 "__content_type__") as [->|_];
      rewrite IH by exact Hnd; [|reflexivity].
    rewrite (sget_not_key attrs _ Hn0). reflexivity.
Qed.

(** X17: for a custom class that the metaclass accepted, [fetch] makes a
    request for entries whose only parameter is [content_type], set to
    the [__content_type__] of the class body, which is never None; it is
    the content type under which the factory registers the class. *)
Theorem fetch_custom_class :
  forall PATH_ASSETS PATH_CONTENT_TYPES PATH_ENTRIES self name base attrs c,
    FieldOwner_new name base attrs = Ok c ->
    name <> "Entry" ->
    issubclass_Entry base = true ->
    NoDup (dict_keys attrs) ->
    exists ct,
      sget attrs "__content_type__" = Some (AValue ct)
      /\ ct <> JNull
      /\ Client_fetch PATH_ASSETS PATH_CONTENT_TYPES PATH_ENTRIES self (Some (ClassOf c))
         = Done (mkRequestArray
                   (mkRequest (dispatcher self) (Some PATH_ENTRIES) [("content_type", ct)])
                   (config_resolve_links self))
      /\ content_key c = to_key ct.
Proof.
  intros PA PC PE self name base attrs c H Hname Hbase Hnd.
  unfold FieldOwner_new in H.
  assert (Hcustom : negb (String.eqb name "Entry") = true).
  { destruct (String.eqb_spec name "Entry"); [contradiction | reflexivity]. }
  rewrite Hcustom in H.
  pose proof (collect_fields_content_type_value attrs [] JNull Hnd) as Hct.
  destruct (collect_fields true attrs [] JNull) as [efs ct]. simpl in Hct, H.
  destruct (is_none ct) eqn:Hn; [discriminate|]. injection H as <-.
  assert (Hattr : sget attrs "__content_type__" = Some (AValue ct)).
  { destruct (sget attrs "__content_type__") as [[f|v]|];
      subst ct; try discriminate. reflexivity. }
  assert (Hget : get_content_type (CustomClass name base (set_field_ids attrs) efs)
                 = Ok ct).
  { unfold get_content_type. cbn [class_getattr].
    rewrite sget_set_field_ids, Hattr. reflexivity. }
  exists ct. split; [exact Hattr|]. split; [intros ->; discriminate|]. split.
  - unfold Client_fetch, issubclass_of_Entry, getattr_content_type, path_for_class.
    cbn [issubclass_Entry]. rewrite Hbase, Hget, Hn. reflexivity.
  - unfold content_key. rewrite Hget. reflexivity.
Qed.

Lemma fetch_custom_class_witness :
  Client_fetch "assets" "content_types" "entries" test_client (Some (ClassOf Cat))
  = Done (mkRequestArray
            (mkRequest test_dispatcher (Some "entries") [("content_type", JStr "cat")])
            true)
  /\ content_key Cat = Ok (KStr "cat").
Proof.
  assert (H : FieldOwner_new "Cat" EntryClass cat_attrs = Ok Cat) by reflexivity.
  assert (Hnd : NoDup (dict_keys cat_attrs)).
  { apply (bool_decide_unpack _). vm_compute. exact I. }
  destruct (fetch_custom_class "assets" "content_types" "entries" test_client
              _ _ _ _ H ltac:(discriminate) eq_refl Hnd) as (ct & Hct & _ & Hf & Hk).
  vm_compute in Hct. injection Hct as <-. split; [exact Hf | exact Hk].
Defined.
